(** * AI voice bot backend (src/app.py): a shallow embedding and its properties

    The Flask handlers of [src/app.py] are embedded as functions over an
    explicit [world]: the two module-level dictionaries [conversations] and
    [call_data], and the trace of calls made to the external collaborators
    (the chat oracle, the extraction oracle, the SMS client and the
    dashboard print).  A handler that raises leaves the mutations it made
    before the exception in place, as Python does, so every handler is a
    computation in a small state-and-exception monad. *)

From Stdlib Require Import NArith ZArith List String Ascii Bool Lia.
From Stdlib Require Import SpecFloat.
From stdpp Require Import base decidable option list countable strings gmap.

Local Open Scope string_scope.
Local Open Scope list_scope.

(** ** Text

    A Python [str] is a sequence of code points; it is modelled by the
    [string] of its UTF-8 bytes, which is also what a string literal of
    this file holds.  Appending, joining and comparing act on the bytes as
    they act on the code points.  [str.lower()] and [in] need the code
    points, read off the bytes by [code_points]. *)

Module Text.

Local Open Scope N_scope.

(** *** UTF-8 *)

Definition continuation (b : N) : bool := (0x80 <=? b) && (b <=? 0xBF).

Definition point2 (a b : N) : N := (a - 0xC0) * 64 + (b - 0x80).

Definition point3 (a b c : N) : N :=
  (a - 0xE0) * 4096 + (b - 0x80) * 64 + (c - 0x80).

Definition point4 (a b c d : N) : N :=
  (a - 0xF0) * 262144 + (b - 0x80) * 4096 + (c - 0x80) * 64 + (d - 0x80).

(** Well-formed sequences of two, three and four bytes. *)
Definition two (a b : N) : bool :=
  (0xC2 <=? a) && (a <=? 0xDF) && continuation b.

Definition three (a b c : N) : bool :=
  (0xE0 <=? a) && (a <=? 0xEF) && continuation b && continuation c
  && (0x800 <=? point3 a b c).

Definition four (a b c d : N) : bool :=
  (0xF0 <=? a) && (a <=? 0xF4) && continuation b && continuation c
  && continuation d
  && (0x10000 <=? point4 a b c d) && (point4 a b c d <? 0x110000).

(** The code points of a text.  A byte that starts no well-formed
    sequence is read as the code point of its value; the UTF-8 bytes of a
    Python text hold no such byte. *)
Fixpoint code_points (s : string) : list N :=
  match s with
  | EmptyString => []
  | String a s1 =>
      let x := N_of_ascii a in
      match s1 with
      | EmptyString => [x]
      | String b s2 =>
          let y := N_of_ascii b in
          if two x y then point2 x y :: code_points s2 else
          match s2 with
          | EmptyString => x :: code_points s1
          | String c s3 =>
              let z := N_of_ascii c in
              if three x y z then point3 x y z :: code_points s3 else
              match s3 with
              | EmptyString => x :: code_points s1
              | String d s4 =>
                  let t := N_of_ascii d in
                  if four x y z t then point4 x y z t :: code_points s4
                  else x :: code_points s1
              end
          end
      end
  end.

(** The UTF-8 bytes of a code point below 0x110000, and of a text. *)
Definition utf8_point (c : N) : string :=
  if c <? 0x80 then String (ascii_of_N c) EmptyString
  else if c <? 0x800 then
    String (ascii_of_N (0xC0 + c / 64))
      (String (ascii_of_N (0x80 + c mod 64)) EmptyString)
  else if c <? 0x10000 then
    String (ascii_of_N (0xE0 + c / 4096))
      (String (ascii_of_N (0x80 + (c / 64) mod 64))
         (String (ascii_of_N (0x80 + c mod 64)) EmptyString))
  else
    String (ascii_of_N (0xF0 + c / 262144))
      (String (ascii_of_N (0x80 + (c / 4096) mod 64))
         (String (ascii_of_N (0x80 + (c / 64) mod 64))
            (String (ascii_of_N (0x80 + c mod 64)) EmptyString))).

Fixpoint utf8 (points : list N) : string :=
  match points with
  | [] => EmptyString
  | c :: rest => utf8_point c +:+ utf8 rest
  end.

(** *** [str.lower()]

    CPython lowers a text code point by code point.  U+03A3, the capital
    sigma, becomes the final sigma U+03C2 or the small sigma U+03C3 by
    its context; every other code point becomes what the Unicode data
    say, which is one code point, or two for U+0130 (capital I with dot
    above).  The three tables are those of Unicode 14.0, the version of
    CPython 3.11. *)

(** [(lo, hi, step, target)]: a code point [lo + k * step] up to [hi]
    has the lower case [target + k * step]. *)
Definition lower_ranges : list (N * N * N * N) :=
  [
   (0x41, 0x5A, 1, 0x61); (0xC0, 0xD6, 1, 0xE0); (0xD8, 0xDE, 1, 0xF8);
   (0x100, 0x12E, 2, 0x101); (0x132, 0x136, 2, 0x133); (0x139, 0x147, 2, 0x13A);
   (0x14A, 0x176, 2, 0x14B); (0x178, 0x178, 1, 0xFF); (0x179, 0x17D, 2, 0x17A);
   (0x181, 0x181, 1, 0x253); (0x182, 0x184, 2, 0x183); (0x186, 0x186, 1, 0x254);
   (0x187, 0x187, 1, 0x188); (0x189, 0x18A, 1, 0x256); (0x18B, 0x18B, 1, 0x18C);
   (0x18E, 0x18E, 1, 0x1DD); (0x18F, 0x18F, 1, 0x259); (0x190, 0x190, 1, 0x25B);
   (0x191, 0x191, 1, 0x192); (0x193, 0x193, 1, 0x260); (0x194, 0x194, 1, 0x263);
   (0x196, 0x196, 1, 0x269); (0x197, 0x197, 1, 0x268); (0x198, 0x198, 1, 0x199);
   (0x19C, 0x19C, 1, 0x26F); (0x19D, 0x19D, 1, 0x272); (0x19F, 0x19F, 1, 0x275);
   (0x1A0, 0x1A4, 2, 0x1A1); (0x1A6, 0x1A6, 1, 0x280); (0x1A7, 0x1A7, 1, 0x1A8);
   (0x1A9, 0x1A9, 1, 0x283); (0x1AC, 0x1AC, 1, 0x1AD); (0x1AE, 0x1AE, 1, 0x288);
   (0x1AF, 0x1AF, 1, 0x1B0); (0x1B1, 0x1B2, 1, 0x28A); (0x1B3, 0x1B5, 2, 0x1B4);
   (0x1B7, 0x1B7, 1, 0x292); (0x1B8, 0x1B8, 1, 0x1B9); (0x1BC, 0x1BC, 1, 0x1BD);
   (0x1C4, 0x1C4, 1, 0x1C6); (0x1C5, 0x1C5, 1, 0x1C6); (0x1C7, 0x1C7, 1, 0x1C9);
   (0x1C8, 0x1C8, 1, 0x1C9); (0x1CA, 0x1CA, 1, 0x1CC); (0x1CB, 0x1DB, 2, 0x1CC);
   (0x1DE, 0x1EE, 2, 0x1DF); (0x1F1, 0x1F1, 1, 0x1F3); (0x1F2, 0x1F4, 2, 0x1F3);
   (0x1F6, 0x1F6, 1, 0x195); (0x1F7, 0x1F7, 1, 0x1BF); (0x1F8, 0x21E, 2, 0x1F9);
   (0x220, 0x220, 1, 0x19E); (0x222, 0x232, 2, 0x223); (0x23A, 0x23A, 1, 0x2C65);
   (0x23B, 0x23B, 1, 0x23C); (0x23D, 0x23D, 1, 0x19A); (0x23E, 0x23E, 1, 0x2C66);
   (0x241, 0x241, 1, 0x242); (0x243, 0x243, 1, 0x180); (0x244, 0x244, 1, 0x289);
   (0x245, 0x245, 1, 0x28C); (0x246, 0x24E, 2, 0x247); (0x370, 0x372, 2, 0x371);
   (0x376, 0x376, 1, 0x377); (0x37F, 0x37F, 1, 0x3F3); (0x386, 0x386, 1, 0x3AC);
   (0x388, 0x38A, 1, 0x3AD); (0x38C, 0x38C, 1, 0x3CC); (0x38E, 0x38F, 1, 0x3CD);
   (0x391, 0x3A1, 1, 0x3B1); (0x3A3, 0x3AB, 1, 0x3C3); (0x3CF, 0x3CF, 1, 0x3D7);
   (0x3D8, 0x3EE, 2, 0x3D9); (0x3F4, 0x3F4, 1, 0x3B8); (0x3F7, 0x3F7, 1, 0x3F8);
   (0x3F9, 0x3F9, 1, 0x3F2); (0x3FA, 0x3FA, 1, 0x3FB); (0x3FD, 0x3FF, 1, 0x37B);
   (0x400, 0x40F, 1, 0x450); (0x410, 0x42F, 1, 0x430); (0x460, 0x480, 2, 0x461);
   (0x48A, 0x4BE, 2, 0x48B); (0x4C0, 0x4C0, 1, 0x4CF); (0x4C1, 0x4CD, 2, 0x4C2);
   (0x4D0, 0x52E, 2, 0x4D1); (0x531, 0x556, 1, 0x561); (0x10A0, 0x10C5, 1, 0x2D00);
   (0x10C7, 0x10C7, 1, 0x2D27); (0x10CD, 0x10CD, 1, 0x2D2D); (0x13A0, 0x13EF, 1, 0xAB70);
   (0x13F0, 0x13F5, 1, 0x13F8); (0x1C90, 0x1CBA, 1, 0x10D0); (0x1CBD, 0x1CBF, 1, 0x10FD);
   (0x1E00, 0x1E94, 2, 0x1E01); (0x1E9E, 0x1E9E, 1, 0xDF); (0x1EA0, 0x1EFE, 2, 0x1EA1);
   (0x1F08, 0x1F0F, 1, 0x1F00); (0x1F18, 0x1F1D, 1, 0x1F10); (0x1F28, 0x1F2F, 1, 0x1F20);
   (0x1F38, 0x1F3F, 1, 0x1F30); (0x1F48, 0x1F4D, 1, 0x1F40); (0x1F59, 0x1F5F, 2, 0x1F51);
   (0x1F68, 0x1F6F, 1, 0x1F60); (0x1F88, 0x1F8F, 1, 0x1F80); (0x1F98, 0x1F9F, 1, 0x1F90);
   (0x1FA8, 0x1FAF, 1, 0x1FA0); (0x1FB8, 0x1FB9, 1, 0x1FB0); (0x1FBA, 0x1FBB, 1, 0x1F70);
   (0x1FBC, 0x1FBC, 1, 0x1FB3); (0x1FC8, 0x1FCB, 1, 0x1F72); (0x1FCC, 0x1FCC, 1, 0x1FC3);
   (0x1FD8, 0x1FD9, 1, 0x1FD0); (0x1FDA, 0x1FDB, 1, 0x1F76); (0x1FE8, 0x1FE9, 1, 0x1FE0);
   (0x1FEA, 0x1FEB, 1, 0x1F7A); (0x1FEC, 0x1FEC, 1, 0x1FE5); (0x1FF8, 0x1FF9, 1, 0x1F78);
   (0x1FFA, 0x1FFB, 1, 0x1F7C); (0x1FFC, 0x1FFC, 1, 0x1FF3); (0x2126, 0x2126, 1, 0x3C9);
   (0x212A, 0x212A, 1, 0x6B); (0x212B, 0x212B, 1, 0xE5); (0x2132, 0x2132, 1, 0x214E);
   (0x2160, 0x216F, 1, 0x2170); (0x2183, 0x2183, 1, 0x2184); (0x24B6, 0x24CF, 1, 0x24D0);
   (0x2C00, 0x2C2F, 1, 0x2C30); (0x2C60, 0x2C60, 1, 0x2C61); (0x2C62, 0x2C62, 1, 0x26B);
   (0x2C63, 0x2C63, 1, 0x1D7D); (0x2C64, 0x2C64, 1, 0x27D); (0x2C67, 0x2C6B, 2, 0x2C68);
   (0x2C6D, 0x2C6D, 1, 0x251); (0x2C6E, 0x2C6E, 1, 0x271); (0x2C6F, 0x2C6F, 1, 0x250);
   (0x2C70, 0x2C70, 1, 0x252); (0x2C72, 0x2C72, 1, 0x2C73); (0x2C75, 0x2C75, 1, 0x2C76);
   (0x2C7E, 0x2C7F, 1, 0x23F); (0x2C80, 0x2CE2, 2, 0x2C81); (0x2CEB, 0x2CED, 2, 0x2CEC);
   (0x2CF2, 0x2CF2, 1, 0x2CF3); (0xA640, 0xA66C, 2, 0xA641); (0xA680, 0xA69A, 2, 0xA681);
   (0xA722, 0xA72E, 2, 0xA723); (0xA732, 0xA76E, 2, 0xA733); (0xA779, 0xA77B, 2, 0xA77A);
   (0xA77D, 0xA77D, 1, 0x1D79); (0xA77E, 0xA786, 2, 0xA77F); (0xA78B, 0xA78B, 1, 0xA78C);
   (0xA78D, 0xA78D, 1, 0x265); (0xA790, 0xA792, 2, 0xA791); (0xA796, 0xA7A8, 2, 0xA797);
   (0xA7AA, 0xA7AA, 1, 0x266); (0xA7AB, 0xA7AB, 1, 0x25C); (0xA7AC, 0xA7AC, 1, 0x261);
   (0xA7AD, 0xA7AD, 1, 0x26C); (0xA7AE, 0xA7AE, 1, 0x26A); (0xA7B0, 0xA7B0, 1, 0x29E);
   (0xA7B1, 0xA7B1, 1, 0x287); (0xA7B2, 0xA7B2, 1, 0x29D); (0xA7B3, 0xA7B3, 1, 0xAB53);
   (0xA7B4, 0xA7C2, 2, 0xA7B5); (0xA7C4, 0xA7C4, 1, 0xA794); (0xA7C5, 0xA7C5, 1, 0x282);
   (0xA7C6, 0xA7C6, 1, 0x1D8E); (0xA7C7, 0xA7C9, 2, 0xA7C8); (0xA7D0, 0xA7D0, 1, 0xA7D1);
   (0xA7D6, 0xA7D8, 2, 0xA7D7); (0xA7F5, 0xA7F5, 1, 0xA7F6); (0xFF21, 0xFF3A, 1, 0xFF41);
   (0x10400, 0x10427, 1, 0x10428); (0x104B0, 0x104D3, 1, 0x104D8); (0x10570, 0x1057A, 1, 0x10597);
   (0x1057C, 0x1058A, 1, 0x105A3); (0x1058C, 0x10592, 1, 0x105B3); (0x10594, 0x10595, 1, 0x105BB);
   (0x10C80, 0x10CB2, 1, 0x10CC0); (0x118A0, 0x118BF, 1, 0x118C0); (0x16E40, 0x16E5F, 1, 0x16E60);
   (0x1E900, 0x1E921, 1, 0x1E922)
  ].

(** The code points with the property Case_Ignorable. *)
Definition case_ignorable_ranges : list (N * N) :=
  [
   (0x27, 0x27); (0x2E, 0x2E); (0x3A, 0x3A); (0x5E, 0x5E);
   (0x60, 0x60); (0xA8, 0xA8); (0xAD, 0xAD); (0xAF, 0xAF);
   (0xB4, 0xB4); (0xB7, 0xB8); (0x2B0, 0x36F); (0x374, 0x375);
   (0x37A, 0x37A); (0x384, 0x385); (0x387, 0x387); (0x483, 0x489);
   (0x559, 0x559); (0x55F, 0x55F); (0x591, 0x5BD); (0x5BF, 0x5BF);
   (0x5C1, 0x5C2); (0x5C4, 0x5C5); (0x5C7, 0x5C7); (0x5F4, 0x5F4);
   (0x600, 0x605); (0x610, 0x61A); (0x61C, 0x61C); (0x640, 0x640);
   (0x64B, 0x65F); (0x670, 0x670); (0x6D6, 0x6DD); (0x6DF, 0x6E8);
   (0x6EA, 0x6ED); (0x70F, 0x70F); (0x711, 0x711); (0x730, 0x74A);
   (0x7A6, 0x7B0); (0x7EB, 0x7F5); (0x7FA, 0x7FA); (0x7FD, 0x7FD);
   (0x816, 0x82D); (0x859, 0x85B); (0x888, 0x888); (0x890, 0x891);
   (0x898, 0x89F); (0x8C9, 0x902); (0x93A, 0x93A); (0x93C, 0x93C);
   (0x941, 0x948); (0x94D, 0x94D); (0x951, 0x957); (0x962, 0x963);
   (0x971, 0x971); (0x981, 0x981); (0x9BC, 0x9BC); (0x9C1, 0x9C4);
   (0x9CD, 0x9CD); (0x9E2, 0x9E3); (0x9FE, 0x9FE); (0xA01, 0xA02);
   (0xA3C, 0xA3C); (0xA41, 0xA42); (0xA47, 0xA48); (0xA4B, 0xA4D);
   (0xA51, 0xA51); (0xA70, 0xA71); (0xA75, 0xA75); (0xA81, 0xA82);
   (0xABC, 0xABC); (0xAC1, 0xAC5); (0xAC7, 0xAC8); (0xACD, 0xACD);
   (0xAE2, 0xAE3); (0xAFA, 0xAFF); (0xB01, 0xB01); (0xB3C, 0xB3C);
   (0xB3F, 0xB3F); (0xB41, 0xB44); (0xB4D, 0xB4D); (0xB55, 0xB56);
   (0xB62, 0xB63); (0xB82, 0xB82); (0xBC0, 0xBC0); (0xBCD, 0xBCD);
   (0xC00, 0xC00); (0xC04, 0xC04); (0xC3C, 0xC3C); (0xC3E, 0xC40);
   (0xC46, 0xC48); (0xC4A, 0xC4D); (0xC55, 0xC56); (0xC62, 0xC63);
   (0xC81, 0xC81); (0xCBC, 0xCBC); (0xCBF, 0xCBF); (0xCC6, 0xCC6);
   (0xCCC, 0xCCD); (0xCE2, 0xCE3); (0xD00, 0xD01); (0xD3B, 0xD3C);
   (0xD41, 0xD44); (0xD4D, 0xD4D); (0xD62, 0xD63); (0xD81, 0xD81);
   (0xDCA, 0xDCA); (0xDD2, 0xDD4); (0xDD6, 0xDD6); (0xE31, 0xE31);
   (0xE34, 0xE3A); (0xE46, 0xE4E); (0xEB1, 0xEB1); (0xEB4, 0xEBC);
   (0xEC6, 0xEC6); (0xEC8, 0xECD); (0xF18, 0xF19); (0xF35, 0xF35);
   (0xF37, 0xF37); (0xF39, 0xF39); (0xF71, 0xF7E); (0xF80, 0xF84);
   (0xF86, 0xF87); (0xF8D, 0xF97); (0xF99, 0xFBC); (0xFC6, 0xFC6);
   (0x102D, 0x1030); (0x1032, 0x1037); (0x1039, 0x103A); (0x103D, 0x103E);
   (0x1058, 0x1059); (0x105E, 0x1060); (0x1071, 0x1074); (0x1082, 0x1082);
   (0x1085, 0x1086); (0x108D, 0x108D); (0x109D, 0x109D); (0x10FC, 0x10FC);
   (0x135D, 0x135F); (0x1712, 0x1714); (0x1732, 0x1733); (0x1752, 0x1753);
   (0x1772, 0x1773); (0x17B4, 0x17B5); (0x17B7, 0x17BD); (0x17C6, 0x17C6);
   (0x17C9, 0x17D3); (0x17D7, 0x17D7); (0x17DD, 0x17DD); (0x180B, 0x180F);
   (0x1843, 0x1843); (0x1885, 0x1886); (0x18A9, 0x18A9); (0x1920, 0x1922);
   (0x1927, 0x1928); (0x1932, 0x1932); (0x1939, 0x193B); (0x1A17, 0x1A18);
   (0x1A1B, 0x1A1B); (0x1A56, 0x1A56); (0x1A58, 0x1A5E); (0x1A60, 0x1A60);
   (0x1A62, 0x1A62); (0x1A65, 0x1A6C); (0x1A73, 0x1A7C); (0x1A7F, 0x1A7F);
   (0x1AA7, 0x1AA7); (0x1AB0, 0x1ACE); (0x1B00, 0x1B03); (0x1B34, 0x1B34);
   (0x1B36, 0x1B3A); (0x1B3C, 0x1B3C); (0x1B42, 0x1B42); (0x1B6B, 0x1B73);
   (0x1B80, 0x1B81); (0x1BA2, 0x1BA5); (0x1BA8, 0x1BA9); (0x1BAB, 0x1BAD);
   (0x1BE6, 0x1BE6); (0x1BE8, 0x1BE9); (0x1BED, 0x1BED); (0x1BEF, 0x1BF1);
   (0x1C2C, 0x1C33); (0x1C36, 0x1C37); (0x1C78, 0x1C7D); (0x1CD0, 0x1CD2);
   (0x1CD4, 0x1CE0); (0x1CE2, 0x1CE8); (0x1CED, 0x1CED); (0x1CF4, 0x1CF4);
   (0x1CF8, 0x1CF9); (0x1D2C, 0x1D6A); (0x1D78, 0x1D78); (0x1D9B, 0x1DFF);
   (0x1FBD, 0x1FBD); (0x1FBF, 0x1FC1); (0x1FCD, 0x1FCF); (0x1FDD, 0x1FDF);
   (0x1FED, 0x1FEF); (0x1FFD, 0x1FFE); (0x200B, 0x200F); (0x2018, 0x2019);
   (0x2024, 0x2024); (0x2027, 0x2027); (0x202A, 0x202E); (0x2060, 0x2064);
   (0x2066, 0x206F); (0x2071, 0x2071); (0x207F, 0x207F); (0x2090, 0x209C);
   (0x20D0, 0x20F0); (0x2C7C, 0x2C7D); (0x2CEF, 0x2CF1); (0x2D6F, 0x2D6F);
   (0x2D7F, 0x2D7F); (0x2DE0, 0x2DFF); (0x2E2F, 0x2E2F); (0x3005, 0x3005);
   (0x302A, 0x302D); (0x3031, 0x3035); (0x303B, 0x303B); (0x3099, 0x309E);
   (0x30FC, 0x30FE); (0xA015, 0xA015); (0xA4F8, 0xA4FD); (0xA60C, 0xA60C);
   (0xA66F, 0xA672); (0xA674, 0xA67D); (0xA67F, 0xA67F); (0xA69C, 0xA69F);
   (0xA6F0, 0xA6F1); (0xA700, 0xA721); (0xA770, 0xA770); (0xA788, 0xA78A);
   (0xA7F2, 0xA7F4); (0xA7F8, 0xA7F9); (0xA802, 0xA802); (0xA806, 0xA806);
   (0xA80B, 0xA80B); (0xA825, 0xA826); (0xA82C, 0xA82C); (0xA8C4, 0xA8C5);
   (0xA8E0, 0xA8F1); (0xA8FF, 0xA8FF); (0xA926, 0xA92D); (0xA947, 0xA951);
   (0xA980, 0xA982); (0xA9B3, 0xA9B3); (0xA9B6, 0xA9B9); (0xA9BC, 0xA9BD);
   (0xA9CF, 0xA9CF); (0xA9E5, 0xA9E6); (0xAA29, 0xAA2E); (0xAA31, 0xAA32);
   (0xAA35, 0xAA36); (0xAA43, 0xAA43); (0xAA4C, 0xAA4C); (0xAA70, 0xAA70);
   (0xAA7C, 0xAA7C); (0xAAB0, 0xAAB0); (0xAAB2, 0xAAB4); (0xAAB7, 0xAAB8);
   (0xAABE, 0xAABF); (0xAAC1, 0xAAC1); (0xAADD, 0xAADD); (0xAAEC, 0xAAED);
   (0xAAF3, 0xAAF4); (0xAAF6, 0xAAF6); (0xAB5B, 0xAB5F); (0xAB69, 0xAB6B);
   (0xABE5, 0xABE5); (0xABE8, 0xABE8); (0xABED, 0xABED); (0xFB1E, 0xFB1E);
   (0xFBB2, 0xFBC2); (0xFE00, 0xFE0F); (0xFE13, 0xFE13); (0xFE20, 0xFE2F);
   (0xFE52, 0xFE52); (0xFE55, 0xFE55); (0xFEFF, 0xFEFF); (0xFF07, 0xFF07);
   (0xFF0E, 0xFF0E); (0xFF1A, 0xFF1A); (0xFF3E, 0xFF3E); (0xFF40, 0xFF40);
   (0xFF70, 0xFF70); (0xFF9E, 0xFF9F); (0xFFE3, 0xFFE3); (0xFFF9, 0xFFFB);
   (0x101FD, 0x101FD); (0x102E0, 0x102E0); (0x10376, 0x1037A); (0x10780, 0x10785);
   (0x10787, 0x107B0); (0x107B2, 0x107BA); (0x10A01, 0x10A03); (0x10A05, 0x10A06);
   (0x10A0C, 0x10A0F); (0x10A38, 0x10A3A); (0x10A3F, 0x10A3F); (0x10AE5, 0x10AE6);
   (0x10D24, 0x10D27); (0x10EAB, 0x10EAC); (0x10F46, 0x10F50); (0x10F82, 0x10F85);
   (0x11001, 0x11001); (0x11038, 0x11046); (0x11070, 0x11070); (0x11073, 0x11074);
   (0x1107F, 0x11081); (0x110B3, 0x110B6); (0x110B9, 0x110BA); (0x110BD, 0x110BD);
   (0x110C2, 0x110C2); (0x110CD, 0x110CD); (0x11100, 0x11102); (0x11127, 0x1112B);
   (0x1112D, 0x11134); (0x11173, 0x11173); (0x11180, 0x11181); (0x111B6, 0x111BE);
   (0x111C9, 0x111CC); (0x111CF, 0x111CF); (0x1122F, 0x11231); (0x11234, 0x11234);
   (0x11236, 0x11237); (0x1123E, 0x1123E); (0x112DF, 0x112DF); (0x112E3, 0x112EA);
   (0x11300, 0x11301); (0x1133B, 0x1133C); (0x11340, 0x11340); (0x11366, 0x1136C);
   (0x11370, 0x11374); (0x11438, 0x1143F); (0x11442, 0x11444); (0x11446, 0x11446);
   (0x1145E, 0x1145E); (0x114B3, 0x114B8); (0x114BA, 0x114BA); (0x114BF, 0x114C0);
   (0x114C2, 0x114C3); (0x115B2, 0x115B5); (0x115BC, 0x115BD); (0x115BF, 0x115C0);
   (0x115DC, 0x115DD); (0x11633, 0x1163A); (0x1163D, 0x1163D); (0x1163F, 0x11640);
   (0x116AB, 0x116AB); (0x116AD, 0x116AD); (0x116B0, 0x116B5); (0x116B7, 0x116B7);
   (0x1171D, 0x1171F); (0x11722, 0x11725); (0x11727, 0x1172B); (0x1182F, 0x11837);
   (0x11839, 0x1183A); (0x1193B, 0x1193C); (0x1193E, 0x1193E); (0x11943, 0x11943);
   (0x119D4, 0x119D7); (0x119DA, 0x119DB); (0x119E0, 0x119E0); (0x11A01, 0x11A0A);
   (0x11A33, 0x11A38); (0x11A3B, 0x11A3E); (0x11A47, 0x11A47); (0x11A51, 0x11A56);
   (0x11A59, 0x11A5B); (0x11A8A, 0x11A96); (0x11A98, 0x11A99); (0x11C30, 0x11C36);
   (0x11C38, 0x11C3D); (0x11C3F, 0x11C3F); (0x11C92, 0x11CA7); (0x11CAA, 0x11CB0);
   (0x11CB2, 0x11CB3); (0x11CB5, 0x11CB6); (0x11D31, 0x11D36); (0x11D3A, 0x11D3A);
   (0x11D3C, 0x11D3D); (0x11D3F, 0x11D45); (0x11D47, 0x11D47); (0x11D90, 0x11D91);
   (0x11D95, 0x11D95); (0x11D97, 0x11D97); (0x11EF3, 0x11EF4); (0x13430, 0x13438);
   (0x16AF0, 0x16AF4); (0x16B30, 0x16B36); (0x16B40, 0x16B43); (0x16F4F, 0x16F4F);
   (0x16F8F, 0x16F9F); (0x16FE0, 0x16FE1); (0x16FE3, 0x16FE4); (0x1AFF0, 0x1AFF3);
   (0x1AFF5, 0x1AFFB); (0x1AFFD, 0x1AFFE); (0x1BC9D, 0x1BC9E); (0x1BCA0, 0x1BCA3);
   (0x1CF00, 0x1CF2D); (0x1CF30, 0x1CF46); (0x1D167, 0x1D169); (0x1D173, 0x1D182);
   (0x1D185, 0x1D18B); (0x1D1AA, 0x1D1AD); (0x1D242, 0x1D244); (0x1DA00, 0x1DA36);
   (0x1DA3B, 0x1DA6C); (0x1DA75, 0x1DA75); (0x1DA84, 0x1DA84); (0x1DA9B, 0x1DA9F);
   (0x1DAA1, 0x1DAAF); (0x1E000, 0x1E006); (0x1E008, 0x1E018); (0x1E01B, 0x1E021);
   (0x1E023, 0x1E024); (0x1E026, 0x1E02A); (0x1E130, 0x1E13D); (0x1E2AE, 0x1E2AE);
   (0x1E2EC, 0x1E2EF); (0x1E8D0, 0x1E8D6); (0x1E944, 0x1E94B); (0x1F3FB, 0x1F3FF);
   (0xE0001, 0xE0001); (0xE0020, 0xE007F); (0xE0100, 0xE01EF)
  ].

(** The code points with the property Cased, those left out that are
    case-ignorable as well: the sigma rule asks for Cased only where
    Case_Ignorable does not hold. *)
Definition cased_ranges : list (N * N) :=
  [
   (0x41, 0x5A); (0x61, 0x7A); (0xAA, 0xAA); (0xB5, 0xB5);
   (0xBA, 0xBA); (0xC0, 0xD6); (0xD8, 0xF6); (0xF8, 0x1BA);
   (0x1BC, 0x1BF); (0x1C4, 0x293); (0x295, 0x2AF); (0x370, 0x373);
   (0x376, 0x377); (0x37B, 0x37D); (0x37F, 0x37F); (0x386, 0x386);
   (0x388, 0x38A); (0x38C, 0x38C); (0x38E, 0x3A1); (0x3A3, 0x3F5);
   (0x3F7, 0x481); (0x48A, 0x52F); (0x531, 0x556); (0x560, 0x588);
   (0x10A0, 0x10C5); (0x10C7, 0x10C7); (0x10CD, 0x10CD); (0x10D0, 0x10FA);
   (0x10FD, 0x10FF); (0x13A0, 0x13F5); (0x13F8, 0x13FD); (0x1C80, 0x1C88);
   (0x1C90, 0x1CBA); (0x1CBD, 0x1CBF); (0x1D00, 0x1D2B); (0x1D6B, 0x1D77);
   (0x1D79, 0x1D9A); (0x1E00, 0x1F15); (0x1F18, 0x1F1D); (0x1F20, 0x1F45);
   (0x1F48, 0x1F4D); (0x1F50, 0x1F57); (0x1F59, 0x1F59); (0x1F5B, 0x1F5B);
   (0x1F5D, 0x1F5D); (0x1F5F, 0x1F7D); (0x1F80, 0x1FB4); (0x1FB6, 0x1FBC);
   (0x1FBE, 0x1FBE); (0x1FC2, 0x1FC4); (0x1FC6, 0x1FCC); (0x1FD0, 0x1FD3);
   (0x1FD6, 0x1FDB); (0x1FE0, 0x1FEC); (0x1FF2, 0x1FF4); (0x1FF6, 0x1FFC);
   (0x2102, 0x2102); (0x2107, 0x2107); (0x210A, 0x2113); (0x2115, 0x2115);
   (0x2119, 0x211D); (0x2124, 0x2124); (0x2126, 0x2126); (0x2128, 0x2128);
   (0x212A, 0x212D); (0x212F, 0x2134); (0x2139, 0x2139); (0x213C, 0x213F);
   (0x2145, 0x2149); (0x214E, 0x214E); (0x2160, 0x217F); (0x2183, 0x2184);
   (0x24B6, 0x24E9); (0x2C00, 0x2C7B); (0x2C7E, 0x2CE4); (0x2CEB, 0x2CEE);
   (0x2CF2, 0x2CF3); (0x2D00, 0x2D25); (0x2D27, 0x2D27); (0x2D2D, 0x2D2D);
   (0xA640, 0xA66D); (0xA680, 0xA69B); (0xA722, 0xA76F); (0xA771, 0xA787);
   (0xA78B, 0xA78E); (0xA790, 0xA7CA); (0xA7D0, 0xA7D1); (0xA7D3, 0xA7D3);
   (0xA7D5, 0xA7D9); (0xA7F5, 0xA7F6); (0xA7FA, 0xA7FA); (0xAB30, 0xAB5A);
   (0xAB60, 0xAB68); (0xAB70, 0xABBF); (0xFB00, 0xFB06); (0xFB13, 0xFB17);
   (0xFF21, 0xFF3A); (0xFF41, 0xFF5A); (0x10400, 0x1044F); (0x104B0, 0x104D3);
   (0x104D8, 0x104FB); (0x10570, 0x1057A); (0x1057C, 0x1058A); (0x1058C, 0x10592);
   (0x10594, 0x10595); (0x10597, 0x105A1); (0x105A3, 0x105B1); (0x105B3, 0x105B9);
   (0x105BB, 0x105BC); (0x10C80, 0x10CB2); (0x10CC0, 0x10CF2); (0x118A0, 0x118DF);
   (0x16E40, 0x16E7F); (0x1D400, 0x1D454); (0x1D456, 0x1D49C); (0x1D49E, 0x1D49F);
   (0x1D4A2, 0x1D4A2); (0x1D4A5, 0x1D4A6); (0x1D4A9, 0x1D4AC); (0x1D4AE, 0x1D4B9);
   (0x1D4BB, 0x1D4BB); (0x1D4BD, 0x1D4C3); (0x1D4C5, 0x1D505); (0x1D507, 0x1D50A);
   (0x1D50D, 0x1D514); (0x1D516, 0x1D51C); (0x1D51E, 0x1D539); (0x1D53B, 0x1D53E);
   (0x1D540, 0x1D544); (0x1D546, 0x1D546); (0x1D54A, 0x1D550); (0x1D552, 0x1D6A5);
   (0x1D6A8, 0x1D6C0); (0x1D6C2, 0x1D6DA); (0x1D6DC, 0x1D6FA); (0x1D6FC, 0x1D714);
   (0x1D716, 0x1D734); (0x1D736, 0x1D74E); (0x1D750, 0x1D76E); (0x1D770, 0x1D788);
   (0x1D78A, 0x1D7A8); (0x1D7AA, 0x1D7C2); (0x1D7C4, 0x1D7CB); (0x1DF00, 0x1DF09);
   (0x1DF0B, 0x1DF1E); (0x1E900, 0x1E943); (0x1F130, 0x1F149); (0x1F150, 0x1F169);
   (0x1F170, 0x1F189)
  ].

Fixpoint to_lower_in (ranges : list (N * N * N * N)) (c : N) : N :=
  match ranges with
  | [] => c
  | (lo, hi, step, target) :: rest =>
      if (lo <=? c) && (c <=? hi)
      then (if (c - lo) mod step =? 0 then target + (c - lo) else c)
      else to_lower_in rest c
  end.

Definition to_lower (c : N) : N := to_lower_in lower_ranges c.

(** [_PyUnicode_ToLowerFull] *)
Definition to_lower_full (c : N) : list N :=
  if c =? 0x130 then [0x69; 0x307] else [to_lower c].

Definition in_ranges (ranges : list (N * N)) (c : N) : bool :=
  existsb (fun r => (fst r <=? c) && (c <=? snd r)) ranges.

Definition case_ignorable (c : N) : bool := in_ranges case_ignorable_ranges c.

Definition cased (c : N) : bool := in_ranges cased_ranges c.

(** The nearest code point that is not case-ignorable. *)
Fixpoint nearest (points : list N) : option N :=
  match points with
  | [] => None
  | c :: rest => if case_ignorable c then nearest rest else Some c
  end.

(** [handle_capital_sigma]: the sigma is final when a cased letter comes
    before it and none comes after it, case-ignorable code points skipped
    on both sides.  [before] is the text before the sigma, nearest code
    point first. *)
Definition final_sigma (before after : list N) : bool :=
  match nearest before with
  | Some c =>
      cased c &&
      match nearest after with
      | Some c' => negb (cased c')
      | None => true
      end
  | None => false
  end.

Fixpoint lower_from (before : list N) (s : list N) : list N :=
  match s with
  | [] => []
  | c :: rest =>
      (if c =? 0x3A3
       then [if final_sigma before rest then 0x3C2 else 0x3C3]
       else to_lower_full c)
      ++ lower_from (c :: before) rest
  end.

(** [text.lower()] *)
Definition lower (s : list N) : list N := lower_from [] s.

(** [s.startswith(p)] *)
Fixpoint startswith (p s : list N) : bool :=
  match p, s with
  | [], _ => true
  | a :: p', b :: s' => (a =? b) && startswith p' s'
  | _ :: _, [] => false
  end.

(** [p in s] for two texts: [p] occurs in [s] at some position. *)
Fixpoint contains (p s : list N) : bool :=
  startswith p s ||
  match s with
  | [] => false
  | _ :: s' => contains p s'
  end.

(** ["\n"] *)
Definition newline : string := String (ascii_of_nat 10) EmptyString.

(** [sep.join(parts)] *)
Fixpoint join (sep : string) (parts : list string) : string :=
  match parts with
  | [] => EmptyString
  | [p] => p
  | p :: rest => p +:+ sep +:+ join sep rest
  end.

End Text.

(** ** The emergency classifier (src/app.py, lines 29-34) *)

Definition EMERGENCY_KEYWORDS : list string :=
  ["burst"; "flooding"; "leak"; "emergency"; "urgent"; "water everywhere"].

(** [detect_emergency] on the code points of the text. *)
Definition detect_emergency_points (text : list N) : bool :=
  let text_lower := Text.lower text in
  existsb (fun keyword => Text.contains (Text.code_points keyword) text_lower)
    EMERGENCY_KEYWORDS.

Definition detect_emergency (text : string) : bool :=
  detect_emergency_points (Text.code_points text).

Arguments detect_emergency : simpl never.

(** ** Values

    What [json.loads] can return, which is also what the fields of a
    booking record and of a dashboard record can hold.  Python's [None] is
    [JNull].  A [JObj] is a Python [dict] with string keys, its items in
    insertion order, each key once. *)

#[warnings="-register-all"]
Inductive json : Type :=
  | JNull
  | JBool (b : bool)
  | JInt (n : Z)
  | JFloat (x : spec_float)
  | JStr (s : string)
  | JArr (items : list json)
  | JObj (fields : list (string * json)).

Inductive exn : Type :=
  | KeyError          (* d[k] on a dict without the key k *)
  | AttributeError    (* x.get(...) on a value that is not a dict *)
  | JSONDecodeError   (* json.loads on a text that is not JSON *)
  | OracleError.      (* the call to the language model failed *)

Module Py.

(** [bool(v)] *)
Definition truthy (v : json) : bool :=
  match v with
  | JNull => false
  | JBool b => b
  | JInt n => negb (n =? 0)%Z
  | JFloat (S754_zero _) => false
  | JFloat _ => true
  | JStr s => negb (String.eqb s "")
  | JArr items => match items with [] => false | _ :: _ => true end
  | JObj fields => match fields with [] => false | _ :: _ => true end
  end.

(** [v == s] for a string literal [s]: only a [str] equals a [str]. *)
Definition eq_str (v : json) (s : string) : bool :=
  match v with
  | JStr s' => String.eqb s' s
  | _ => false
  end.

Fixpoint assoc (k : string) (fields : list (string * json)) : option json :=
  match fields with
  | [] => None
  | (k', v) :: rest => if String.eqb k k' then Some v else assoc k rest
  end.

(** [v.get(k, default)]: a dict answers, any other value has no [get]. *)
Definition get (v : json) (k : string) (default : json) : exn + json :=
  match v with
  | JObj fields => inr (match assoc k fields with Some x => x | None => default end)
  | _ => inl AttributeError
  end.

(** an optional string as a Python value *)
Definition of_opt (o : option string) : json :=
  match o with Some s => JStr s | None => JNull end.

End Py.

(** ** Dictionaries with insertion order

    [conversations] and [call_data] are Python dicts: [get_calls] walks
    [call_data.items()] in insertion order, so the order is part of the
    model.  Assigning to a key that is present keeps its position. *)

Module Dict.
Section dict.
Context {K V : Type} `{EqDecision K}.

Fixpoint get (k : K) (d : list (K * V)) : option V :=
  match d with
  | [] => None
  | (k', v) :: rest => if decide (k = k') then Some v else get k rest
  end.

(** [k in d] *)
Definition mem (k : K) (d : list (K * V)) : bool :=
  match get k d with Some _ => true | None => false end.

(** [d[k] = v] *)
Fixpoint set (k : K) (v : V) (d : list (K * V)) : list (K * V) :=
  match d with
  | [] => [(k, v)]
  | (k', v') :: rest =>
      if decide (k = k') then (k, v) :: rest else (k', v') :: set k v rest
  end.

Definition keys (d : list (K * V)) : list K := map fst d.
End dict.
End Dict.

(** ** The two stores and the requests *)

(** A call identifier is [request.form.get('CallSid')]: [None] when the
    form has no such field, and [None] is a dict key like any other. *)
Abbreviation call_id := (option string).

Inductive role : Type := RSystem | RUser | RAssistant.

(** [{"role": ..., "content": ...}] *)
Record message : Type := Message { msg_role : role; content : string }.

(** The value of [call_data[call_sid]].  The keys 'from', 'started_at' and
    'conversation' are written at creation; the other four are absent
    until a handler writes them.  Time stamps are microseconds. *)
Record call_record : Type := CallRecord {
  cd_from : option string;            (* 'from', None when the form had no From *)
  cd_started_at : Z;                  (* 'started_at' *)
  cd_conversation : list string;      (* 'conversation' *)
  cd_is_emergency : option bool;      (* 'is_emergency' *)
  cd_status : option (option string); (* 'status', None inside when the form had no CallStatus *)
  cd_ended_at : option Z;             (* 'ended_at' *)
  cd_booking_info : option json       (* 'booking_info' *)
}.

(** [dashboard_data] of [save_to_dashboard]; the duration is in whole
    seconds, which is what [str(ended - started).split('.')[0]] shows. *)
Record dashboard_data : Type := DashboardData {
  db_clientName : json;
  db_phone : json;
  db_issue : json;
  db_urgency : string;
  db_appointmentTime : json;
  db_status : string;
  db_duration : Z;
  db_transcript : string
}.

(** One element of the list returned by [get_calls]. *)
Record call_entry : Type := CallEntry {
  ce_id : call_id;
  ce_clientName : json;
  ce_phone : json;
  ce_issue : json;
  ce_urgency : string;
  ce_appointmentTime : json;
  ce_status : json;
  ce_timestamp : Z;
  ce_transcript : string
}.

(** Calls to the collaborators, in the order they are made. *)
Inductive effect : Type :=
  | ChatCompletion (messages : list message)
  | ExtractCompletion (conversation_text : string)
  | SmsCreate (call_sid : call_id) (to : json)
              (appointment_time issue : json) (delivered : bool)
  | DashboardPrint (call_sid : call_id) (data : dashboard_data).

Record world : Type := World {
  conversations : list (call_id * list message);
  call_data : list (call_id * call_record);
  effects : list effect
}.

(** The module-level state when the process starts. *)
Definition initial_world : world :=
  {| conversations := []; call_data := []; effects := [] |}.

(** [request.form] *)
Record form : Type := Form {
  f_From : option string;
  f_CallSid : option string;
  f_SpeechResult : option string;
  f_CallStatus : option string
}.

(** What the outside world answers during one request: the readings of
    [datetime.now()] (the n-th reading of the request), the text of the
    chat completion and of the extraction completion ([None]: the call
    raised), and whether the SMS client accepted the message. *)
Record env : Type := Env {
  clock : nat -> Z;
  chat_reply : option string;
  extract_reply : option string;
  sms_delivered : bool
}.

(** TwiML verbs of a [VoiceResponse].  Every [Gather] of the source has the
    same attributes (speech input, action /process_speech) and one [say]. *)
Inductive verb : Type :=
  | Gather (say : string)
  | Say (text : string)
  | Hangup.

(** ** Handlers as computations: state and exceptions *)

Definition M (A : Type) : Type := world -> world * (exn + A).

Definition ret {A} (a : A) : M A := fun w => (w, inr a).

Definition raise {A} (e : exn) : M A := fun w => (w, inl e).

Definition bind {A B} (m : M A) (k : A -> M B) : M B :=
  fun w =>
    match m w with
    | (w', inr a) => k a w'
    | (w', inl e) => (w', inl e)
    end.

(** [try: m  except: handler] *)
Definition try_except {A} (m : M A) (handler : exn -> M A) : M A :=
  fun w =>
    match m w with
    | (w', inr a) => (w', inr a)
    | (w', inl e) => handler e w'
    end.

Definition lift {A} (r : exn + A) : M A := fun w => (w, r).

Definition get_world : M world := fun w => (w, inr w).

Declare Scope py_scope.
Delimit Scope py_scope with py.
Notation "x <- m ;; k" := (bind m (fun x => k))
  (at level 100, m at next level, right associativity) : py_scope.
Notation "m ;; k" := (bind m (fun _ => k))
  (at level 100, right associativity) : py_scope.
Local Open Scope py_scope.

(** [conversations[call_sid]] *)
Definition conversation_of (call_sid : call_id) : M (list message) :=
  fun w =>
    match Dict.get call_sid (conversations w) with
    | Some h => (w, inr h)
    | None => (w, inl KeyError)
    end.

(** [conversations[call_sid].append(m)] *)
Definition conversation_append (call_sid : call_id) (m : message) : M unit :=
  fun w =>
    match Dict.get call_sid (conversations w) with
    | Some h =>
        ({| conversations := Dict.set call_sid (h ++ [m]) (conversations w);
            call_data := call_data w;
            effects := effects w |}, inr tt)
    | None => (w, inl KeyError)
    end.

(** [call_data[call_sid]] *)
Definition call_of (call_sid : call_id) : M call_record :=
  fun w =>
    match Dict.get call_sid (call_data w) with
    | Some d => (w, inr d)
    | None => (w, inl KeyError)
    end.

(** [call_data[call_sid][key] = ...] and [call_data[call_sid][key].append(...)]:
    the record under [call_sid] is updated in place. *)
Definition call_update (call_sid : call_id) (f : call_record -> call_record) : M unit :=
  fun w =>
    match Dict.get call_sid (call_data w) with
    | Some d =>
        ({| conversations := conversations w;
            call_data := Dict.set call_sid (f d) (call_data w);
            effects := effects w |}, inr tt)
    | None => (w, inl KeyError)
    end.

(** [conversations[call_sid] = h] *)
Definition conversation_assign (call_sid : call_id) (h : list message) : M unit :=
  fun w =>
    ({| conversations := Dict.set call_sid h (conversations w);
        call_data := call_data w;
        effects := effects w |}, inr tt).

(** [call_data[call_sid] = d] *)
Definition call_assign (call_sid : call_id) (d : call_record) : M unit :=
  fun w =>
    ({| conversations := conversations w;
        call_data := Dict.set call_sid d (call_data w);
        effects := effects w |}, inr tt).

Definition emit (ev : effect) : M unit :=
  fun w =>
    ({| conversations := conversations w;
        call_data := call_data w;
        effects := effects w ++ [ev] |}, inr tt).

Definition append_line (line : string) (d : call_record) : call_record :=
  {| cd_from := cd_from d; cd_started_at := cd_started_at d;
     cd_conversation := cd_conversation d ++ [line];
     cd_is_emergency := cd_is_emergency d; cd_status := cd_status d;
     cd_ended_at := cd_ended_at d; cd_booking_info := cd_booking_info d |}.

Definition set_is_emergency (d : call_record) : call_record :=
  {| cd_from := cd_from d; cd_started_at := cd_started_at d;
     cd_conversation := cd_conversation d;
     cd_is_emergency := Some true; cd_status := cd_status d;
     cd_ended_at := cd_ended_at d; cd_booking_info := cd_booking_info d |}.

Definition set_booking_info (b : json) (d : call_record) : call_record :=
  {| cd_from := cd_from d; cd_started_at := cd_started_at d;
     cd_conversation := cd_conversation d;
     cd_is_emergency := cd_is_emergency d; cd_status := cd_status d;
     cd_ended_at := cd_ended_at d; cd_booking_info := Some b |}.

Definition set_status (s : option string) (now : Z) (d : call_record) : call_record :=
  {| cd_from := cd_from d; cd_started_at := cd_started_at d;
     cd_conversation := cd_conversation d;
     cd_is_emergency := cd_is_emergency d; cd_status := Some s;
     cd_ended_at := Some now; cd_booking_info := cd_booking_info d |}.

(** [data.get('is_emergency')] as a condition: the key is absent or true. *)
Definition flagged (d : call_record) : bool :=
  match cd_is_emergency d with Some b => b | None => false end.

(** ** The handlers of src/app.py *)

Definition system_prompt : string :=
"You are a professional receptionist for a plumbing business. 
    Your job is to:
    1. Greet callers warmly
    2. Ask about their plumbing issue
    3. Collect their name, phone number (if different from caller ID), and address
    4. Ask about their preferred appointment time
    5. Confirm the booking
    6. Be empathetic if it's an emergency
    
    Keep responses SHORT (1-2 sentences max) since this is a phone call.
    Always be professional, helpful, and efficient.
    
    If they mention emergency keywords like 'burst pipe', 'flooding', 'leak', prioritize them immediately.
    ".

Definition greeting : string :=
  "Hello! Thank you for calling. How can I help you today?".

Definition no_input : string :=
  "I didn't hear anything. Please give us a call back.".

Definition closing : string :=
  "Perfect! I've got all your details. We'll see you at your appointment. " +:+
  "You'll receive a confirmation SMS shortly. Thank you for calling!".

(** The record built in the [except] branch of [extract_booking_info]. *)
Definition default_booking : json :=
  JObj [("name", JStr "Not provided");
        ("phone", JStr "Not provided");
        ("address", JStr "Not provided");
        ("issue", JStr "Not provided");
        ("appointment_time", JStr "Not provided");
        ("is_emergency", JStr "no")].

(** [get_ai_response] (lines 36-65): the history it is given already ends
    with the caller's utterance, which is appended once more. *)
Definition get_ai_response (e : env) (conversation_history : list message)
    (user_input : string) : M string :=
  let messages :=
    [Message RSystem system_prompt] ++ conversation_history
      ++ [Message RUser user_input] in
  emit (ChatCompletion messages) ;;
  match chat_reply e with
  | Some text => ret text
  | None => raise OracleError
  end.

Section handlers.

(** [json.loads]: [None] when it raises.  The parser is the standard
    library's and is not part of the repository. *)
Variable json_loads : string -> option json.

(** [extract_booking_info] (lines 67-101): the completion call is outside
    the [try]; parsing is inside it, under a bare [except]. *)
Definition extract_booking_info (e : env) (conversation_text : string) : M json :=
  emit (ExtractCompletion conversation_text) ;;
  match extract_reply e with
  | None => raise OracleError
  | Some text =>
      try_except
        (match json_loads text with
         | Some v => ret v
         | None => raise JSONDecodeError
         end)
        (fun _ => ret default_booking)
  end.

(** [call_data.get(call_sid, {})] followed by [data.get('booking_info', {})] *)
Definition booking_info_of (data : option call_record) : json :=
  match data with
  | Some d => match cd_booking_info d with Some b => b | None => JObj [] end
  | None => JObj []
  end.

(** [send_confirmation_sms] (lines 218-235) *)
Definition send_confirmation_sms (e : env) (call_sid : call_id) : M unit :=
  w <- get_world ;;
  let data := Dict.get call_sid (call_data w) in
  let booking_info := booking_info_of data in
  let caller := match data with Some d => Py.of_opt (cd_from d) | None => JNull end in
  customer_phone <- lift (Py.get booking_info "phone" caller) ;;
  if Py.truthy customer_phone && negb (Py.eq_str customer_phone "Not provided")
  then
    try_except
      (appointment_time <- lift (Py.get booking_info "appointment_time" JNull) ;;
       issue <- lift (Py.get booking_info "issue" JNull) ;;
       emit (SmsCreate call_sid customer_phone appointment_time issue (sms_delivered e)))
      (fun _ => ret tt)
  else ret tt.

(** [save_to_dashboard] (lines 237-261).  Both defaults of the two
    [data.get] calls read the clock, whether or not they are used. *)
Definition save_to_dashboard (e : env) (call_sid : call_id) : M unit :=
  w <- get_world ;;
  let data := Dict.get call_sid (call_data w) in
  let booking_info := booking_info_of data in
  let started := match data with Some d => cd_started_at d | None => clock e 0 end in
  let ended :=
    match data with
    | Some d => match cd_ended_at d with Some t => t | None => clock e 1 end
    | None => clock e 1
    end in
  let duration := ((ended - started) / 1000000)%Z in
  let is_emergency := match data with Some d => flagged d | None => false end in
  clientName <- lift (Py.get booking_info "name" (JStr "Unknown")) ;;
  phone <- lift (Py.get booking_info "phone"
             (match data with Some d => Py.of_opt (cd_from d) | None => JStr "Unknown" end)) ;;
  issue <- lift (Py.get booking_info "issue" (JStr "Not specified")) ;;
  extracted <- lift (Py.get booking_info "is_emergency" JNull) ;;
  appointmentTime <- lift (Py.get booking_info "appointment_time" (JStr "Not scheduled")) ;;
  emit (DashboardPrint call_sid
    {| db_clientName := clientName;
       db_phone := phone;
       db_issue := issue;
       db_urgency := if is_emergency || Py.eq_str extracted "yes"
                     then "emergency" else "normal";
       db_appointmentTime := appointmentTime;
       db_status := if is_emergency then "urgent" else "booked";
       db_duration := duration;
       db_transcript :=
         Text.join Text.newline
           (match data with Some d => cd_conversation d | None => [] end) |}).

(** [voice] (lines 103-141) *)
Definition voice (f : form) (e : env) : M (list verb) :=
  let from_number := f_From f in
  let call_sid := f_CallSid f in
  w <- get_world ;;
  (if negb (Dict.mem call_sid (conversations w))
   then
     conversation_assign call_sid [] ;;
     call_assign call_sid
       {| cd_from := from_number; cd_started_at := clock e 0;
          cd_conversation := []; cd_is_emergency := None;
          cd_status := None; cd_ended_at := None;
          cd_booking_info := None |}
   else ret tt) ;;
  ret [Gather greeting; Say no_input].

(** [process_speech] (lines 143-204) *)
Definition process_speech (f : form) (e : env) : M (list verb) :=
  let call_sid := f_CallSid f in
  let speech_result := match f_SpeechResult f with Some s => s | None => "" end in
  conversation_append call_sid (Message RUser speech_result) ;;
  call_update call_sid (append_line ("Customer: " +:+ speech_result)) ;;
  let is_emergency := detect_emergency speech_result in
  (if is_emergency then call_update call_sid set_is_emergency else ret tt) ;;
  history <- conversation_of call_sid ;;
  ai_response <- get_ai_response e history speech_result ;;
  conversation_append call_sid (Message RAssistant ai_response) ;;
  call_update call_sid (append_line ("Bot: " +:+ ai_response)) ;;
  history' <- conversation_of call_sid ;;
  let conversation_length := length history' in
  if (6 <=? conversation_length)%nat then
    data <- call_of call_sid ;;
    let conversation_text := Text.join Text.newline (cd_conversation data) in
    booking_info <- extract_booking_info e conversation_text ;;
    call_update call_sid (set_booking_info booking_info) ;;
    send_confirmation_sms e call_sid ;;
    save_to_dashboard e call_sid ;;
    ret [Say closing; Hangup]
  else
    ret [Gather ai_response].

(** [call_status] (lines 206-216); the value is the acknowledgement
    [{'status': 'ok'}]. *)
Definition call_status (f : form) (e : env) : M unit :=
  let call_sid := f_CallSid f in
  let status := f_CallStatus f in
  w <- get_world ;;
  if Dict.mem call_sid (call_data w)
  then call_update call_sid (set_status status (clock e 0))
  else ret tt.

(** One iteration of the loop of [get_calls]. *)
Definition call_entry_of (item : call_id * call_record) : exn + call_entry :=
  let (call_sid, data) := item in
  let booking_info := booking_info_of (Some data) in
  match Py.get booking_info "name" (JStr "Unknown") with
  | inl x => inl x
  | inr clientName =>
  match Py.get booking_info "phone" (Py.of_opt (cd_from data)) with
  | inl x => inl x
  | inr phone =>
  match Py.get booking_info "issue" (JStr "Not specified") with
  | inl x => inl x
  | inr issue =>
  match Py.get booking_info "appointment_time" (JStr "Not scheduled") with
  | inl x => inl x
  | inr appointmentTime =>
      inr {| ce_id := call_sid;
             ce_clientName := clientName;
             ce_phone := phone;
             ce_issue := issue;
             ce_urgency := if flagged data then "emergency" else "normal";
             ce_appointmentTime := appointmentTime;
             ce_status := match cd_status data with
                          | Some s => Py.of_opt s
                          | None => JStr "in-progress"
                          end;
             ce_timestamp := cd_started_at data;
             ce_transcript := Text.join Text.newline (cd_conversation data) |}
  end end end end.

Fixpoint call_entries (items : list (call_id * call_record)) : exn + list call_entry :=
  match items with
  | [] => inr []
  | item :: rest =>
      match call_entry_of item with
      | inl x => inl x
      | inr c =>
          match call_entries rest with
          | inl x => inl x
          | inr cs => inr (c :: cs)
          end
      end
  end.

(** [get_calls] (lines 267-284) *)
Definition get_calls : M (list call_entry) :=
  w <- get_world ;;
  lift (call_entries (call_data w)).

(** [health] (lines 286-289): the status is always 'healthy'; the value
    is the time stamp. *)
Definition health (e : env) : M Z := ret (clock e 0).

(** *** Requests, one after the other *)

Inductive endpoint : Type :=
  | EVoice | EProcessSpeech | ECallStatus | EGetCalls | EHealth.

Record request : Type := Request {
  rq_endpoint : endpoint;
  rq_form : form;
  rq_env : env
}.

Inductive reply : Type :=
  | RTwiml (verbs : list verb)
  | RAck
  | RCalls (calls : list call_entry)
  | RHealth (timestamp : Z).

Definition dispatch (r : request) : M reply :=
  match rq_endpoint r with
  | EVoice => v <- voice (rq_form r) (rq_env r) ;; ret (RTwiml v)
  | EProcessSpeech => v <- process_speech (rq_form r) (rq_env r) ;; ret (RTwiml v)
  | ECallStatus => call_status (rq_form r) (rq_env r) ;; ret RAck
  | EGetCalls => cs <- get_calls ;; ret (RCalls cs)
  | EHealth => t <- health (rq_env r) ;; ret (RHealth t)
  end.

(** The world after a request, whether the handler returned or raised
    (Flask answers 500 and the process goes on). *)
Definition handle (w : world) (r : request) : world := fst (dispatch r w).

Definition run (rs : list request) (w : world) : world := fold_left handle rs w.

End handlers.

#[global] Instance endpoint_eq_dec : EqDecision endpoint.
Proof. solve_decision. Defined.

(** ** Vocabulary of the properties *)

(** [p] occurs in [s]: [s] is some text, then [p], then some text. *)
Definition occurs_in (p s : list N) : Prop :=
  exists pre post, s = pre ++ p ++ post.

(** The small and the final sigma taken for one letter. *)
Definition fold_sigma (s : list N) : list N :=
  map (fun c => if (c =? 0x3C2)%N then 0x3C3%N else c) s.

(** [str.lower()] without the context of a capital sigma: it becomes the
    small sigma. *)
Definition lower_plain (s : list N) : list N :=
  flat_map (fun c => if (c =? 0x3A3)%N then [0x3C3%N] else Text.to_lower_full c) s.

(** A phrase of ASCII letters and blanks that does not end in i. *)
Definition plain_phrase (p : list N) : bool :=
  forallb (fun c => (c <? 0x80)%N) p && negb (N.eqb (List.last p 0%N) 0x69%N).

(** What one code point contributes to the lower case, sigmas folded. *)
Definition lowered (c : N) : list N :=
  fold_sigma (if (c =? 0x3A3)%N then [0x3C3%N] else Text.to_lower_full c).

(** The keys of a dictionary, as a set. *)
Definition dict_dom {K V : Type} `{Countable K} (d : list (K * V)) : gset K :=
  list_to_set (Dict.keys d).

(** No key is added to or removed from either store, in either order. *)
Definition same_keys (w w' : world) : Prop :=
  Dict.keys (conversations w') = Dict.keys (conversations w) /\
  Dict.keys (call_data w') = Dict.keys (call_data w).

(** The two stores know the same calls. *)
Definition same_calls (w : world) : Prop :=
  dict_dom (conversations w) = dict_dom (call_data w).

(** The emergency flag of a call: [call_data[call_sid].get('is_emergency')]
    read as a condition, false for a call that is not stored. *)
Definition flag_of (call_sid : call_id) (w : world) : bool :=
  match Dict.get call_sid (call_data w) with
  | Some d => flagged d
  | None => false
  end.

(** The session of a call: its entries in the two stores. *)
Definition session_of (call_sid : call_id) (w : world)
    : option (list message) * option call_record :=
  (Dict.get call_sid (conversations w), Dict.get call_sid (call_data w)).

(** The flag of a call, once set, is set afterwards. *)
Definition keeps_flag (call_sid : call_id) (w w' : world) : Prop :=
  flag_of call_sid w = true -> flag_of call_sid w' = true.

(** The session of a call is the same before and after. *)
Definition session_kept (call_sid : call_id) (w w' : world) : Prop :=
  session_of call_sid w' = session_of call_sid w.

(** The world with some more calls made to the collaborators. *)
Definition with_effects (w : world) (more : list effect) : world :=
  {| conversations := conversations w;
     call_data := call_data w;
     effects := effects w ++ more |}.

(** The calls made to the collaborators between [w] and a later [w']. *)
Definition new_effects (w w' : world) : list effect :=
  skipn (length (effects w)) (effects w').

(** What only the termination branch of [process_speech] does: the
    extraction, the SMS, the dashboard record. *)
Definition is_termination_action (ev : effect) : bool :=
  match ev with
  | ChatCompletion _ => false
  | ExtractCompletion _ | SmsCreate _ _ _ _ _ | DashboardPrint _ _ => true
  end.

Definition is_sms (call_sid : call_id) (ev : effect) : bool :=
  match ev with
  | SmsCreate c _ _ _ _ => bool_decide (c = call_sid)
  | _ => false
  end.

Definition is_publication (call_sid : call_id) (ev : effect) : bool :=
  match ev with
  | DashboardPrint c _ => bool_decide (c = call_sid)
  | _ => false
  end.

(** How many SMS were handed to the SMS client for a call, and how many
    dashboard records were published for it. *)
Definition sms_dispatches (call_sid : call_id) (w : world) : nat :=
  length (List.filter (is_sms call_sid) (effects w)).

Definition publications (call_sid : call_id) (w : world) : nat :=
  length (List.filter (is_publication call_sid) (effects w)).

(** A computation makes at most [n] more of the calls that [counted]
    selects, whether it returns or raises. *)
Definition at_most (counted : effect -> bool) (n : nat) {A} (m : M A) : Prop :=
  forall w,
    length (List.filter counted (effects (fst (m w))))
      <= length (List.filter counted (effects w)) + n.

(** A computation keeps a relation between the world before and after it,
    whether it returns or raises. *)
Definition preserves (R : world -> world -> Prop) {A} (m : M A) : Prop :=
  forall w, R w (fst (m w)).

(** The four ways a handler rewrites the record of a call. *)
Inductive updater : (call_record -> call_record) -> Prop :=
  | updater_line line : updater (append_line line)
  | updater_flag : updater set_is_emergency
  | updater_booking b : updater (set_booking_info b)
  | updater_status s now : updater (set_status s now).

(** The record of a call after the caller's utterance and the reply of
    the chat oracle were taken in (lines 152-163). *)
Definition after_turn (speech_result ai_response : string) (d : call_record)
    : call_record :=
  let d1 := append_line ("Customer: " +:+ speech_result) d in
  let d2 := if detect_emergency speech_result then set_is_emergency d1 else d1 in
  append_line ("Bot: " +:+ ai_response) d2.

(** The destination [send_confirmation_sms] computes from a booking record
    that is a dict, and whether it passes the guard of line 225. *)
Definition destination (fields : list (string * json)) (caller : json) : json :=
  match Py.assoc "phone" fields with
  | Some extracted => extracted
  | None => caller
  end.

Definition usable (phone : json) : bool :=
  Py.truthy phone && negb (Py.eq_str phone "Not provided").

(** The caller's number as [send_confirmation_sms] reads it:
    [call_data.get(call_sid, {}).get('from')]. *)
Definition caller_of (data : option call_record) : json :=
  match data with
  | Some d => Py.of_opt (cd_from d)
  | None => JNull
  end.

(** What [extract_booking_info] returns for a reply of the oracle. *)
Definition booking_of (json_loads : string -> option json) (text : string) : json :=
  match json_loads text with
  | Some v => v
  | None => default_booking
  end.

(** ["\n".join(call_data[call_sid]['conversation'])] *)
Definition transcript_of (d : call_record) : string :=
  Text.join Text.newline (cd_conversation d).

(** The termination branch of [process_speech] (lines 169-190), as the
    computation it is once the turn count was checked. *)
Definition wrap_up (json_loads : string -> option json) (e : env)
    (call_sid : call_id) : M (list verb) :=
  data <- call_of call_sid ;;
  booking_info <- extract_booking_info json_loads e
                    (Text.join Text.newline (cd_conversation data)) ;;
  call_update call_sid (set_booking_info booking_info) ;;
  send_confirmation_sms e call_sid ;;
  save_to_dashboard e call_sid ;;
  ret [Say closing; Hangup].

(** The messages [get_ai_response] sends for a history and an utterance. *)
Definition chat_messages (h : list message) (speech_result : string) : list message :=
  [Message RSystem system_prompt] ++ (h ++ [Message RUser speech_result])
    ++ [Message RUser speech_result].

(** Every booking record in [call_data] is a dict (a call without one
    counts: [data.get('booking_info', {})] is the empty dict). *)
Definition bookings_are_dicts (w : world) : Prop :=
  Forall (fun item => exists fields, booking_info_of (Some (snd item)) = JObj fields)
    (call_data w).

(** At most one SMS and at most one dashboard record for a call. *)
Definition at_most_once (call_sid : call_id) (w : world) : Prop :=
  sms_dispatches call_sid w <= 1 /\ publications call_sid w <= 1.

(** The record's emergency field says what the session's flag says. *)
Definition booking_reflects_flag (d : call_record) : Prop :=
  forall b, cd_booking_info d = Some b ->
    (Py.get b "is_emergency" JNull = inr (JStr "yes") <-> flagged d = true).

(** ** Vocabulary of the further properties *)

(** The record of a call after the caller's utterance was taken in and
    before the chat oracle is asked (lines 152-158). *)
Definition after_utterance (speech_result : string) (d : call_record) : call_record :=
  let d1 := append_line ("Customer: " +:+ speech_result) d in
  if detect_emergency speech_result then set_is_emergency d1 else d1.

(** The world in which [process_speech] asks the chat oracle. *)
Definition asking (call_sid : call_id) (speech_result : string)
    (h : list message) (d : call_record) (w : world) : world :=
  {| conversations :=
       Dict.set call_sid (h ++ [Message RUser speech_result]) (conversations w);
     call_data := Dict.set call_sid (after_utterance speech_result d) (call_data w);
     effects := effects w ++ [ChatCompletion (chat_messages h speech_result)] |}.

(** The replies stored for one request: the reply of the chat oracle, or
    nothing when the oracle failed. *)
Definition replies (e : env) : list string :=
  match chat_reply e with Some r => [r] | None => [] end.

(** A stored message and the line of the transcript written with it:
    "Customer: ..." with the caller's turn, "Bot: ..." with the system's. *)
Inductive renders : message -> string -> Prop :=
  | renders_user s : renders (Message RUser s) ("Customer: " +:+ s)
  | renders_assistant r : renders (Message RAssistant r) ("Bot: " +:+ r).

(** The transcript of every call is its message history, line by line. *)
Definition in_step (w : world) : Prop :=
  forall call_sid h d,
    Dict.get call_sid (conversations w) = Some h ->
    Dict.get call_sid (call_data w) = Some d ->
    Forall2 renders h (cd_conversation d).

(** A later world has, for a call, the history and the transcript of an
    earlier one with more at the end, and the same caller and start. *)
Definition grows (call_sid : call_id) (w w' : world) : Prop :=
  (forall h, Dict.get call_sid (conversations w) = Some h ->
     exists h', Dict.get call_sid (conversations w') = Some h' /\ h `prefix_of` h') /\
  (forall d, Dict.get call_sid (call_data w) = Some d ->
     exists d', Dict.get call_sid (call_data w') = Some d' /\
       cd_conversation d `prefix_of` cd_conversation d' /\
       cd_from d' = cd_from d /\ cd_started_at d' = cd_started_at d /\
       (flagged d = true -> flagged d' = true)).

(** The record [voice] creates, and the entry [get_calls] lists for it. *)
Definition new_call (from_number : option string) (now : Z) : call_record :=
  {| cd_from := from_number; cd_started_at := now;
     cd_conversation := []; cd_is_emergency := None;
     cd_status := None; cd_ended_at := None;
     cd_booking_info := None |}.

Definition new_call_entry (call_sid : call_id) (from_number : option string)
    (now : Z) : call_entry :=
  {| ce_id := call_sid;
     ce_clientName := JStr "Unknown";
     ce_phone := Py.of_opt from_number;
     ce_issue := JStr "Not specified";
     ce_urgency := "normal";
     ce_appointmentTime := JStr "Not scheduled";
     ce_status := JStr "in-progress";
     ce_timestamp := now;
     ce_transcript := "" |}.

(** An entry of the listing shows a stored call. *)
Definition lists (item : call_id * call_record) (c : call_entry) : Prop :=
  ce_id c = fst item /\
  (ce_urgency c = "emergency" <-> flagged (snd item) = true) /\
  (ce_urgency c = "emergency" \/ ce_urgency c = "normal") /\
  ce_status c = match cd_status (snd item) with
                | Some s => Py.of_opt s
                | None => JStr "in-progress"
                end /\
  ce_timestamp c = cd_started_at (snd item) /\
  ce_transcript c = transcript_of (snd item).

(** The outcomes of [process_speech] for a stored call. *)
Definition stored_call_outcome (e : env) (res : exn + list verb) : Prop :=
  res = inl OracleError \/ res = inl AttributeError \/
  (exists r, chat_reply e = Some r /\ res = inr [Gather r]) \/
  res = inr [Say closing; Hangup].

(** An SMS in the trace went to a number that passes the guard of
    line 225. *)
Definition sms_guarded (ev : effect) : Prop :=
  match ev with
  | SmsCreate _ to _ _ _ => usable to = true
  | _ => True
  end.

(** The code points the table of lower cases maps, entry by entry. *)
Definition mapped_by (r : N * N * N * N) : list N :=
  let '(lo, hi, step, _) := r in
  map (fun k => (lo + N.of_nat k * step)%N)
    (seq 0 (S (N.to_nat ((hi - lo) / step)))).

Definition mapped_points : list N := flat_map mapped_by Text.lower_ranges.

(** A code point that [str.lower()] leaves as it is: it is its own lower
    case, and it is neither the capital sigma nor U+0130. *)
Definition settled (x : N) : bool :=
  negb (x =? 0x3A3)%N && negb (x =? 0x130)%N && (Text.to_lower x =? x)%N.

(** ** Sample data

    A parser that knows one text.  It agrees with [json.loads] on the
    empty object and on every text that is not JSON, which are the only
    texts it is applied to below. *)
Definition loads_empty_object (text : string) : option json :=
  if String.eqb text "{}" then Some (JObj []) else None.

Definition sample_form (speech : string) : form :=
  {| f_From := Some "+441234567890"; f_CallSid := Some "CA123";
     f_SpeechResult := Some speech; f_CallStatus := Some "completed" |}.

(** The chat oracle asks for the name; the extraction oracle answers
    [extraction]; the clock ticks one second per reading. *)
Definition sample_env (extraction : string) : env :=
  {| clock := fun n => (1000000 * Z.of_nat n)%Z;
     chat_reply := Some "Could I take your name, please?";
     extract_reply := Some extraction;
     sms_delivered := true |}.

Definition sample_request (ep : endpoint) (speech extraction : string) : request :=
  {| rq_endpoint := ep; rq_form := sample_form speech;
     rq_env := sample_env extraction |}.

(** A call of three exchanges; the extraction oracle answers with the
    empty object the third time. *)
Definition sample_call : list request :=
  [sample_request EVoice "" "";
   sample_request EProcessSpeech "I have a burst pipe!" "{}";
   sample_request EProcessSpeech "Bob Smith" "{}";
   sample_request EProcessSpeech "12 High Street" "{}"].

(** The same call, with an extraction answer that is not JSON. *)
Definition sample_call_unparsed : list request :=
  [sample_request EVoice "" "";
   sample_request EProcessSpeech "I have a burst pipe!" "{}";
   sample_request EProcessSpeech "Bob Smith" "{}";
   sample_request EProcessSpeech "12 High Street" "I could not find the details."].

(** The last utterance event of [sample_call] delivered a second time. *)
Definition duplicate_trigger : request :=
  sample_request EProcessSpeech "12 High Street" "{}".

(** A session whose booking record has a phone number that is not the
    number the call came from. *)
Definition booked_fields : list (string * json) :=
  [("name", JStr "Bob Smith");
   ("phone", JStr "+447700900123");
   ("address", JStr "12 High Street");
   ("issue", JStr "burst pipe");
   ("appointment_time", JStr "tomorrow 9am");
   ("is_emergency", JStr "yes")].

Definition booked_world : world :=
  {| conversations := [(Some "CA123", [])];
     call_data :=
       [(Some "CA123",
         {| cd_from := Some "+441234567890"; cd_started_at := 0;
            cd_conversation := []; cd_is_emergency := Some true;
            cd_status := None; cd_ended_at := None;
            cd_booking_info := Some (JObj booked_fields) |})];
     effects := [] |}.

(** The sample call up to its second exchange: four turns are stored. *)
Definition two_exchanges : world :=
  run loads_empty_object
    [sample_request EVoice "" "";
     sample_request EProcessSpeech "I have a burst pipe!" "{}";
     sample_request EProcessSpeech "Bob Smith" "{}"]
    initial_world.

(** The sample call after its first exchange: the caller said "burst". *)
Definition one_exchange : world :=
  run loads_empty_object
    [sample_request EVoice "" "";
     sample_request EProcessSpeech "I have a burst pipe!" "{}"]
    initial_world.

(** The whole sample call, and the sample call with its last utterance
    event delivered twice. *)
Definition completed_call : world :=
  run loads_empty_object sample_call initial_world.

Definition duplicated_call : world :=
  run loads_empty_object (sample_call ++ [duplicate_trigger]) initial_world.

(** The sample call when the extraction answer was not JSON. *)
Definition unparsed_call : world :=
  run loads_empty_object sample_call_unparsed initial_world.

(** A request for CA999, a call that never started. *)
Definition unknown_form : form :=
  {| f_From := Some "+441234567890"; f_CallSid := Some "CA999";
     f_SpeechResult := Some "hello"; f_CallStatus := Some "completed" |}.


Definition other_start : form :=
  {| f_From := Some "+445555555555"; f_CallSid := Some "CA456";
     f_SpeechResult := None; f_CallStatus := None |}.

Definition started_call : world :=
  fst (voice (sample_form "") (sample_env "") initial_world).

(** A parser that knows the text null.  It agrees with [json.loads] on
    that text and on every text that is not JSON. *)
Definition loads_null (text : string) : option json :=
  if String.eqb text "null" then Some JNull else None.

(** Two status callbacks for CA123. *)
Definition ringing_form : form :=
  {| f_From := None; f_CallSid := Some "CA123";
     f_SpeechResult := None; f_CallStatus := Some "ringing" |}.

Definition completed_form : form :=
  {| f_From := None; f_CallSid := Some "CA123";
     f_SpeechResult := None; f_CallStatus := Some "completed" |}.

(** * Properties *)

(** ** Text *)

Local Open Scope N_scope.

Lemma startswith_spec (p s : list N) :
  Text.startswith p s = true <-> exists post, s = p ++ post.
Proof.
  revert s. induction p as [|a p IH]; intros s; simpl.
  - split; [intros _; now exists s | reflexivity].
  - destruct s as [|b s].
    + split; [discriminate | intros [post H]; discriminate].
    + rewrite andb_true_iff, N.eqb_eq, IH. split.
      * intros [-> [post ->]]. now exists post.
      * intros [post H]. injection H as -> ->. split; [reflexivity | now exists post].
Qed.

Lemma contains_spec (p s : list N) :
  Text.contains p s = true <-> occurs_in p s.
Proof.
  unfold occurs_in. induction s as [|c s IH]; simpl.
  - rewrite orb_false_r, startswith_spec. split.
    + intros [post H]. now exists [], post.
    + intros [[|c pre] [post H]]; [now exists post | discriminate].
  - rewrite orb_true_iff, startswith_spec, IH. split.
    + intros [[post H] | [pre [post H]]].
      * now exists [], post.
      * exists (c :: pre), post. simpl. now rewrite H.
    + intros [[|c' pre] [post H]].
      * left. now exists post.
      * right. simpl in H. injection H as -> ->. now exists pre, post.
Qed.

Lemma contains_app (p a l b : list N) :
  Text.contains p l = true -> Text.contains p (a ++ l ++ b) = true.
Proof.
  rewrite !contains_spec. intros (pre & post & ->).
  exists (a ++ pre), (post ++ b). now rewrite <- !app_assoc.
Qed.

(** *** Texts and their UTF-8 bytes *)

Lemma code_points_unfold (a : ascii) (s1 : string) :
  Text.code_points (String a s1) =
    let x := N_of_ascii a in
    match s1 with
    | EmptyString => [x]
    | String b s2 =>
        let y := N_of_ascii b in
        if Text.two x y then Text.point2 x y :: Text.code_points s2 else
        match s2 with
        | EmptyString => x :: Text.code_points s1
        | String c s3 =>
            let z := N_of_ascii c in
            if Text.three x y z then Text.point3 x y z :: Text.code_points s3 else
            match s3 with
            | EmptyString => x :: Text.code_points s1
            | String d s4 =>
                let t := N_of_ascii d in
                if Text.four x y z t then Text.point4 x y z t :: Text.code_points s4
                else x :: Text.code_points s1
            end
        end
    end.
Proof. destruct s1; reflexivity. Qed.

Lemma two_lead (x y : N) : x < 0xC2 \/ 0xDF < x -> Text.two x y = false.
Proof.
  intros H. unfold Text.two.
  destruct (0xC2 <=? x) eqn:H1; [|reflexivity].
  destruct (x <=? 0xDF) eqn:H2; [|reflexivity].
  apply N.leb_le in H1, H2. lia.
Qed.

Lemma three_lead (x y z : N) : x < 0xE0 \/ 0xEF < x -> Text.three x y z = false.
Proof.
  intros H. unfold Text.three.
  destruct (0xE0 <=? x) eqn:H1; [|reflexivity].
  destruct (x <=? 0xEF) eqn:H2; [|reflexivity].
  apply N.leb_le in H1, H2. lia.
Qed.

Lemma four_lead (x y z t : N) : x < 0xF0 -> Text.four x y z t = false.
Proof.
  intros H. unfold Text.four.
  destruct (0xF0 <=? x) eqn:H1; [|reflexivity].
  apply N.leb_le in H1. lia.
Qed.

(** A byte that is no lead byte of a longer sequence is a code point. *)
Lemma code_points_byte (a : ascii) (s : string) :
  N_of_ascii a < 0xC2 ->
  Text.code_points (String a s) = N_of_ascii a :: Text.code_points s.
Proof.
  intros H. rewrite code_points_unfold. cbv zeta.
  destruct s as [|b s2]; [reflexivity|].
  rewrite two_lead by lia.
  destruct s2 as [|c s3]; [reflexivity|].
  rewrite three_lead by lia.
  destruct s3 as [|d s4]; [reflexivity|].
  now rewrite four_lead by lia.
Qed.

Lemma continuation_spec (b : N) :
  Text.continuation b = true <-> 0x80 <= b <= 0xBF.
Proof. unfold Text.continuation. rewrite andb_true_iff, !N.leb_le. tauto. Qed.

Lemma byte_embedding (n : N) : n < 256 -> N_of_ascii (ascii_of_N n) = n.
Proof. apply N_ascii_embedding. Qed.

Lemma append_cons (a : ascii) (t s : string) :
  String a t +:+ s = String a (t +:+ s).
Proof. reflexivity. Qed.

Lemma append_empty (s : string) : EmptyString +:+ s = s.
Proof. reflexivity. Qed.

(** The bytes of a code point are read back as that code point. *)
Lemma code_points_utf8_point (c : N) (s : string) :
  c < 0x110000 ->
  Text.code_points (Text.utf8_point c +:+ s) = c :: Text.code_points s.
Proof.
  intros Hc. unfold Text.utf8_point.
  pose proof (N.div_mod' c 64) as D1.
  pose proof (N.mod_lt c 64 ltac:(discriminate)) as M1.
  pose proof (N.div_mod' (c / 64) 64) as D2.
  pose proof (N.mod_lt (c / 64) 64 ltac:(discriminate)) as M2.
  pose proof (N.div_mod' (c / 64 / 64) 64) as D3.
  pose proof (N.mod_lt (c / 64 / 64) 64 ltac:(discriminate)) as M3.
  assert (E2 : c / 4096 = c / 64 / 64) by now rewrite N.Div0.div_div.
  assert (E3 : c / 262144 = c / 64 / 64 / 64) by now rewrite !N.Div0.div_div.
  rewrite E2, E3. clear E2 E3.
  revert D1 M1 D2 M2 D3 M3.
  generalize (c mod 64) ((c / 64) mod 64) ((c / 64 / 64) mod 64).
  generalize (c / 64 / 64 / 64). generalize (c / 64 / 64). generalize (c / 64).
  intros q1 q2 q3 r1 r2 r3 D1 M1 D2 M2 D3 M3.
  destruct (c <? 0x80) eqn:H1; [|destruct (c <? 0x800) eqn:H2;
    [|destruct (c <? 0x10000) eqn:H3]];
    rewrite ?N.ltb_lt, ?N.ltb_ge in *.
  - rewrite !append_cons, append_empty. rewrite code_points_byte; rewrite byte_embedding; try lia.
    reflexivity.
  - rewrite !append_cons, append_empty. rewrite code_points_unfold. cbv zeta.
    rewrite !byte_embedding by lia.
    assert (Ht : Text.two (0xC0 + q1) (0x80 + r1) = true).
    { unfold Text.two. rewrite !andb_true_iff, continuation_spec, !N.leb_le. lia. }
    rewrite Ht. f_equal. unfold Text.point2. lia.
  - rewrite !append_cons, append_empty. rewrite code_points_unfold. cbv zeta.
    rewrite !byte_embedding by lia.
    rewrite two_lead by lia.
    assert (Ht : Text.three (0xE0 + q2) (0x80 + r2) (0x80 + r1) = true).
    { unfold Text.three, Text.point3.
      rewrite !andb_true_iff, !continuation_spec, !N.leb_le. lia. }
    rewrite Ht. f_equal. unfold Text.point3. lia.
  - rewrite !append_cons, append_empty. rewrite code_points_unfold. cbv zeta.
    rewrite !byte_embedding by lia.
    rewrite two_lead by lia. rewrite three_lead by lia.
    assert (Ht : Text.four (0xF0 + q3) (0x80 + r3) (0x80 + r2) (0x80 + r1) = true).
    { unfold Text.four, Text.point4.
      rewrite !andb_true_iff, !continuation_spec, !N.leb_le, N.ltb_lt. lia. }
    rewrite Ht. f_equal. unfold Text.point4. lia.
Qed.

(** Every text is the reading of its UTF-8 bytes: a sequence of code
    points below 0x110000 is what [code_points] gives for its bytes. *)
Lemma code_points_utf8 (points : list N) :
  Forall (fun c => c < 0x110000) points ->
  Text.code_points (Text.utf8 points) = points.
Proof.
  induction 1 as [|c points Hc _ IH]; simpl; [reflexivity|].
  now rewrite code_points_utf8_point, IH.
Qed.

(** *** The capital sigma and its context *)

Lemma fold_sigma_app (a b : list N) :
  fold_sigma (a ++ b) = fold_sigma a ++ fold_sigma b.
Proof. apply map_app. Qed.

(** Up to the two sigmas, the context plays no part. *)
Lemma fold_sigma_lower_from (before s : list N) :
  fold_sigma (Text.lower_from before s) = fold_sigma (lower_plain s).
Proof.
  revert before. induction s as [|c s IH]; intros before; simpl; [reflexivity|].
  rewrite !fold_sigma_app, IH. f_equal.
  destruct (c =? 0x3A3); [|reflexivity].
  now destruct (Text.final_sigma before s).
Qed.

Lemma lower_plain_app (a b : list N) :
  lower_plain (a ++ b) = lower_plain a ++ lower_plain b.
Proof. apply flat_map_app. Qed.

Lemma ascii_not_sigma (a : N) :
  (a <? 0x80) = true -> (a =? 0x3C2) = false /\ (a =? 0x3C3) = false.
Proof. rewrite N.ltb_lt, !N.eqb_neq. lia. Qed.

Lemma fold_sigma_ascii (p : list N) :
  forallb (fun c => c <? 0x80) p = true -> fold_sigma p = p.
Proof.
  induction p as [|a p IH]; simpl; [reflexivity|].
  rewrite andb_true_iff. intros [Ha Hp].
  destruct (ascii_not_sigma a Ha) as [-> _]. now rewrite IH.
Qed.

Lemma fold_sigma_ascii_inv (l p : list N) :
  forallb (fun c => c <? 0x80) p = true -> fold_sigma l = p -> l = p.
Proof.
  revert p. induction l as [|b l IH]; intros [|a p]; simpl; try discriminate;
    [reflexivity|].
  rewrite andb_true_iff. intros [Ha Hp] [= Hb Hl].
  destruct (ascii_not_sigma a Ha) as [_ Hs].
  f_equal; [|now apply IH].
  destruct (b =? 0x3C2); [|exact Hb].
  subst a. discriminate.
Qed.

Lemma startswith_fold_sigma (p l : list N) :
  forallb (fun c => c <? 0x80) p = true ->
  Text.startswith p (fold_sigma l) = Text.startswith p l.
Proof.
  revert l. induction p as [|a p IH]; intros l; simpl; [reflexivity|].
  rewrite andb_true_iff. intros [Ha Hp].
  destruct l as [|b l]; simpl; [reflexivity|].
  rewrite (IH l Hp). f_equal.
  destruct (ascii_not_sigma a Ha) as [H2 H3].
  destruct (b =? 0x3C2) eqn:Hb; [|reflexivity].
  apply N.eqb_eq in Hb. subst b. now rewrite H2, H3.
Qed.

Lemma contains_fold_sigma (p l : list N) :
  forallb (fun c => c <? 0x80) p = true ->
  Text.contains p (fold_sigma l) = Text.contains p l.
Proof.
  intros Hp. induction l as [|b l IH].
  - reflexivity.
  - change (fold_sigma (b :: l)) with (fold_sigma [b] ++ fold_sigma l).
    cbn [Text.contains app fold_sigma map].
    change (map (fun c => if c =? 0x3C2 then 0x3C3 else c) l) with (fold_sigma l).
    rewrite IH. f_equal.
    exact (startswith_fold_sigma p (b :: l) Hp).
Qed.

(** *** A trigger phrase in the lower case of a text comes from a stretch
    of the text *)

Lemma fold_sigma_lower_plain (s : list N) :
  fold_sigma (lower_plain s) = flat_map lowered s.
Proof.
  induction s as [|c s IH]; simpl; [reflexivity|].
  now rewrite fold_sigma_app, IH.
Qed.

Lemma lowered_shape (c : N) :
  (exists k, lowered c = [k]) \/ lowered c = [0x69; 0x307].
Proof.
  unfold lowered, Text.to_lower_full.
  destruct (c =? 0x3A3); [left; eauto|].
  destruct (c =? 0x130); [now right | left; simpl; eauto].
Qed.

Lemma plain_phrase_tail (a : N) (p : list N) :
  plain_phrase (a :: p) = true -> (a <? 0x80) = true /\ plain_phrase p = true.
Proof.
  unfold plain_phrase. simpl forallb. rewrite !andb_true_iff.
  intros [[Ha Hp] Hl]. split; [exact Ha|]. split; [exact Hp|].
  destruct p as [|b p]; [reflexivity | exact Hl].
Qed.

Lemma plain_phrase_ascii (p : list N) :
  plain_phrase p = true -> forallb (fun c => c <? 0x80) p = true.
Proof. unfold plain_phrase. rewrite andb_true_iff. tauto. Qed.

Lemma startswith_aligned (p s : list N) :
  plain_phrase p = true ->
  Text.startswith p (flat_map lowered s) = true ->
  exists hit post, s = hit ++ post /\ flat_map lowered hit = p.
Proof.
  revert s. induction p as [|a p IH]; intros s Hp Hs.
  - now exists [], s.
  - destruct (plain_phrase_tail a p Hp) as [Ha Hp'].
    destruct s as [|c rest]; [discriminate|].
    simpl in Hs. destruct (lowered_shape c) as [[k Hk]|Hk]; rewrite Hk in Hs.
    + simpl in Hs. apply andb_true_iff in Hs as [Hak Hs].
      apply N.eqb_eq in Hak. subst k.
      destruct (IH rest Hp' Hs) as (hit & post & -> & Hhit).
      exists (c :: hit), post. split; [reflexivity|].
      simpl. now rewrite Hk, Hhit.
    + simpl in Hs. apply andb_true_iff in Hs as [Hak Hs].
      apply N.eqb_eq in Hak. subst a.
      destruct p as [|b p].
      * unfold plain_phrase in Hp. simpl in Hp. discriminate.
      * simpl in Hs. apply andb_true_iff in Hs as [Hb _].
        apply N.eqb_eq in Hb. subst b.
        destruct (plain_phrase_tail _ _ Hp') as [Hb _]. discriminate.
Qed.

Lemma contains_aligned (p s : list N) :
  plain_phrase p = true ->
  Text.contains p (flat_map lowered s) = true ->
  exists pre hit post, s = pre ++ hit ++ post /\ flat_map lowered hit = p.
Proof.
  intros Hp. induction s as [|c rest IH]; intros Hs.
  - simpl in Hs. rewrite orb_false_r in Hs.
    destruct p; [|discriminate]. now exists [], [], [].
  - assert (Hstart : Text.startswith p (flat_map lowered (c :: rest)) = true ->
              exists pre hit post,
                c :: rest = pre ++ hit ++ post /\ flat_map lowered hit = p).
    { intros H. destruct (startswith_aligned p _ Hp H) as (hit & post & Hsplit & Hhit).
      now exists [], hit, post. }
    assert (Hrest : Text.contains p (flat_map lowered rest) = true ->
              exists pre hit post,
                c :: rest = pre ++ hit ++ post /\ flat_map lowered hit = p).
    { intros H. destruct (IH H) as (pre & hit & post & -> & Hhit).
      now exists (c :: pre), hit, post. }
    change (flat_map lowered (c :: rest)) with (lowered c ++ flat_map lowered rest) in *.
    destruct (lowered_shape c) as [[k Hk]|Hk]; rewrite Hk in *.
    + simpl in Hs. apply orb_true_iff in Hs as [Hs|Hs]; [now apply Hstart|].
      now apply Hrest.
    + simpl in Hs. apply orb_true_iff in Hs as [Hs|Hs]; [now apply Hstart|].
      apply orb_true_iff in Hs as [Hs|Hs]; [|now apply Hrest].
      destruct p as [|a p]; [now exists [], [], (c :: rest)|].
      destruct (plain_phrase_tail a p Hp) as [Ha _].
      apply andb_true_iff in Hs as [Hak _]. apply N.eqb_eq in Hak. subst a.
      discriminate.
Qed.

(** The lower case of a stretch of the text, taken alone. *)
Lemma lower_of_aligned (hit p : list N) :
  plain_phrase p = true -> flat_map lowered hit = p -> Text.lower hit = p.
Proof.
  intros Hp Hhit. apply fold_sigma_ascii_inv; [now apply plain_phrase_ascii|].
  unfold Text.lower. now rewrite fold_sigma_lower_from, fold_sigma_lower_plain.
Qed.

Lemma keywords_plain (keyword : string) :
  In keyword EMERGENCY_KEYWORDS ->
  plain_phrase (Text.code_points keyword) = true.
Proof.
  assert (H : forallb (fun k => plain_phrase (Text.code_points k))
                EMERGENCY_KEYWORDS = true) by (vm_compute; reflexivity).
  rewrite forallb_forall in H. exact (H keyword).
Qed.

Lemma detect_emergency_iff (text : list N) :
  detect_emergency_points text = true <->
  exists keyword,
    In keyword EMERGENCY_KEYWORDS /\
    occurs_in (Text.code_points keyword) (Text.lower text).
Proof.
  unfold detect_emergency_points. rewrite existsb_exists.
  split; intros (k & Hk & H); exists k; (split; [exact Hk|]); now apply contains_spec.
Qed.

(** The lower case of a text contains a trigger phrase exactly when the
    lower case of the text without the sigma rule does. *)
Lemma contains_lower_plain (keyword : string) (before text : list N) :
  In keyword EMERGENCY_KEYWORDS ->
  Text.contains (Text.code_points keyword) (Text.lower_from before text)
    = Text.contains (Text.code_points keyword) (flat_map lowered text).
Proof.
  intros Hk.
  pose proof (plain_phrase_ascii _ (keywords_plain keyword Hk)) as Ha.
  rewrite <- (contains_fold_sigma _ (Text.lower_from before text) Ha).
  now rewrite fold_sigma_lower_from, fold_sigma_lower_plain.
Qed.

Lemma detect_emergency_lowered (text : list N) :
  detect_emergency_points text
    = existsb (fun keyword =>
                 Text.contains (Text.code_points keyword) (flat_map lowered text))
        EMERGENCY_KEYWORDS.
Proof.
  unfold detect_emergency_points, Text.lower. cbv zeta.
  apply eq_true_iff_eq. rewrite !existsb_exists.
  split; intros (k & Hk & H); exists k; (split; [exact Hk|]).
  - now rewrite <- (contains_lower_plain k [] text Hk).
  - now rewrite (contains_lower_plain k [] text Hk).
Qed.

(** C3.  The emergency classifier answers true exactly when the lower case
    of the utterance, as [str.lower()] gives it, contains one of the six
    trigger phrases.  So it answers true for an utterance in which a
    trigger phrase occurs in any letter-casing (a stretch of the utterance
    whose lower case is the phrase: capitals, small letters, or a code
    point such as the Kelvin sign that lowers to a letter), and false for
    an utterance in which none occurs in any casing.  The classifier is a
    function of the code points of the utterance alone, and the utterance
    may be any sequence of code points. *)
Theorem detect_emergency_spec :
  EMERGENCY_KEYWORDS =
    ["burst"; "flooding"; "leak"; "emergency"; "urgent"; "water everywhere"]%string /\
  (forall text : string,
     detect_emergency text = detect_emergency_points (Text.code_points text)) /\
  (forall text : list N,
     detect_emergency_points text = true <->
     exists keyword,
       In keyword EMERGENCY_KEYWORDS /\
       occurs_in (Text.code_points keyword) (Text.lower text)) /\
  (forall (text : list N) keyword pre hit post,
     In keyword EMERGENCY_KEYWORDS ->
     Text.lower hit = Text.code_points keyword ->
     text = pre ++ hit ++ post ->
     detect_emergency_points text = true) /\
  (forall text : list N,
     (forall keyword pre hit post,
        In keyword EMERGENCY_KEYWORDS ->
        text = pre ++ hit ++ post ->
        Text.lower hit <> Text.code_points keyword) ->
     detect_emergency_points text = false).
Proof.
  split; [reflexivity|]. split; [reflexivity|].
  split; [exact detect_emergency_iff|]. split.
  - intros text keyword pre hit post Hk Hhit ->.
    rewrite detect_emergency_lowered. apply existsb_exists.
    exists keyword. split; [exact Hk|].
    rewrite !flat_map_app. apply contains_app.
    pose proof (plain_phrase_ascii _ (keywords_plain keyword Hk)) as Ha.
    assert (Hl : flat_map lowered hit = Text.code_points keyword).
    { rewrite <- fold_sigma_lower_plain, <- (fold_sigma_lower_from [] hit).
      fold (Text.lower hit). rewrite Hhit. now apply fold_sigma_ascii. }
    rewrite Hl. apply contains_spec. exists [], []. now rewrite app_nil_r.
  - intros text Hnone. apply not_true_is_false. intros H.
    rewrite detect_emergency_lowered in H.
    apply existsb_exists in H as (k & Hk & H).
    destruct (contains_aligned _ _ (keywords_plain k Hk) H)
      as (pre & hit & post & Hsplit & Hhit).
    apply (Hnone k pre hit post Hk Hsplit).
    now apply lower_of_aligned; [apply keywords_plain|].
Qed.

(** The classifier on an utterance with a trigger phrase in mixed case, on
    one where the K of LEAK is the Kelvin sign U+212A, and on one with no
    trigger phrase. *)
Lemma detect_emergency_spec_witness :
  detect_emergency "My kitchen is FLOODing fast" = true /\
  detect_emergency_points [0x4C; 0x45; 0x41; 0x212A] = true /\
  detect_emergency "I would like a quote for a new tap" = false.
Proof.
  split; [|split].
  - rewrite (proj1 (proj2 detect_emergency_spec)).
    apply (proj1 (proj2 (proj2 (proj2 detect_emergency_spec)))
             _ "flooding"%string
             (Text.code_points "My kitchen is ") (Text.code_points "FLOODing")
             (Text.code_points " fast")).
    + simpl. tauto.
    + vm_compute. reflexivity.
    + vm_compute. reflexivity.
  - apply (proj1 (proj2 (proj2 (proj2 detect_emergency_spec)))
             _ "leak"%string [] [0x4C; 0x45; 0x41; 0x212A] []).
    + simpl. tauto.
    + vm_compute. reflexivity.
    + reflexivity.
  - vm_compute. reflexivity.
Defined.

Local Close Scope N_scope.

(** ** Dictionaries *)

Section dict_facts.
Context {K V : Type} `{Countable K}.
Implicit Types (k : K) (v : V) (d : list (K * V)).

Lemma get_set_eq k v d : Dict.get k (Dict.set k v d) = Some v.
Proof.
  induction d as [|[k' v'] d IH]; simpl.
  - now rewrite decide_True.
  - destruct (decide (k = k')) as [->|Hne]; simpl.
    + now rewrite decide_True.
    + now rewrite decide_False.
Qed.

Lemma get_set_ne k k' v d : k <> k' -> Dict.get k' (Dict.set k v d) = Dict.get k' d.
Proof.
  intros Hne. induction d as [|[k0 v0] d IH]; simpl.
  - rewrite decide_False; [reflexivity | congruence].
  - destruct (decide (k = k0)) as [->|Hk]; simpl.
    + rewrite !decide_False; [reflexivity | congruence | congruence].
    + now rewrite IH.
Qed.

Lemma set_set k v v' d : Dict.set k v (Dict.set k v' d) = Dict.set k v d.
Proof.
  induction d as [|[k0 v0] d IH]; simpl.
  - now rewrite decide_True.
  - destruct (decide (k = k0)) as [->|Hk]; simpl.
    + now rewrite decide_True.
    + rewrite decide_False; [now rewrite IH | assumption].
Qed.

Lemma keys_set_present k v d :
  is_Some (Dict.get k d) -> Dict.keys (Dict.set k v d) = Dict.keys d.
Proof.
  induction d as [|[k0 v0] d IH]; simpl.
  - intros [x Hx]. discriminate.
  - destruct (decide (k = k0)) as [->|Hk]; simpl; intros Hs.
    + reflexivity.
    + f_equal. now apply IH.
Qed.

Lemma keys_set_absent k v d :
  Dict.get k d = None -> Dict.keys (Dict.set k v d) = Dict.keys d ++ [k].
Proof.
  induction d as [|[k0 v0] d IH]; simpl.
  - reflexivity.
  - destruct (decide (k = k0)) as [->|Hk]; simpl; intros Hs.
    + discriminate.
    + f_equal. now apply IH.
Qed.

Lemma elem_of_dict_dom k d : k ∈ dict_dom d <-> is_Some (Dict.get k d).
Proof.
  unfold dict_dom. rewrite elem_of_list_to_set.
  induction d as [|[k0 v0] d IH]; simpl.
  - split; [intros Hin; inversion Hin | intros [x Hx]; discriminate].
  - rewrite elem_of_cons, IH.
    destruct (decide (k = k0)) as [->|Hk]; split; eauto; intros [?|?]; eauto; congruence.
Qed.

Lemma dict_dom_set k v d : dict_dom (Dict.set k v d) = {[k]} ∪ dict_dom d.
Proof.
  apply set_eq. intros k'.
  rewrite elem_of_union, elem_of_singleton, !elem_of_dict_dom.
  destruct (decide (k = k')) as [->|Hk].
  - rewrite get_set_eq. split; eauto.
  - rewrite get_set_ne by assumption. split; [eauto | intros [?|?]; congruence || assumption].
Qed.

Lemma mem_true k d : Dict.mem k d = true <-> is_Some (Dict.get k d).
Proof.
  unfold Dict.mem. destruct (Dict.get k d); split; eauto; try discriminate.
  intros [x Hx]. discriminate.
Qed.
End dict_facts.

(** ** Relations that every step of a handler keeps

    A relation between the world before and the world after, reflexive and
    transitive, kept by the three primitive mutations on the calls that
    [touches] allows, is kept by every handler but [voice] on those calls;
    [voice] keeps it when the two assignments that create a session do. *)

Create HintDb preserving.

Ltac preserving :=
  repeat first
    [ progress intros
    | match goal with
      | |- preserves _ (match ?x with _ => _ end) => destruct x
      end ].

Section preservation.
Variable json_loads : string -> option json.
Variable R : world -> world -> Prop.
Variable touches : call_id -> Prop.
Hypothesis R_refl : forall w, R w w.
Hypothesis R_trans : forall a b c, R a b -> R b c -> R a c.
Hypothesis R_append :
  forall sid m, touches sid -> preserves R (conversation_append sid m).
Hypothesis R_update :
  forall sid f, touches sid -> updater f -> preserves R (call_update sid f).
Hypothesis R_emit : forall ev, preserves R (emit ev).

Lemma preserves_ret {A} (a : A) : preserves R (ret a).
Proof. intros w. apply R_refl. Qed.

Lemma preserves_raise {A} (x : exn) : preserves R (@raise A x).
Proof. intros w. apply R_refl. Qed.

Lemma preserves_lift {A} (r : exn + A) : preserves R (lift r).
Proof. intros w. apply R_refl. Qed.

Lemma preserves_get_world : preserves R get_world.
Proof. intros w. apply R_refl. Qed.

Lemma preserves_conversation_of sid : preserves R (conversation_of sid).
Proof. intros w. unfold conversation_of. destruct (Dict.get _ _); apply R_refl. Qed.

Lemma preserves_call_of sid : preserves R (call_of sid).
Proof. intros w. unfold call_of. destruct (Dict.get _ _); apply R_refl. Qed.

Lemma preserves_bind {A B} (m : M A) (k : A -> M B) :
  preserves R m -> (forall a, preserves R (k a)) -> preserves R (bind m k).
Proof.
  intros Hm Hk w. unfold bind. specialize (Hm w).
  destruct (m w) as [w1 [x|a]]; simpl in *.
  - exact Hm.
  - eapply R_trans; [exact Hm | apply Hk].
Qed.

Lemma preserves_try_except {A} (m : M A) (handler : exn -> M A) :
  preserves R m -> (forall x, preserves R (handler x)) ->
  preserves R (try_except m handler).
Proof.
  intros Hm Hh w. unfold try_except. specialize (Hm w).
  destruct (m w) as [w1 [x|a]]; simpl in *.
  - eapply R_trans; [exact Hm | apply Hh].
  - exact Hm.
Qed.

#[local] Hint Resolve preserves_ret preserves_raise preserves_lift preserves_get_world
  preserves_conversation_of preserves_call_of R_emit : preserving.
#[local] Hint Constructors updater : preserving.

Ltac step :=
  preserving;
  first
    [ apply preserves_bind; [|intros]
    | apply preserves_try_except; [|intros]
    | solve [auto with preserving] ].

Lemma preserves_get_ai_response e h s : preserves R (get_ai_response e h s).
Proof. unfold get_ai_response. cbv zeta. repeat step. Qed.

Lemma preserves_extract_booking_info e text :
  preserves R (extract_booking_info json_loads e text).
Proof. unfold extract_booking_info. repeat step. Qed.

Lemma preserves_send_confirmation_sms e sid :
  preserves R (send_confirmation_sms e sid).
Proof. unfold send_confirmation_sms. cbv zeta. repeat step. Qed.

Lemma preserves_save_to_dashboard e sid :
  preserves R (save_to_dashboard e sid).
Proof. unfold save_to_dashboard. cbv zeta. repeat step. Qed.

#[local] Hint Resolve preserves_get_ai_response preserves_extract_booking_info
  preserves_send_confirmation_sms preserves_save_to_dashboard : preserving.

Lemma preserves_process_speech f e :
  touches (f_CallSid f) -> preserves R (process_speech json_loads f e).
Proof.
  intros Ht. unfold process_speech. cbv zeta.
  repeat step; apply R_append || apply R_update; auto with preserving.
Qed.

Lemma preserves_call_status f e :
  touches (f_CallSid f) -> preserves R (call_status f e).
Proof.
  intros Ht. unfold call_status. cbv zeta.
  repeat step; apply R_update; auto with preserving.
Qed.

Lemma preserves_get_calls : preserves R get_calls.
Proof. unfold get_calls. repeat step. Qed.

Lemma preserves_health e : preserves R (health e).
Proof. unfold health. repeat step. Qed.

Lemma preserves_voice f e :
  (forall sid h, touches sid -> preserves R (conversation_assign sid h)) ->
  (forall sid d, touches sid -> preserves R (call_assign sid d)) ->
  touches (f_CallSid f) -> preserves R (voice f e).
Proof.
  intros Hc Hd Ht. unfold voice. cbv zeta.
  repeat step; apply Hc || apply Hd; assumption.
Qed.

(** Every request but a call start. *)
Lemma preserves_dispatch r :
  rq_endpoint r <> EVoice -> touches (f_CallSid (rq_form r)) ->
  preserves R (dispatch json_loads r).
Proof.
  intros Hep Ht. unfold dispatch.
  destruct (rq_endpoint r); try congruence;
    (apply preserves_bind; [|intros; apply preserves_ret]).
  - now apply preserves_process_speech.
  - now apply preserves_call_status.
  - apply preserves_get_calls.
  - apply preserves_health.
Qed.

Lemma preserves_dispatch_voice r :
  (forall sid h, touches sid -> preserves R (conversation_assign sid h)) ->
  (forall sid d, touches sid -> preserves R (call_assign sid d)) ->
  touches (f_CallSid (rq_form r)) ->
  preserves R (dispatch json_loads r).
Proof.
  intros Hc Hd Ht. destruct (rq_endpoint r) eqn:Hep.
  1: { unfold dispatch. rewrite Hep.
       apply preserves_bind; [|intros; apply preserves_ret].
       now apply preserves_voice. }
  all: apply preserves_dispatch; [congruence | assumption].
Qed.
End preservation.

(** ** The primitive steps, one by one *)

Lemma conversation_append_known sid m h w :
  Dict.get sid (conversations w) = Some h ->
  conversation_append sid m w =
    ({| conversations := Dict.set sid (h ++ [m]) (conversations w);
        call_data := call_data w; effects := effects w |}, inr tt).
Proof. intros H. unfold conversation_append. now rewrite H. Qed.

Lemma conversation_append_unknown sid m w :
  Dict.get sid (conversations w) = None ->
  conversation_append sid m w = (w, inl KeyError).
Proof. intros H. unfold conversation_append. now rewrite H. Qed.

Lemma call_update_known sid f d w :
  Dict.get sid (call_data w) = Some d ->
  call_update sid f w =
    ({| conversations := conversations w;
        call_data := Dict.set sid (f d) (call_data w);
        effects := effects w |}, inr tt).
Proof. intros H. unfold call_update. now rewrite H. Qed.

Lemma updater_keeps_flag f d : updater f -> flagged d = true -> flagged (f d) = true.
Proof. intros [line| |b|s now] H; unfold flagged in *; simpl; auto. Qed.

Lemma updater_flag_grows f d : updater f -> flagged d = true \/ flagged (f d) = flagged d \/ flagged (f d) = true.
Proof. intros [line| |b|s now]; unfold flagged; simpl; auto. Qed.

(** ** The two stores know the same calls (C10) *)

Lemma same_keys_dispatch json_loads r :
  rq_endpoint r <> EVoice -> preserves same_keys (dispatch json_loads r).
Proof.
  intros Hep.
  apply preserves_dispatch with (touches := fun _ => True); try exact I; try exact Hep.
  - intros w. now split.
  - intros a b c [H1 H2] [H3 H4]. split; congruence.
  - intros sid m _ w. unfold conversation_append.
    destruct (Dict.get sid (conversations w)) eqn:Hg; simpl; [|now split].
    split; [|reflexivity]. apply keys_set_present. rewrite Hg. eauto.
  - intros sid f _ _ w. unfold call_update.
    destruct (Dict.get sid (call_data w)) eqn:Hg; simpl; [|now split].
    split; [reflexivity|]. apply keys_set_present. rewrite Hg. eauto.
  - intros ev w. now split.
Qed.

(** What a call start does to the world. *)
Lemma voice_world f e w :
  voice f e w =
    (if Dict.mem (f_CallSid f) (conversations w) then w
     else {| conversations := Dict.set (f_CallSid f) [] (conversations w);
             call_data := Dict.set (f_CallSid f)
               {| cd_from := f_From f; cd_started_at := clock e 0;
                  cd_conversation := []; cd_is_emergency := None;
                  cd_status := None; cd_ended_at := None;
                  cd_booking_info := None |} (call_data w);
             effects := effects w |},
     inr [Gather greeting; Say no_input]).
Proof.
  unfold voice, bind, get_world. simpl.
  destruct (Dict.mem (f_CallSid f) (conversations w)); reflexivity.
Qed.

Lemma handle_voice json_loads r w :
  rq_endpoint r = EVoice ->
  handle json_loads w r = fst (voice (rq_form r) (rq_env r) w).
Proof.
  intros Hep. unfold handle, dispatch. rewrite Hep. unfold bind.
  destruct (voice (rq_form r) (rq_env r) w) as [w' [x|v]]; reflexivity.
Qed.

Lemma same_keys_dom w w' :
  same_keys w w' ->
  dict_dom (conversations w') = dict_dom (conversations w) /\
  dict_dom (call_data w') = dict_dom (call_data w).
Proof. intros [H1 H2]. unfold dict_dom. now rewrite H1, H2. Qed.

(** A request that is not a call start leaves the calls of both stores
    as they are. *)
Lemma handle_dom_other json_loads r w :
  rq_endpoint r <> EVoice ->
  dict_dom (conversations (handle json_loads w r)) = dict_dom (conversations w) /\
  dict_dom (call_data (handle json_loads w r)) = dict_dom (call_data w).
Proof.
  intros Hep. exact (same_keys_dom _ _ (same_keys_dispatch json_loads r Hep w)).
Qed.

(** A call start adds its call to both stores, when they knew the same
    calls. *)
Lemma handle_dom_voice json_loads r w :
  same_calls w -> rq_endpoint r = EVoice ->
  dict_dom (conversations (handle json_loads w r))
    = {[f_CallSid (rq_form r)]} ∪ dict_dom (conversations w) /\
  dict_dom (call_data (handle json_loads w r))
    = {[f_CallSid (rq_form r)]} ∪ dict_dom (call_data w).
Proof.
  unfold same_calls. intros Hinv Hep.
  rewrite (handle_voice _ _ _ Hep), voice_world. simpl.
  destruct (Dict.mem (f_CallSid (rq_form r)) (conversations w)) eqn:Hmem; simpl.
  - apply mem_true, elem_of_dict_dom in Hmem.
    assert (Hcd : f_CallSid (rq_form r) ∈ dict_dom (call_data w)) by now rewrite <- Hinv.
    split; symmetry; apply subseteq_union_1_L, singleton_subseteq_l; assumption.
  - now rewrite !dict_dom_set.
Qed.

Lemma same_calls_handle json_loads r w :
  same_calls w -> same_calls (handle json_loads w r).
Proof.
  intros Hinv. unfold same_calls.
  destruct (decide (rq_endpoint r = EVoice)) as [Hep|Hep].
  - destruct (handle_dom_voice json_loads r w Hinv Hep) as [-> ->]. now rewrite Hinv.
  - destruct (handle_dom_other json_loads r w Hep) as [-> ->]. exact Hinv.
Qed.

(** C10.  Every request keeps the invariant that the calls with a message
    history ([conversations]) are the calls with metadata ([call_data]).
    No request removes a call from either store; only a call start adds
    one, and it adds it to both. *)
Theorem same_calls_preserved (json_loads : string -> option json)
    (r : request) (w : world) :
  same_calls w ->
  same_calls (handle json_loads w r) /\
  dict_dom (conversations w) ⊆ dict_dom (conversations (handle json_loads w r)) /\
  dict_dom (call_data w) ⊆ dict_dom (call_data (handle json_loads w r)) /\
  (rq_endpoint r <> EVoice ->
     dict_dom (conversations (handle json_loads w r)) = dict_dom (conversations w) /\
     dict_dom (call_data (handle json_loads w r)) = dict_dom (call_data w)) /\
  (rq_endpoint r = EVoice ->
     dict_dom (conversations (handle json_loads w r))
       = {[f_CallSid (rq_form r)]} ∪ dict_dom (conversations w) /\
     dict_dom (call_data (handle json_loads w r))
       = {[f_CallSid (rq_form r)]} ∪ dict_dom (call_data w)).
Proof.
  intros Hinv. split; [now apply same_calls_handle|].
  assert (Hsub : dict_dom (conversations w) ⊆ dict_dom (conversations (handle json_loads w r)) /\
                 dict_dom (call_data w) ⊆ dict_dom (call_data (handle json_loads w r))).
  { destruct (decide (rq_endpoint r = EVoice)) as [Hep|Hep].
    - destruct (handle_dom_voice json_loads r w Hinv Hep) as [-> ->].
      split; apply union_subseteq_r.
    - destruct (handle_dom_other json_loads r w Hep) as [-> ->]. now split. }
  destruct Hsub as [Hc Hd].
  split; [exact Hc|]. split; [exact Hd|]. split.
  - apply handle_dom_other.
  - now apply handle_dom_voice.
Qed.

(** The invariant holds when the process starts, and a call start then
    keeps it and adds the call to both stores. *)
Lemma same_calls_preserved_witness :
  same_calls initial_world /\
  same_calls (handle loads_empty_object initial_world (sample_request EVoice "" "")).
Proof.
  assert (H0 : same_calls initial_world) by reflexivity.
  split; [exact H0|].
  exact (proj1 (same_calls_preserved loads_empty_object
                  (sample_request EVoice "" "") initial_world H0)).
Defined.

Lemma same_calls_run json_loads rs w :
  same_calls w -> same_calls (run json_loads rs w).
Proof.
  revert w. induction rs as [|r rs IH]; intros w Hinv; simpl; [exact Hinv|].
  apply IH. now apply same_calls_handle.
Qed.

(** ** The emergency flag (C4) *)

Lemma keeps_flag_dispatch json_loads sid r :
  rq_endpoint r <> EVoice -> preserves (keeps_flag sid) (dispatch json_loads r).
Proof.
  intros Hep.
  apply preserves_dispatch with (touches := fun _ => True); try exact I; try exact Hep.
  - intros w H. exact H.
  - intros a b c Hab Hbc H. apply Hbc, Hab, H.
  - intros sid' m _ w. unfold conversation_append.
    destruct (Dict.get sid' (conversations w)); simpl; intros H; exact H.
  - intros sid' f _ Hf w. unfold call_update.
    destruct (Dict.get sid' (call_data w)) as [d|] eqn:Hg; simpl; [|intros H; exact H].
    unfold keeps_flag, flag_of. simpl.
    destruct (decide (sid' = sid)) as [->|Hne].
    + rewrite Hg, get_set_eq. now apply updater_keeps_flag.
    + now rewrite get_set_ne.
  - intros ev w H. exact H.
Qed.

Lemma keeps_flag_voice f e sid w :
  same_calls w -> keeps_flag sid w (fst (voice f e w)).
Proof.
  intros Hinv. rewrite voice_world. simpl.
  destruct (Dict.mem (f_CallSid f) (conversations w)) eqn:Hmem; [intros H; exact H|].
  unfold keeps_flag, flag_of. simpl.
  destruct (decide (f_CallSid f = sid)) as [Heq|Hne].
  - rewrite Heq in *.
    assert (Hcd : Dict.get sid (call_data w) = None).
    { destruct (Dict.get sid (call_data w)) eqn:Hg; [|reflexivity].
      assert (Hin : sid ∈ dict_dom (call_data w)) by (apply elem_of_dict_dom; rewrite Hg; eauto).
      rewrite <- Hinv in Hin. apply elem_of_dict_dom in Hin.
      apply mem_true in Hin. congruence. }
    rewrite Hcd. discriminate.
  - now rewrite get_set_ne.
Qed.

(** C4.  The emergency flag of a session is monotonic: once it is true it
    is true after any sequence of utterance processing (for any utterance),
    status updates and reads.  A call start in the sequence does not reset
    it either, in a world where the two stores know the same calls, which
    is every world the process can reach. *)
Theorem emergency_flag_monotonic (json_loads : string -> option json)
    (call_sid : call_id) (rs : list request) (w : world) :
  flag_of call_sid w = true ->
  Forall (fun r => rq_endpoint r <> EVoice) rs \/ same_calls w ->
  flag_of call_sid (run json_loads rs w) = true.
Proof.
  revert w. induction rs as [|r rs IH]; intros w Hflag Hor; simpl; [exact Hflag|].
  apply IH.
  - destruct (decide (rq_endpoint r = EVoice)) as [Hep|Hep].
    + destruct Hor as [Hall|Hinv].
      * inversion Hall; subst. contradiction.
      * rewrite (handle_voice _ _ _ Hep). now apply keeps_flag_voice.
    + now apply (keeps_flag_dispatch json_loads call_sid r Hep w).
  - destruct Hor as [Hall|Hinv].
    + left. now inversion Hall.
    + right. now apply same_calls_handle.
Qed.

(** The caller of the sample call mentions a burst pipe; the flag is then
    set, and stays set through two more utterances, a status update, a
    read and a second call start. *)
Lemma emergency_flag_monotonic_witness :
  flag_of (Some "CA123") one_exchange = true /\
  flag_of (Some "CA123")
    (run loads_empty_object
       [sample_request EProcessSpeech "no, all fine now" "{}";
        sample_request ECallStatus "" "";
        sample_request EGetCalls "" "";
        sample_request EVoice "" "";
        sample_request EProcessSpeech "thank you" "{}"] one_exchange) = true.
Proof.
  assert (Hflag : flag_of (Some "CA123") one_exchange = true)
    by (vm_compute; reflexivity).
  split; [exact Hflag|].
  apply (emergency_flag_monotonic loads_empty_object (Some "CA123") _
           one_exchange Hflag).
  right. vm_compute. reflexivity.
Defined.

(** ** Call start and the independence of sessions (C8) *)

Lemma session_kept_dispatch json_loads sid r :
  f_CallSid (rq_form r) <> sid ->
  preserves (session_kept sid) (dispatch json_loads r).
Proof.
  intros Hne.
  apply preserves_dispatch_voice with (touches := fun c => c <> sid); try exact Hne.
  - intros w. reflexivity.
  - intros a b c Hab Hbc. unfold session_kept in *. congruence.
  - intros sid' m Hs w. unfold conversation_append, session_kept, session_of.
    destruct (Dict.get sid' (conversations w)); simpl; [|reflexivity].
    now rewrite get_set_ne.
  - intros sid' f Hs _ w. unfold call_update, session_kept, session_of.
    destruct (Dict.get sid' (call_data w)); simpl; [|reflexivity].
    now rewrite get_set_ne.
  - intros ev w. reflexivity.
  - intros sid' h Hs w. unfold session_kept, session_of. simpl. now rewrite get_set_ne.
  - intros sid' d Hs w. unfold session_kept, session_of. simpl. now rewrite get_set_ne.
Qed.





(** ** Unknown call identifiers (C9) *)

Lemma call_entry_of_error item x : call_entry_of item = inl x -> x = AttributeError.
Proof.
  destruct item as [sid d]. unfold call_entry_of.
  destruct (booking_info_of (Some d)); simpl; congruence.
Qed.

Lemma call_entry_of_id item c : call_entry_of item = inr c -> ce_id c = fst item.
Proof.
  destruct item as [sid d]. unfold call_entry_of.
  destruct (booking_info_of (Some d)); simpl; try discriminate.
  intros [= <-]. reflexivity.
Qed.

Lemma call_entries_error items x : call_entries items = inl x -> x = AttributeError.
Proof.
  induction items as [|item items IH]; simpl; [discriminate|].
  destruct (call_entry_of item) eqn:Hi.
  - intros [= <-]. now apply call_entry_of_error in Hi.
  - destruct (call_entries items); [intros [= <-]; now apply IH | discriminate].
Qed.

Lemma call_entries_ids items cs :
  call_entries items = inr cs -> map ce_id cs = Dict.keys items.
Proof.
  revert cs. induction items as [|item items IH]; intros cs; simpl.
  - intros [= <-]. reflexivity.
  - destruct (call_entry_of item) eqn:Hi; [discriminate|].
    destruct (call_entries items); [discriminate|].
    intros [= <-]. simpl. f_equal; [now apply call_entry_of_id | now apply IH].
Qed.

Lemma call_entries_ok items :
  Forall (fun item => exists fields, booking_info_of (Some (snd item)) = JObj fields)
    items ->
  exists cs, call_entries items = inr cs.
Proof.
  induction 1 as [|[sid d] items [fields Hb] _ [cs IH]]; simpl.
  - now exists [].
  - simpl in Hb. rewrite Hb. simpl. rewrite IH. eauto.
Qed.

Lemma get_None_keys {V} (k : call_id) (d : list (call_id * V)) :
  Dict.get k d = None -> ~ In k (Dict.keys d).
Proof.
  induction d as [|[k' v] d IH]; simpl; [tauto|].
  destruct (decide (k = k')); [discriminate|].
  intros Hg [Heq|Hin]; [congruence | now apply IH].
Qed.

(** C9.  For a call identifier that [conversations] does not know,
    [process_speech] raises [KeyError]: it returns no response and leaves
    the world as it was, so it creates no session.  For a call identifier
    that [call_data] does not know, [call_status] acknowledges without an
    error and changes nothing; the read endpoint changes nothing either,
    raises no [KeyError], returns its list when every stored booking record
    is a dict, and lists no entry under that identifier. *)
Theorem unknown_call_identifier (json_loads : string -> option json)
    (f : form) (e : env) (w : world) :
  (Dict.get (f_CallSid f) (conversations w) = None ->
     process_speech json_loads f e w = (w, inl KeyError)) /\
  (Dict.get (f_CallSid f) (call_data w) = None ->
     call_status f e w = (w, inr tt) /\
     fst (get_calls w) = w /\
     snd (get_calls w) <> inl KeyError /\
     (bookings_are_dicts w -> exists cs, snd (get_calls w) = inr cs) /\
     (forall cs, snd (get_calls w) = inr cs -> ~ In (f_CallSid f) (map ce_id cs))).
Proof.
  split.
  - intros Hc. unfold process_speech, bind.
    now rewrite (conversation_append_unknown _ _ _ Hc).
  - intros Hd. split; [|split; [|split; [|split]]].
    + unfold call_status, bind, get_world, Dict.mem. now rewrite Hd.
    + reflexivity.
    + unfold get_calls, bind, get_world, lift. simpl.
      destruct (call_entries (call_data w)) eqn:Hcs; simpl; [|discriminate].
      apply call_entries_error in Hcs. congruence.
    + intros Hdicts. unfold get_calls, bind, get_world, lift. simpl.
      destruct (call_entries_ok _ Hdicts) as [cs Hcs]. exists cs. now rewrite Hcs.
    + unfold get_calls, bind, get_world, lift. simpl. intros cs Hcs.
      destruct (call_entries (call_data w)) eqn:Hes; simpl in Hcs; [discriminate|].
      injection Hcs as ->. rewrite (call_entries_ids _ _ Hes).
      now apply get_None_keys.
Qed.

(** An utterance and a status update for CA999, a call that never
    started, while CA123 is in progress. *)
Lemma unknown_call_identifier_witness :
  process_speech loads_empty_object unknown_form (sample_env "{}") one_exchange
    = (one_exchange, inl KeyError) /\
  call_status unknown_form (sample_env "{}") one_exchange = (one_exchange, inr tt).
Proof.
  destruct (unknown_call_identifier loads_empty_object unknown_form
              (sample_env "{}") one_exchange) as [Hps Hcs].
  split.
  - apply Hps. vm_compute. reflexivity.
  - apply Hcs. vm_compute. reflexivity.
Defined.

(** ** The booking extractor (C5) *)



(** ** The confirmation SMS (C7) *)

Lemma send_confirmation_sms_dict e sid w fields :
  booking_info_of (Dict.get sid (call_data w)) = JObj fields ->
  send_confirmation_sms e sid w =
    (let phone := destination fields (caller_of (Dict.get sid (call_data w))) in
     if usable phone
     then with_effects w
            [SmsCreate sid phone
               (match Py.assoc "appointment_time" fields with Some v => v | None => JNull end)
               (match Py.assoc "issue" fields with Some v => v | None => JNull end)
               (sms_delivered e)]
     else w,
     inr tt).
Proof.
  intros Hb. unfold send_confirmation_sms, bind, get_world, lift. cbv zeta.
  rewrite Hb. unfold Py.get at 1. unfold destination, usable, caller_of.
  destruct (Py.truthy _ && negb _); reflexivity.
Qed.

Lemma send_confirmation_sms_not_dict e sid w :
  (forall fields, booking_info_of (Dict.get sid (call_data w)) <> JObj fields) ->
  send_confirmation_sms e sid w = (w, inl AttributeError).
Proof.
  intros Hb. unfold send_confirmation_sms, bind, get_world, lift. cbv zeta.
  destruct (booking_info_of (Dict.get sid (call_data w))); try reflexivity.
  now contradiction (Hb fields).
Qed.

(** C7, as the code has it.  The confirmation SMS goes to the number [send_confirmation_sms]
    reads from the booking record when the record has a 'phone' entry, and
    to the caller's number when it has none; when both are there and
    differ, the extracted one is used.  The message is sent when that
    number passes the guard of the code: it is truthy and is not the text
    "Not provided". *)
Theorem confirmation_destination (e : env) (call_sid : call_id) (w : world)
    (fields : list (string * json)) :
  booking_info_of (Dict.get call_sid (call_data w)) = JObj fields ->
  let caller := caller_of (Dict.get call_sid (call_data w)) in
  let phone := destination fields caller in
  (forall extracted, Py.assoc "phone" fields = Some extracted -> phone = extracted) /\
  (Py.assoc "phone" fields = None -> phone = caller) /\
  (usable phone = true ->
     exists appointment_time issue,
       send_confirmation_sms e call_sid w
         = (with_effects w
              [SmsCreate call_sid phone appointment_time issue (sms_delivered e)],
            inr tt)) /\
  (usable phone = false -> send_confirmation_sms e call_sid w = (w, inr tt)).
Proof.
  intros Hb caller phone.
  pose proof (send_confirmation_sms_dict e call_sid w fields Hb) as Hs.
  cbv zeta in Hs. fold caller in Hs. fold phone in Hs.
  split; [|split; [|split]].
  - intros extracted Hx. unfold phone, destination. now rewrite Hx.
  - intros Hx. unfold phone, destination. now rewrite Hx.
  - intros Hu. rewrite Hu in Hs. eauto.
  - intros Hu. now rewrite Hu in Hs.
Qed.

(** The record says +447700900123, the call came from +441234567890: the
    SMS goes to the number of the record. *)
Lemma confirmation_destination_witness :
  exists appointment_time issue,
    send_confirmation_sms (sample_env "") (Some "CA123") booked_world
      = (with_effects booked_world
           [SmsCreate (Some "CA123") (JStr "+447700900123")
              appointment_time issue true],
         inr tt).
Proof.
  apply (proj1 (proj2 (proj2
           (confirmation_destination (sample_env "") (Some "CA123") booked_world
              booked_fields eq_refl)))).
  reflexivity.
Defined.

(** ** One turn of [process_speech] (lines 152-168) *)

Lemma bind_ok {A B} (m : M A) (k : A -> M B) w w' a :
  m w = (w', inr a) -> bind m k w = k a w'.
Proof. intros H. unfold bind. now rewrite H. Qed.

Lemma bind_raise {A B} (m : M A) (k : A -> M B) w w' x :
  m w = (w', inl x) -> bind m k w = (w', inl x).
Proof. intros H. unfold bind. now rewrite H. Qed.

Lemma conversation_of_known sid h w :
  Dict.get sid (conversations w) = Some h -> conversation_of sid w = (w, inr h).
Proof. intros H. unfold conversation_of. now rewrite H. Qed.

Lemma call_of_known sid d w :
  Dict.get sid (call_data w) = Some d -> call_of sid w = (w, inr d).
Proof. intros H. unfold call_of. now rewrite H. Qed.

Lemma get_ai_response_ok e h s r w :
  chat_reply e = Some r ->
  get_ai_response e h s w
    = (with_effects w [ChatCompletion ([Message RSystem system_prompt] ++ h
                                        ++ [Message RUser s])], inr r).
Proof. intros H. unfold get_ai_response, bind, emit. now rewrite H. Qed.

Ltac known :=
  cbn [conversations call_data effects with_effects];
  first [ eassumption | apply get_set_eq ].

Ltac run_step lem := erewrite bind_ok; [| apply lem; known].

(** The world after the caller's utterance and the reply of the chat oracle
    were stored. *)
Lemma process_speech_turn json_loads f e w h d r :
  Dict.get (f_CallSid f) (conversations w) = Some h ->
  Dict.get (f_CallSid f) (call_data w) = Some d ->
  chat_reply e = Some r ->
  let sid := f_CallSid f in
  let s := match f_SpeechResult f with Some s => s | None => "" end in
  let w1 :=
    {| conversations :=
         Dict.set sid (h ++ [Message RUser s; Message RAssistant r]) (conversations w);
       call_data := Dict.set sid (after_turn s r d) (call_data w);
       effects := effects w ++ [ChatCompletion (chat_messages h s)] |} in
  process_speech json_loads f e w =
    if (6 <=? length h + 2)%nat then wrap_up json_loads e sid w1
    else (w1, inr [Gather r]).
Proof.
  intros Hc Hd Hr sid s w1.
  assert (Hlen : length ((h ++ [Message RUser s]) ++ [Message RAssistant r])
                 = length h + 2) by (rewrite !length_app; simpl; lia).
  unfold process_speech. fold sid. fold s.
  run_step conversation_append_known.
  run_step call_update_known.
  unfold w1, after_turn.
  destruct (detect_emergency s).
  - run_step call_update_known.
    run_step conversation_of_known.
    erewrite bind_ok; [| apply get_ai_response_ok; exact Hr ].
    run_step conversation_append_known.
    run_step call_update_known.
    run_step conversation_of_known.
    cbn [conversations call_data effects with_effects].
    rewrite Hlen, !set_set, <- (app_assoc h [Message RUser s] [Message RAssistant r]).
    destruct (6 <=? length h + 2)%nat; reflexivity.
  - erewrite bind_ok; [| reflexivity ].
    run_step conversation_of_known.
    erewrite bind_ok; [| apply get_ai_response_ok; exact Hr ].
    run_step conversation_append_known.
    run_step call_update_known.
    run_step conversation_of_known.
    cbn [conversations call_data effects with_effects].
    rewrite Hlen, !set_set, <- (app_assoc h [Message RUser s] [Message RAssistant r]).
    destruct (6 <=? length h + 2)%nat; reflexivity.
Qed.

(** ** The termination branch (lines 169-190) *)

Lemma extract_booking_info_ok json_loads e text conversation_text w :
  extract_reply e = Some text ->
  extract_booking_info json_loads e conversation_text w
    = (with_effects w [ExtractCompletion conversation_text],
       inr (booking_of json_loads text)).
Proof.
  intros He. unfold extract_booking_info, bind, emit, try_except, booking_of.
  rewrite He. destruct (json_loads text); reflexivity.
Qed.

Lemma extract_booking_info_raises json_loads e conversation_text w :
  extract_reply e = None ->
  extract_booking_info json_loads e conversation_text w
    = (with_effects w [ExtractCompletion conversation_text], inl OracleError).
Proof. intros He. unfold extract_booking_info, bind, emit. now rewrite He. Qed.

Lemma save_to_dashboard_dict e sid w d fields :
  Dict.get sid (call_data w) = Some d ->
  cd_booking_info d = Some (JObj fields) ->
  exists data,
    save_to_dashboard e sid w = (with_effects w [DashboardPrint sid data], inr tt) /\
    db_status data = (if flagged d then "urgent" else "booked") /\
    db_urgency data =
      (if flagged d ||
          Py.eq_str (match Py.assoc "is_emergency" fields with
                     | Some v => v | None => JNull end) "yes"
       then "emergency" else "normal") /\
    db_phone data = destination fields (Py.of_opt (cd_from d)).
Proof.
  intros Hd Hb. eexists. split.
  - unfold save_to_dashboard, bind, get_world, lift, emit. cbv zeta.
    rewrite Hd. unfold booking_info_of. rewrite Hb. unfold Py.get.
    reflexivity.
  - simpl. repeat split.
Qed.

Section wrap_up_cases.
Variable json_loads : string -> option json.
Variables (e : env) (sid : call_id) (w : world) (d : call_record).
Hypothesis known : Dict.get sid (call_data w) = Some d.

Lemma wrap_up_oracle_error :
  extract_reply e = None ->
  wrap_up json_loads e sid w
    = (with_effects w [ExtractCompletion (transcript_of d)], inl OracleError).
Proof.
  intros He. unfold wrap_up.
  run_step call_of_known.
  erewrite bind_raise; [reflexivity|].
  apply extract_booking_info_raises; exact He.
Qed.

Lemma wrap_up_not_dict text :
  extract_reply e = Some text ->
  (forall fields, booking_of json_loads text <> JObj fields) ->
  wrap_up json_loads e sid w
    = ({| conversations := conversations w;
          call_data :=
            Dict.set sid (set_booking_info (booking_of json_loads text) d)
              (call_data w);
          effects := effects w ++ [ExtractCompletion (transcript_of d)] |},
       inl AttributeError).
Proof.
  intros He Hb. unfold wrap_up.
  run_step call_of_known.
  erewrite bind_ok; [| apply extract_booking_info_ok; exact He ].
  run_step call_update_known.
  erewrite bind_raise; [reflexivity|].
  apply send_confirmation_sms_not_dict.
  cbn [conversations call_data effects with_effects].
  rewrite get_set_eq. exact Hb.
Qed.

Lemma wrap_up_dict text fields :
  extract_reply e = Some text ->
  booking_of json_loads text = JObj fields ->
  exists w' data sms,
    wrap_up json_loads e sid w = (w', inr [Say closing; Hangup]) /\
    conversations w' = conversations w /\
    call_data w' = Dict.set sid (set_booking_info (JObj fields) d) (call_data w) /\
    effects w' = effects w ++ ExtractCompletion (transcript_of d) :: sms
                   ++ [DashboardPrint sid data] /\
    sms = (let phone := destination fields (Py.of_opt (cd_from d)) in
           if usable phone
           then [SmsCreate sid phone
                   (match Py.assoc "appointment_time" fields with
                    | Some v => v | None => JNull end)
                   (match Py.assoc "issue" fields with
                    | Some v => v | None => JNull end)
                   (sms_delivered e)]
           else []) /\
    db_status data = (if flagged d then "urgent" else "booked") /\
    db_urgency data =
      (if flagged d ||
          Py.eq_str (match Py.assoc "is_emergency" fields with
                     | Some v => v | None => JNull end) "yes"
       then "emergency" else "normal").
Proof.
  intros He Hb. unfold wrap_up.
  run_step call_of_known.
  erewrite bind_ok; [| apply extract_booking_info_ok; exact He ].
  run_step call_update_known.
  rewrite Hb.
  erewrite bind_ok;
    [| apply send_confirmation_sms_dict with (fields := fields);
       cbn [conversations call_data effects with_effects];
       now rewrite get_set_eq ].
  cbn [conversations call_data effects with_effects].
  rewrite get_set_eq. cbn [caller_of set_booking_info cd_from].
  destruct (usable (destination fields (Py.of_opt (cd_from d)))) eqn:Hu.
  - match goal with
    | |- context [bind (save_to_dashboard e sid) _ ?W] =>
        destruct (save_to_dashboard_dict e sid W
                    (set_booking_info (JObj fields) d) fields)
          as (data & Hs & Hst & Hur & _);
        [ cbn [conversations call_data effects with_effects]; apply get_set_eq
        | reflexivity | ]
    end.
    erewrite bind_ok; [| exact Hs ].
    eexists _, data, _. split; [reflexivity|].
    cbn [conversations call_data effects with_effects].
    repeat split; try assumption.
    now rewrite <- !app_assoc.
  - match goal with
    | |- context [bind (save_to_dashboard e sid) _ ?W] =>
        destruct (save_to_dashboard_dict e sid W
                    (set_booking_info (JObj fields) d) fields)
          as (data & Hs & Hst & Hur & _);
        [ cbn [conversations call_data effects with_effects]; apply get_set_eq
        | reflexivity | ]
    end.
    erewrite bind_ok; [| exact Hs ].
    eexists _, data, _. split; [reflexivity|].
    cbn [conversations call_data effects with_effects].
    repeat split; try assumption.
    now rewrite <- !app_assoc.
Qed.

(** Whatever the oracle answers, the branch starts with the extraction,
    leaves the message history alone, and ends with the closing response
    or with an exception. *)
Lemma wrap_up_shape :
  exists w' res rest,
    wrap_up json_loads e sid w = (w', res) /\
    conversations w' = conversations w /\
    effects w' = effects w ++ ExtractCompletion (transcript_of d) :: rest /\
    (res = inr [Say closing; Hangup] \/ exists x, res = inl x).
Proof.
  destruct (extract_reply e) as [text|] eqn:He.
  - destruct (booking_of json_loads text) as [ | | | | | |fields] eqn:Hb.
    7: { destruct (wrap_up_dict text fields He Hb)
           as (w' & data & sms & Hw & Hc & _ & Hf & _).
         exists w', (inr [Say closing; Hangup]), (sms ++ [DashboardPrint sid data]).
         repeat split; auto. }
    all: eexists _, _, []; split;
      [ apply (wrap_up_not_dict text He); rewrite Hb; discriminate
      | repeat split; eauto ].
  - eexists _, _, []. split; [now apply wrap_up_oracle_error|].
    repeat split; eauto.
Qed.
End wrap_up_cases.

(** ** The turn threshold (C1) *)

Lemma new_effects_app w w' more :
  effects w' = effects w ++ more -> new_effects w w' = more.
Proof. intros H. unfold new_effects. rewrite H. apply drop_app_length. Qed.

(** C1.  For a stored session and a chat oracle that replies, let the turn
    count be the length of the message history right after the system turn
    was appended (two more than before the request).  [process_speech]
    takes its termination branch exactly when that count is at least 6:
    below 6 it returns the gather response with the reply and does nothing
    of the termination (no extraction, no SMS, no dashboard record, no
    booking record); from 6 on it runs the extraction and ends with the
    closing response and hangup, or with an exception raised in the branch,
    and with the closing response whenever the extraction gives a dict. *)
Theorem termination_threshold (json_loads : string -> option json)
    (f : form) (e : env) (w : world)
    (h : list message) (d : call_record) (r : string) :
  Dict.get (f_CallSid f) (conversations w) = Some h ->
  Dict.get (f_CallSid f) (call_data w) = Some d ->
  chat_reply e = Some r ->
  let sid := f_CallSid f in
  let s := match f_SpeechResult f with Some s => s | None => "" end in
  let w' := fst (process_speech json_loads f e w) in
  let res := snd (process_speech json_loads f e w) in
  exists h',
    Dict.get sid (conversations w') = Some h' /\
    length h' = length h + 2 /\
    (existsb is_termination_action (new_effects w w') = true <-> 6 <= length h') /\
    (length h' < 6 ->
       res = inr [Gather r] /\
       new_effects w w' = [ChatCompletion (chat_messages h s)] /\
       Dict.get sid (call_data w') = Some (after_turn s r d)) /\
    (6 <= length h' ->
       (res = inr [Say closing; Hangup] \/ exists x, res = inl x) /\
       (exists rest,
          new_effects w w' =
            ChatCompletion (chat_messages h s)
              :: ExtractCompletion (transcript_of (after_turn s r d)) :: rest) /\
       (forall text fields,
          extract_reply e = Some text ->
          booking_of json_loads text = JObj fields ->
          res = inr [Say closing; Hangup])).
Proof.
  intros Hc Hd Hr sid s w' res.
  pose proof (process_speech_turn json_loads f e w h d r Hc Hd Hr) as Hturn.
  cbv zeta in Hturn. fold sid in Hturn. fold s in Hturn.
  exists (h ++ [Message RUser s; Message RAssistant r]).
  assert (Hlen : length (h ++ [Message RUser s; Message RAssistant r]) = length h + 2)
    by (rewrite length_app; reflexivity).
  rewrite Hlen.
  destruct (6 <=? length h + 2)%nat eqn:Hsix.
  - apply Nat.leb_le in Hsix.
    match type of Hturn with
    | _ = wrap_up _ _ _ ?W =>
        destruct (wrap_up_shape json_loads e sid W (after_turn s r d))
          as (w2 & res2 & rest & Hw & Hconv & Heff & Hres);
          [ cbn [call_data]; apply get_set_eq | ];
        pose proof (wrap_up_dict json_loads e sid W (after_turn s r d)) as Hdict
    end.
    rewrite Hw in Hturn.
    assert (Hnew : new_effects w w' =
              ChatCompletion (chat_messages h s)
                :: ExtractCompletion
                     (Text.join Text.newline (cd_conversation (after_turn s r d)))
                :: rest).
    { apply new_effects_app. unfold w'. rewrite Hturn. simpl fst.
      rewrite Heff. cbn [effects]. now rewrite <- app_assoc. }
    unfold w', res. rewrite Hturn. simpl fst. simpl snd.
    split; [rewrite Hconv; cbn [conversations]; apply get_set_eq|].
    split; [reflexivity|].
    split.
    { unfold w' in Hnew. rewrite Hturn in Hnew. simpl fst in Hnew.
      rewrite Hnew. simpl. split; [intros _; exact Hsix | reflexivity]. }
    split; [intros Hlt; lia|].
    intros _. split; [exact Hres|]. split.
    { unfold w' in Hnew. rewrite Hturn in Hnew. simpl fst in Hnew.
      exists rest. exact Hnew. }
    intros text fields He Hb.
    destruct (Hdict (get_set_eq _ _ _) text fields He Hb) as (w3 & ? & ? & Hw3 & _).
    congruence.
  - apply Nat.leb_gt in Hsix.
    unfold w', res. rewrite Hturn. simpl fst. simpl snd.
    assert (Hnew : forall W, effects W = effects w ++ [ChatCompletion (chat_messages h s)] ->
                   new_effects w W = [ChatCompletion (chat_messages h s)])
      by (intros W HW; now apply new_effects_app).
    split; [cbn [conversations]; apply get_set_eq|].
    split; [reflexivity|].
    split.
    { rewrite Hnew by reflexivity. simpl. split; [discriminate | lia]. }
    split; [|intros Hge; lia].
    intros _. split; [reflexivity|]. split; [now apply Hnew|].
    cbn [call_data]. apply get_set_eq.
Qed.

(** The third utterance of the sample call brings the history to six turns
    and closes the call; the first one, two turns, gathers again. *)
Lemma termination_threshold_witness :
  snd (process_speech loads_empty_object (sample_form "12 High Street")
         (sample_env "{}") two_exchanges) = inr [Say closing; Hangup] /\
  snd (process_speech loads_empty_object (sample_form "I have a burst pipe!")
         (sample_env "{}") started_call)
    = inr [Gather "Could I take your name, please?"].
Proof.
  split.
  - edestruct (termination_threshold loads_empty_object
                 (sample_form "12 High Street") (sample_env "{}") two_exchanges)
      as (h' & _ & Hlen & _ & _ & Hge);
      [ vm_compute; reflexivity | vm_compute; reflexivity | reflexivity | ].
    apply Hge with (text := "{}") (fields := []).
    + rewrite Hlen. simpl. lia.
    + reflexivity.
    + reflexivity.
  - edestruct (termination_threshold loads_empty_object
                 (sample_form "I have a burst pipe!") (sample_env "{}")
                 started_call)
      as (h' & _ & Hlen & _ & Hlt & _);
      [ vm_compute; reflexivity | vm_compute; reflexivity | reflexivity | ].
    apply Hlt. rewrite Hlen. simpl. lia.
Defined.

(** ** Side effects of a termination trigger (C2) *)

Section counting.
Variable json_loads : string -> option json.
Variable counted : effect -> bool.
Hypothesis chat_not_counted : forall m, counted (ChatCompletion m) = false.
Hypothesis extract_not_counted : forall t, counted (ExtractCompletion t) = false.

Lemma at_most_same {A} (m : M A) n :
  (forall w, effects (fst (m w)) = effects w) -> at_most counted n m.
Proof. intros H w. rewrite H. lia. Qed.

Lemma at_most_bind {A B} (m : M A) (k : A -> M B) j n :
  at_most counted j m -> (forall a, at_most counted n (k a)) ->
  at_most counted (j + n) (bind m k).
Proof.
  intros Hm Hk w. unfold bind. specialize (Hm w).
  destruct (m w) as [w1 [x|a]]; simpl in *.
  - lia.
  - specialize (Hk a w1). lia.
Qed.

Lemma at_most_try_except {A} (m : M A) (handler : exn -> M A) j n :
  at_most counted j m -> (forall x, at_most counted n (handler x)) ->
  at_most counted (j + n) (try_except m handler).
Proof.
  intros Hm Hh w. unfold try_except. specialize (Hm w).
  destruct (m w) as [w1 [x|a]]; simpl in *.
  - specialize (Hh x w1). lia.
  - lia.
Qed.

Lemma at_most_emit ev : at_most counted (if counted ev then 1 else 0) (emit ev).
Proof.
  intros w. unfold emit. simpl. rewrite List.filter_app, length_app. simpl.
  destruct (counted ev); simpl; lia.
Qed.

Lemma at_most_emit_one ev n : at_most counted (S n) (emit ev).
Proof. intros w. pose proof (at_most_emit ev w). destruct (counted ev); lia. Qed.

Lemma at_most_emit_none ev n : counted ev = false -> at_most counted n (emit ev).
Proof. intros H w. pose proof (at_most_emit ev w). rewrite H in *. lia. Qed.

Lemma at_most_conversation_append sid m n :
  at_most counted n (conversation_append sid m).
Proof.
  apply at_most_same. intros w. unfold conversation_append.
  destruct (Dict.get _ _); reflexivity.
Qed.

Lemma at_most_call_update sid f n : at_most counted n (call_update sid f).
Proof.
  apply at_most_same. intros w. unfold call_update.
  destruct (Dict.get _ _); reflexivity.
Qed.

Lemma at_most_conversation_of sid n : at_most counted n (conversation_of sid).
Proof.
  apply at_most_same. intros w. unfold conversation_of.
  destruct (Dict.get _ _); reflexivity.
Qed.

Lemma at_most_call_of sid n : at_most counted n (call_of sid).
Proof.
  apply at_most_same. intros w. unfold call_of.
  destruct (Dict.get _ _); reflexivity.
Qed.

Lemma at_most_pure {A} (r : exn + A) n : at_most counted n (lift r).
Proof. now apply at_most_same. Qed.

Lemma at_most_get_world n : at_most counted n get_world.
Proof. now apply at_most_same. Qed.

Ltac quiet :=
  first
    [ apply at_most_conversation_append | apply at_most_call_update
    | apply at_most_conversation_of | apply at_most_call_of
    | apply at_most_get_world
    | apply (at_most_pure (inr _)) | apply (at_most_pure (inl _))
    | apply at_most_pure
    | apply at_most_emit_none; solve [auto] ].

Ltac quiet_steps n :=
  repeat first
    [ progress intros
    | match goal with
      | |- at_most _ _ (match ?x with _ => _ end) => destruct x
      end
    | apply (at_most_bind _ _ 0 n); [solve [quiet] | ]
    | solve [quiet] ].

Lemma at_most_get_ai_response e h s n : at_most counted n (get_ai_response e h s).
Proof. unfold get_ai_response. cbv zeta. quiet_steps n. Qed.

Lemma at_most_extract_booking_info e text n :
  at_most counted n (extract_booking_info json_loads e text).
Proof.
  unfold extract_booking_info. quiet_steps n.
  apply (at_most_try_except _ _ 0 n); quiet_steps n.
Qed.

Lemma at_most_send_confirmation_sms e sid n :
  at_most counted (S n) (send_confirmation_sms e sid).
Proof.
  unfold send_confirmation_sms. cbv zeta. quiet_steps (S n).
  replace (S n) with (S n + 0) by lia.
  apply at_most_try_except; [|intros; quiet].
  quiet_steps (S n). apply at_most_emit_one.
Qed.

Lemma at_most_send_confirmation_sms_quiet e sid n :
  (forall c p a i b, counted (SmsCreate c p a i b) = false) ->
  at_most counted n (send_confirmation_sms e sid).
Proof.
  intros Hq. unfold send_confirmation_sms. cbv zeta. quiet_steps n.
  apply (at_most_try_except _ _ 0 n); [quiet_steps 0 | quiet_steps n].
Qed.

Lemma at_most_save_to_dashboard e sid n :
  at_most counted (S n) (save_to_dashboard e sid).
Proof.
  unfold save_to_dashboard. cbv zeta. quiet_steps (S n). apply at_most_emit_one.
Qed.

Lemma at_most_save_to_dashboard_quiet e sid n :
  (forall c data, counted (DashboardPrint c data) = false) ->
  at_most counted n (save_to_dashboard e sid).
Proof. intros Hq. unfold save_to_dashboard. cbv zeta. quiet_steps n. Qed.

(** One invocation makes at most one of the counted calls, when the SMS
    or the dashboard record is not among the counted ones. *)
Lemma at_most_process_speech f e :
  (forall c p a i b, counted (SmsCreate c p a i b) = false) \/
  (forall c data, counted (DashboardPrint c data) = false) ->
  at_most counted 1 (process_speech json_loads f e).
Proof.
  intros Hq. unfold process_speech. cbv zeta.
  do 4 (apply (at_most_bind _ _ 0 1); [quiet_steps 0 | intros]).
  apply (at_most_bind _ _ 0 1); [apply at_most_get_ai_response | intros].
  do 3 (apply (at_most_bind _ _ 0 1); [quiet_steps 0 | intros]).
  destruct (6 <=? length _)%nat; [|quiet].
  apply (at_most_bind _ _ 0 1); [quiet | intros].
  apply (at_most_bind _ _ 0 1); [apply at_most_extract_booking_info | intros].
  apply (at_most_bind _ _ 0 1); [quiet | intros].
  destruct Hq as [Hq|Hq].
  - apply (at_most_bind _ _ 0 1);
      [now apply at_most_send_confirmation_sms_quiet | intros].
    apply (at_most_bind _ _ 1 0); [apply at_most_save_to_dashboard | intros; quiet].
  - apply (at_most_bind _ _ 1 0); [apply at_most_send_confirmation_sms | intros].
    apply (at_most_bind _ _ 0 0);
      [now apply at_most_save_to_dashboard_quiet | intros; quiet].
Qed.
End counting.

Lemma filter_length_app (counted : effect -> bool) (l more : list effect) :
  length (List.filter counted (l ++ more))
    = length (List.filter counted l) + length (List.filter counted more).
Proof. now rewrite List.filter_app, length_app. Qed.

(** C2, as the code has it.  One invocation of [process_speech] hands at
    most one SMS to the SMS client and publishes at most one dashboard
    record.  Nothing remembers that a session was wrapped up: every
    invocation that finds six turns or more, a replying oracle and a dict
    as booking record publishes one more record, and sends one more SMS
    when the destination passes the guard, whether or not the session was
    wrapped up before. *)
Theorem side_effects_per_trigger (json_loads : string -> option json)
    (f : form) (e : env) (w : world) :
  let sid := f_CallSid f in
  let w' := fst (process_speech json_loads f e w) in
  (sms_dispatches sid w' <= sms_dispatches sid w + 1 /\
   publications sid w' <= publications sid w + 1) /\
  (forall h d r text fields,
     Dict.get sid (conversations w) = Some h ->
     Dict.get sid (call_data w) = Some d ->
     chat_reply e = Some r ->
     6 <= length h + 2 ->
     extract_reply e = Some text ->
     booking_of json_loads text = JObj fields ->
     publications sid w' = publications sid w + 1 /\
     sms_dispatches sid w' =
       sms_dispatches sid w
       + (if usable (destination fields (Py.of_opt (cd_from d))) then 1 else 0)).
Proof.
  intros sid w'. split.
  - split.
    + apply (at_most_process_speech json_loads (is_sms sid)); auto.
    + apply (at_most_process_speech json_loads (is_publication sid)); auto.
  - intros h d r text fields Hc Hd Hr Hsix He Hb.
    pose proof (process_speech_turn json_loads f e w h d r Hc Hd Hr) as Hturn.
    cbv zeta in Hturn. fold sid in Hturn.
    apply Nat.leb_le in Hsix. rewrite Hsix in Hturn.
    match type of Hturn with
    | _ = wrap_up _ _ _ ?W =>
        destruct (wrap_up_dict json_loads e sid W _ (get_set_eq _ _ _)
                    text fields He Hb)
          as (w2 & data & sms & Hw & _ & _ & Heff & Hsms & _)
    end.
    rewrite Hw in Hturn. unfold w'. rewrite Hturn. simpl fst.
    assert (Hfrom : forall s, cd_from (after_turn s r d) = cd_from d)
      by (intros s; unfold after_turn; destruct (detect_emergency s); reflexivity).
    rewrite Hfrom in Hsms.
    unfold publications, sms_dispatches. rewrite Heff. cbn [effects].
    rewrite !filter_length_app. subst sms. cbv zeta.
    destruct (usable (destination fields (Py.of_opt (cd_from d))));
      simpl; rewrite ?bool_decide_eq_true_2 by reflexivity; simpl; lia.
Qed.

(** The sample call: its third utterance is a termination trigger, and it
    publishes one record and sends one SMS to the caller. *)
Lemma side_effects_per_trigger_witness :
  publications (Some "CA123")
    (fst (process_speech loads_empty_object (sample_form "12 High Street")
            (sample_env "{}") two_exchanges))
  = publications (Some "CA123") two_exchanges + 1.
Proof.
  edestruct (proj2 (side_effects_per_trigger loads_empty_object
                      (sample_form "12 High Street") (sample_env "{}") two_exchanges))
    as [Hpub _];
    [ vm_compute; reflexivity | vm_compute; reflexivity | reflexivity
    | | reflexivity | reflexivity | exact Hpub ].
  simpl. lia.
Defined.

(** The last utterance event of the sample call delivered twice: two SMS
    and two dashboard records for the one session. *)
Lemma duplicate_trigger_repeats_side_effects :
  sms_dispatches (Some "CA123") duplicated_call = 2 /\
  publications (Some "CA123") duplicated_call = 2 /\
  ~ at_most_once (Some "CA123") duplicated_call.
Proof.
  assert (Hs : sms_dispatches (Some "CA123") duplicated_call = 2)
    by (vm_compute; reflexivity).
  assert (Hp : publications (Some "CA123") duplicated_call = 2)
    by (vm_compute; reflexivity).
  split; [exact Hs|]. split; [exact Hp|].
  unfold at_most_once. rewrite Hs, Hp. lia.
Qed.

(** ** The booking record and the classifier (C6) *)

Lemma flagged_after_turn s r d :
  flagged (after_turn s r d) = flagged d || detect_emergency s.
Proof.
  unfold after_turn. destruct (detect_emergency s); unfold flagged; simpl.
  - now rewrite orb_true_r.
  - now rewrite orb_false_r.
Qed.

(** C6, as the code has it.  When a session terminates, the booking record
    stored in the session is what the extractor returned, unchanged: its
    'is_emergency' entry is the extractor's.  The finding of the classifier
    is in the session's boolean flag, which is set when it was set before
    or the classifier fires on the utterance; the dashboard record
    published at termination has status 'urgent' exactly when the flag is
    set, and urgency 'emergency' whenever it is set, whatever the extractor
    said. *)
Theorem booking_record_is_extractor_output (json_loads : string -> option json)
    (f : form) (e : env) (w : world) (h : list message) (d : call_record)
    (r text : string) (fields : list (string * json)) :
  Dict.get (f_CallSid f) (conversations w) = Some h ->
  Dict.get (f_CallSid f) (call_data w) = Some d ->
  chat_reply e = Some r ->
  6 <= length h + 2 ->
  extract_reply e = Some text ->
  booking_of json_loads text = JObj fields ->
  let sid := f_CallSid f in
  let s := match f_SpeechResult f with Some s => s | None => "" end in
  let w' := fst (process_speech json_loads f e w) in
  exists d' data before,
    snd (process_speech json_loads f e w) = inr [Say closing; Hangup] /\
    Dict.get sid (call_data w') = Some d' /\
    cd_booking_info d' = Some (JObj fields) /\
    flagged d' = flagged d || detect_emergency s /\
    effects w' = before ++ [DashboardPrint sid data] /\
    (db_status data = "urgent" <-> flagged d' = true) /\
    (flagged d' = true -> db_urgency data = "emergency").
Proof.
  intros Hc Hd Hr Hsix He Hb sid s w'.
  pose proof (process_speech_turn json_loads f e w h d r Hc Hd Hr) as Hturn.
  cbv zeta in Hturn. fold sid in Hturn. fold s in Hturn.
  apply Nat.leb_le in Hsix. rewrite Hsix in Hturn.
  match type of Hturn with
  | _ = wrap_up _ _ _ ?W =>
      destruct (wrap_up_dict json_loads e sid W _ (get_set_eq _ _ _)
                  text fields He Hb)
        as (w2 & data & sms & Hw & _ & Hcd & Heff & _ & Hst & Hur)
  end.
  rewrite Hw in Hturn. unfold w'. rewrite Hturn. simpl fst. simpl snd.
  exists (set_booking_info (JObj fields) (after_turn s r d)), data.
  eexists. split; [reflexivity|].
  split; [rewrite Hcd; apply get_set_eq|].
  split; [reflexivity|].
  split; [apply flagged_after_turn|].
  split.
  { rewrite Heff. rewrite app_comm_cons, app_assoc. reflexivity. }
  change (flagged (set_booking_info (JObj fields) (after_turn s r d)))
    with (flagged (after_turn s r d)).
  rewrite Hst, Hur. destruct (flagged (after_turn s r d)); simpl.
  - split; [split; reflexivity | reflexivity].
  - split; [split; discriminate | discriminate].
Qed.

(** The third utterance of the sample call: the record stored is the empty
    dict the extractor returned, and the dashboard record is urgent. *)
Lemma booking_record_is_extractor_output_witness :
  exists d',
    Dict.get (Some "CA123")
      (call_data (fst (process_speech loads_empty_object
                         (sample_form "12 High Street") (sample_env "{}")
                         two_exchanges))) = Some d' /\
    cd_booking_info d' = Some (JObj []) /\
    flagged d' = true.
Proof.
  edestruct (booking_record_is_extractor_output loads_empty_object
               (sample_form "12 High Street") (sample_env "{}") two_exchanges)
    as (d' & data & before & _ & Hd' & Hb & Hfl & _);
    [ vm_compute; reflexivity | vm_compute; reflexivity | reflexivity
    | simpl; lia | reflexivity | reflexivity | ].
  exists d'. split; [exact Hd'|]. split; [exact Hb|].
  rewrite Hfl. reflexivity.
Defined.

(** The caller said "burst pipe" and the classifier set the flag; the
    extraction answer was not JSON, so the record is the default one, whose
    'is_emergency' is "no". *)
Lemma booking_disagrees_with_flag :
  exists d,
    Dict.get (Some "CA123") (call_data unparsed_call) = Some d /\
    flagged d = true /\
    cd_booking_info d = Some default_booking /\
    ~ booking_reflects_flag d.
Proof.
  eexists. split; [vm_compute; reflexivity|].
  split; [reflexivity|]. split; [reflexivity|].
  intros H. specialize (H _ eq_refl). destruct H as [_ H].
  specialize (H eq_refl). discriminate H.
Qed.

(** The session of [unparsed_call] ended with the default record, whose
    'phone' is the text "Not provided", and the caller's number is known:
    no SMS went out during the call, and [send_confirmation_sms] sends
    none, to the caller or to anyone. *)
Lemma no_fallback_for_placeholder_phone :
  (exists d,
     Dict.get (Some "CA123") (call_data unparsed_call) = Some d /\
     cd_from d = Some "+441234567890" /\
     cd_booking_info d = Some default_booking) /\
  Py.get default_booking "phone" JNull = inr (JStr "Not provided") /\
  sms_dispatches (Some "CA123") unparsed_call = 0 /\
  send_confirmation_sms (sample_env "") (Some "CA123") unparsed_call
    = (unparsed_call, inr tt).
Proof.
  split; [|split; [|split]].
  - eexists. split; [vm_compute; reflexivity|]. split; reflexivity.
  - reflexivity.
  - vm_compute. reflexivity.
  - vm_compute. reflexivity.
Qed.

(** * Further properties of the handlers *)

(** ** [process_speech] on a stored call, whatever the oracles answer *)

Lemma get_ai_response_raises e h s w :
  chat_reply e = None ->
  get_ai_response e h s w
    = (with_effects w [ChatCompletion ([Message RSystem system_prompt] ++ h
                                        ++ [Message RUser s])], inl OracleError).
Proof. intros H. unfold get_ai_response, bind, emit. now rewrite H. Qed.

Lemma after_turn_utterance s r d :
  after_turn s r d = append_line ("Bot: " +:+ r) (after_utterance s d).
Proof. reflexivity. Qed.

(** Up to the question to the chat oracle. *)
Lemma process_speech_asking json_loads f e w h d :
  Dict.get (f_CallSid f) (conversations w) = Some h ->
  Dict.get (f_CallSid f) (call_data w) = Some d ->
  chat_reply e = None ->
  process_speech json_loads f e w
    = (asking (f_CallSid f)
         (match f_SpeechResult f with Some s => s | None => "" end) h d w,
       inl OracleError).
Proof.
  intros Hc Hd Hr. unfold process_speech, asking, after_utterance.
  set (sid := f_CallSid f) in *.
  set (s := match f_SpeechResult f with Some s => s | None => "" end).
  run_step conversation_append_known.
  run_step call_update_known.
  destruct (detect_emergency s).
  - run_step call_update_known.
    run_step conversation_of_known.
    erewrite bind_raise; [| apply get_ai_response_raises; exact Hr ].
    cbn [conversations call_data effects with_effects].
    now rewrite !set_set.
  - erewrite bind_ok; [| reflexivity ].
    run_step conversation_of_known.
    erewrite bind_raise; [| apply get_ai_response_raises; exact Hr ].
    reflexivity.
Qed.

(** The termination branch writes the booking record or nothing. *)
Lemma wrap_up_call_data json_loads e sid w d :
  Dict.get sid (call_data w) = Some d ->
  exists w' res rest,
    wrap_up json_loads e sid w = (w', res) /\
    conversations w' = conversations w /\
    effects w' = effects w ++ ExtractCompletion (transcript_of d) :: rest /\
    (res = inr [Say closing; Hangup] \/ res = inl OracleError \/
     res = inl AttributeError) /\
    (call_data w' = call_data w \/
     exists b, call_data w' = Dict.set sid (set_booking_info b d) (call_data w)).
Proof.
  intros Hd.
  destruct (extract_reply e) as [text|] eqn:He.
  - destruct (booking_of json_loads text) as [ | | | | | |fields] eqn:Hb.
    7: { destruct (wrap_up_dict json_loads e sid w d Hd text fields He Hb)
           as (w' & data & sms & Hw & Hc & Hcd & Hf & _).
         exists w', (inr [Say closing; Hangup]), (sms ++ [DashboardPrint sid data]).
         repeat split; eauto. }
    all: eexists _, _, []; split;
      [ apply (wrap_up_not_dict json_loads e sid w d Hd text He);
        rewrite Hb; discriminate
      | cbn [conversations call_data effects]; repeat split; eauto ].
  - eexists _, _, []. split; [exact (wrap_up_oracle_error json_loads e sid w d Hd He)|].
    cbn [conversations call_data effects with_effects]. repeat split; eauto.
Qed.

(** What one request for a stored call leaves behind. *)
Lemma process_speech_outcome json_loads f e w h d :
  Dict.get (f_CallSid f) (conversations w) = Some h ->
  Dict.get (f_CallSid f) (call_data w) = Some d ->
  let sid := f_CallSid f in
  let s := match f_SpeechResult f with Some s => s | None => "" end in
  exists w' res d' rest,
    process_speech json_loads f e w = (w', res) /\
    stored_call_outcome e res /\
    Dict.get sid (conversations w')
      = Some (h ++ Message RUser s :: map (Message RAssistant) (replies e)) /\
    Dict.get sid (call_data w') = Some d' /\
    cd_conversation d'
      = cd_conversation d ++ ("Customer: " +:+ s)
          :: map (fun r => "Bot: " +:+ r) (replies e) /\
    flagged d' = flagged d || detect_emergency s /\
    cd_from d' = cd_from d /\ cd_started_at d' = cd_started_at d /\
    cd_status d' = cd_status d /\ cd_ended_at d' = cd_ended_at d /\
    effects w' = effects w ++ ChatCompletion (chat_messages h s) :: rest.
Proof.
  intros Hc Hd sid s.
  assert (Hflag : flagged (after_utterance s d) = flagged d || detect_emergency s).
  { unfold after_utterance. destruct (detect_emergency s); unfold flagged; simpl.
    - now rewrite orb_true_r.
    - now rewrite orb_false_r. }
  assert (Hutt : cd_from (after_utterance s d) = cd_from d /\
                 cd_started_at (after_utterance s d) = cd_started_at d /\
                 cd_status (after_utterance s d) = cd_status d /\
                 cd_ended_at (after_utterance s d) = cd_ended_at d /\
                 cd_conversation (after_utterance s d)
                   = cd_conversation d ++ ["Customer: " +:+ s]).
  { unfold after_utterance. destruct (detect_emergency s); repeat split. }
  destruct Hutt as (Hfrom & Hstart & Hstat & Hend & Hconv).
  unfold replies.
  destruct (chat_reply e) as [r|] eqn:Hr.
  - pose proof (process_speech_turn json_loads f e w h d r Hc Hd Hr) as Hturn.
    cbv zeta in Hturn. fold sid in Hturn. fold s in Hturn.
    assert (Hline : cd_conversation (after_turn s r d)
                    = cd_conversation d ++ ["Customer: " +:+ s; "Bot: " +:+ r]).
    { rewrite after_turn_utterance. cbn [append_line cd_conversation].
      rewrite Hconv, <- app_assoc. reflexivity. }
    destruct (6 <=? length h + 2)%nat.
    + match type of Hturn with
      | _ = wrap_up _ _ _ ?W =>
          destruct (wrap_up_call_data json_loads e sid W (after_turn s r d))
            as (w' & res & rest & Hw & Hcv & Heff & Hres & Hcd);
            [ cbn [call_data]; apply get_set_eq | ]
      end.
      rewrite Hw in Hturn.
      assert (Hout : stored_call_outcome e res)
        by (unfold stored_call_outcome; tauto).
      destruct Hcd as [Hcd | [b Hcd]].
      * exists w', res, (after_turn s r d), (ExtractCompletion (transcript_of (after_turn s r d)) :: rest).
        rewrite Hcv, Hcd, Heff. cbn [conversations call_data effects].
        rewrite !get_set_eq, <- app_assoc.
        repeat split; auto; now rewrite flagged_after_turn.
      * exists w', res, (set_booking_info b (after_turn s r d)),
          (ExtractCompletion (transcript_of (after_turn s r d)) :: rest).
        rewrite Hcv, Hcd, Heff. cbn [conversations call_data effects].
        rewrite !get_set_eq, <- app_assoc.
        repeat split; auto;
          change (flagged (set_booking_info b (after_turn s r d)))
            with (flagged (after_turn s r d));
          now rewrite flagged_after_turn.
    + eexists _, _, (after_turn s r d), []. split; [exact Hturn|].
      cbn [conversations call_data effects]. rewrite !get_set_eq.
      repeat split; auto; try (now rewrite flagged_after_turn).
      unfold stored_call_outcome. right. right. left. eauto.
  - rewrite (process_speech_asking json_loads f e w h d Hc Hd Hr).
    fold sid. fold s.
    eexists _, _, (after_utterance s d), []. split; [reflexivity|].
    unfold asking. cbn [conversations call_data effects]. rewrite !get_set_eq.
    repeat split; auto. unfold stored_call_outcome. now left.
Qed.

Lemma same_calls_known w sid h :
  same_calls w -> Dict.get sid (conversations w) = Some h ->
  exists d, Dict.get sid (call_data w) = Some d.
Proof.
  intros Hinv Hc.
  assert (Hin : sid ∈ dict_dom (conversations w))
    by (apply elem_of_dict_dom; rewrite Hc; eauto).
  rewrite Hinv in Hin. apply elem_of_dict_dom in Hin as [d Hd]. eauto.
Qed.

(** X1.  For a stored call, [process_speech] asks the chat oracle first,
    whatever happens afterwards, and the messages it sends are the system
    prompt, the stored history, and the caller's utterance twice: once as
    the last message of the history it was just appended to, once more by
    [get_ai_response]. *)
Theorem chat_request_content (json_loads : string -> option json)
    (f : form) (e : env) (w : world) (h : list message) (d : call_record) :
  Dict.get (f_CallSid f) (conversations w) = Some h ->
  Dict.get (f_CallSid f) (call_data w) = Some d ->
  let s := match f_SpeechResult f with Some s => s | None => "" end in
  exists rest,
    effects (fst (process_speech json_loads f e w))
      = effects w
        ++ ChatCompletion
             (Message RSystem system_prompt
                :: h ++ [Message RUser s; Message RUser s])
        :: rest.
Proof.
  intros Hc Hd s.
  destruct (process_speech_outcome json_loads f e w h d Hc Hd)
    as (w' & res & d' & rest & Hps & _ & _ & _ & _ & _ & _ & _ & _ & _ & Heff).
  exists rest. rewrite Hps. simpl fst. rewrite Heff. fold s.
  unfold chat_messages. simpl. now rewrite <- app_assoc.
Qed.

(** The first utterance of the sample call. *)
Lemma chat_request_content_witness :
  exists rest,
    effects (fst (process_speech loads_empty_object
                    (sample_form "I have a burst pipe!") (sample_env "{}")
                    started_call))
      = effects started_call
        ++ ChatCompletion
             (Message RSystem system_prompt
                :: [] ++ [Message RUser "I have a burst pipe!";
                          Message RUser "I have a burst pipe!"])
        :: rest.
Proof.
  apply (chat_request_content loads_empty_object
           (sample_form "I have a burst pipe!") (sample_env "{}") started_call
           [] (new_call (Some "+441234567890") 0)).
  - vm_compute. reflexivity.
  - vm_compute. reflexivity.
Defined.

(** X2.  When the chat oracle fails for a stored call, [process_speech]
    raises, and what it did before asking stays: the caller's utterance is
    in the history and in the transcript, with no system turn after it, and
    the emergency flag is set if the classifier fired.  Nothing of the
    termination branch ran. *)
Theorem chat_failure_keeps_utterance (json_loads : string -> option json)
    (f : form) (e : env) (w : world) (h : list message) (d : call_record) :
  Dict.get (f_CallSid f) (conversations w) = Some h ->
  Dict.get (f_CallSid f) (call_data w) = Some d ->
  chat_reply e = None ->
  let sid := f_CallSid f in
  let s := match f_SpeechResult f with Some s => s | None => "" end in
  let w' := fst (process_speech json_loads f e w) in
  snd (process_speech json_loads f e w) = inl OracleError /\
  Dict.get sid (conversations w') = Some (h ++ [Message RUser s]) /\
  (exists d',
     Dict.get sid (call_data w') = Some d' /\
     cd_conversation d' = cd_conversation d ++ ["Customer: " +:+ s] /\
     flagged d' = flagged d || detect_emergency s /\
     cd_booking_info d' = cd_booking_info d) /\
  new_effects w w' = [ChatCompletion (chat_messages h s)].
Proof.
  intros Hc Hd Hr sid s w'. unfold w'.
  rewrite (process_speech_asking json_loads f e w h d Hc Hd Hr).
  fold sid. fold s. simpl fst. simpl snd. unfold asking.
  cbn [conversations call_data effects].
  split; [reflexivity|]. split; [apply get_set_eq|]. split.
  - exists (after_utterance s d). split; [apply get_set_eq|].
    unfold after_utterance.
    destruct (detect_emergency s); unfold flagged; simpl;
      rewrite ?orb_true_r, ?orb_false_r; repeat split.
  - now apply new_effects_app.
Qed.

(** The second utterance of the sample call, with the oracle down. *)
Lemma chat_failure_keeps_utterance_witness :
  snd (process_speech loads_empty_object (sample_form "Bob Smith")
         {| clock := fun _ => 0%Z; chat_reply := None;
            extract_reply := None; sms_delivered := false |}
         one_exchange) = inl OracleError.
Proof.
  edestruct (chat_failure_keeps_utterance loads_empty_object
               (sample_form "Bob Smith")
               {| clock := fun _ => 0%Z; chat_reply := None;
                  extract_reply := None; sms_delivered := false |}
               one_exchange) as [Hres _];
    [ vm_compute; reflexivity | vm_compute; reflexivity | reflexivity
    | exact Hres ].
Defined.

(** X3.  For a stored call the emergency flag after [process_speech] is
    the flag before or the classifier's answer on the utterance, whichever
    way the request ends: the flag is written before either oracle is
    asked, so an oracle failure or a bad booking record does not lose it. *)
Theorem emergency_recorded_whatever_follows (json_loads : string -> option json)
    (f : form) (e : env) (w : world) (h : list message) (d : call_record) :
  Dict.get (f_CallSid f) (conversations w) = Some h ->
  Dict.get (f_CallSid f) (call_data w) = Some d ->
  flag_of (f_CallSid f) (fst (process_speech json_loads f e w))
    = flag_of (f_CallSid f) w
      || detect_emergency (match f_SpeechResult f with Some s => s | None => "" end).
Proof.
  intros Hc Hd.
  destruct (process_speech_outcome json_loads f e w h d Hc Hd)
    as (w' & res & d' & rest & Hps & _ & _ & Hd' & _ & Hfl & _).
  rewrite Hps. simpl fst. unfold flag_of. now rewrite Hd', Hd, Hfl.
Qed.

(** A caller reports flooding while both oracles are down. *)
Lemma emergency_recorded_whatever_follows_witness :
  flag_of (Some "CA123")
    (fst (process_speech loads_empty_object (sample_form "The cellar is flooding")
            {| clock := fun _ => 0%Z; chat_reply := None;
               extract_reply := None; sms_delivered := false |}
            started_call)) = true.
Proof.
  erewrite (emergency_recorded_whatever_follows loads_empty_object
              (sample_form "The cellar is flooding") _ started_call);
    [ reflexivity | vm_compute; reflexivity | vm_compute; reflexivity ].
Defined.

(** X4.  In a world where the two stores know the same calls,
    [process_speech] raises [KeyError] exactly for a call identifier that
    is not stored; for a stored one it ends in one of four ways: the chat
    or extraction oracle failed, the booking record was not a dict, the
    gather response with the oracle's reply, or the closing response. *)
Theorem key_error_iff_unknown (json_loads : string -> option json)
    (f : form) (e : env) (w : world) :
  same_calls w ->
  (snd (process_speech json_loads f e w) = inl KeyError <->
   Dict.get (f_CallSid f) (conversations w) = None) /\
  (Dict.get (f_CallSid f) (conversations w) <> None ->
   stored_call_outcome e (snd (process_speech json_loads f e w))).
Proof.
  intros Hinv.
  destruct (Dict.get (f_CallSid f) (conversations w)) as [h|] eqn:Hc.
  - destruct (same_calls_known w _ h Hinv Hc) as [d Hd].
    destruct (process_speech_outcome json_loads f e w h d Hc Hd)
      as (w' & res & d' & rest & Hps & Hout & _).
    rewrite Hps. simpl snd. split; [|intros _; exact Hout].
    split; [|discriminate]. intros ->.
    destruct Hout as [Ho|[Ho|[(r & _ & Ho)|Ho]]]; discriminate.
  - split; [|congruence]. split; [reflexivity|]. intros _.
    unfold process_speech, bind.
    now rewrite (conversation_append_unknown _ _ _ Hc).
Qed.

(** A stored call and an unknown one, after the first exchange of the
    sample call. *)
Lemma key_error_iff_unknown_witness :
  snd (process_speech loads_empty_object unknown_form (sample_env "{}")
         one_exchange) = inl KeyError /\
  stored_call_outcome (sample_env "{}")
    (snd (process_speech loads_empty_object (sample_form "Bob Smith")
            (sample_env "{}") one_exchange)).
Proof.
  assert (Hinv : same_calls one_exchange) by (vm_compute; reflexivity).
  split.
  - apply (proj1 (key_error_iff_unknown loads_empty_object unknown_form
                    (sample_env "{}") one_exchange Hinv)).
    vm_compute. reflexivity.
  - apply (proj2 (key_error_iff_unknown loads_empty_object
                    (sample_form "Bob Smith") (sample_env "{}") one_exchange Hinv)).
    vm_compute. discriminate.
Defined.

(** ** What a session keeps over any sequence of requests *)

Lemma updater_grows f d :
  updater f ->
  cd_conversation d `prefix_of` cd_conversation (f d) /\
  cd_from (f d) = cd_from d /\ cd_started_at (f d) = cd_started_at d /\
  (flagged d = true -> flagged (f d) = true).
Proof.
  intros Hf. split; [|split; [|split]].
  - destruct Hf; simpl; try reflexivity. now exists [line].
  - now destruct Hf.
  - now destruct Hf.
  - now apply updater_keeps_flag.
Qed.

Lemma grows_refl sid w : grows sid w w.
Proof.
  split.
  - intros h Hh. exists h. split; [exact Hh | reflexivity].
  - intros d Hd. exists d. repeat split; auto.
Qed.

Lemma grows_trans sid a b c : grows sid a b -> grows sid b c -> grows sid a c.
Proof.
  intros [Hab1 Hab2] [Hbc1 Hbc2]. split.
  - intros h Hh. destruct (Hab1 h Hh) as (h1 & Hh1 & Hp1).
    destruct (Hbc1 h1 Hh1) as (h2 & Hh2 & Hp2).
    exists h2. split; [exact Hh2 | now transitivity h1].
  - intros d Hd. destruct (Hab2 d Hd) as (d1 & Hd1 & Hp1 & Hf1 & Hs1 & Hg1).
    destruct (Hbc2 d1 Hd1) as (d2 & Hd2 & Hp2 & Hf2 & Hs2 & Hg2).
    exists d2. split; [exact Hd2|]. split; [now transitivity (cd_conversation d1)|].
    split; [congruence|]. split; [congruence|]. auto.
Qed.

Lemma grows_dispatch json_loads sid r :
  rq_endpoint r <> EVoice -> preserves (grows sid) (dispatch json_loads r).
Proof.
  intros Hep.
  apply preserves_dispatch with (touches := fun _ => True); try exact I; try exact Hep.
  - apply grows_refl.
  - apply grows_trans.
  - intros sid' m _ w. unfold conversation_append.
    destruct (Dict.get sid' (conversations w)) as [h0|] eqn:Hg; simpl;
      [|apply grows_refl].
    split; simpl.
    + intros h Hh. destruct (decide (sid' = sid)) as [->|Hne].
      * rewrite get_set_eq. exists (h0 ++ [m]). split; [reflexivity|].
        assert (h = h0) by congruence. subst. now exists [m].
      * rewrite get_set_ne by assumption. exists h. split; [exact Hh | reflexivity].
    + intros d Hd. exists d. repeat split; auto.
  - intros sid' f _ Hf w. unfold call_update.
    destruct (Dict.get sid' (call_data w)) as [d0|] eqn:Hg; simpl;
      [|apply grows_refl].
    split; simpl.
    + intros h Hh. exists h. split; [exact Hh | reflexivity].
    + intros d Hd. destruct (decide (sid' = sid)) as [->|Hne].
      * rewrite get_set_eq. exists (f d0). split; [reflexivity|].
        assert (d = d0) by congruence. subst. now apply updater_grows.
      * rewrite get_set_ne by assumption. exists d. repeat split; auto.
  - intros ev w. split; simpl.
    + intros h Hh. exists h. split; [exact Hh | reflexivity].
    + intros d Hd. exists d. repeat split; auto.
Qed.

Lemma grows_voice f e sid w :
  same_calls w -> grows sid w (fst (voice f e w)).
Proof.
  intros Hinv. rewrite voice_world. simpl.
  destruct (Dict.mem (f_CallSid f) (conversations w)) eqn:Hmem; [apply grows_refl|].
  assert (Hnone : Dict.get (f_CallSid f) (conversations w) = None).
  { unfold Dict.mem in Hmem. now destruct (Dict.get _ (conversations w)). }
  assert (Hcd : Dict.get (f_CallSid f) (call_data w) = None).
  { destruct (Dict.get (f_CallSid f) (call_data w)) eqn:Hg; [|reflexivity].
    assert (Hin : f_CallSid f ∈ dict_dom (call_data w))
      by (apply elem_of_dict_dom; rewrite Hg; eauto).
    rewrite <- Hinv in Hin. apply elem_of_dict_dom in Hin as [x Hx]. congruence. }
  split; simpl.
  - intros h Hh. destruct (decide (f_CallSid f = sid)) as [Heq|Hne].
    + rewrite Heq in Hnone. congruence.
    + rewrite get_set_ne by assumption. exists h. split; [exact Hh | reflexivity].
  - intros d Hd. destruct (decide (f_CallSid f = sid)) as [Heq|Hne].
    + rewrite Heq in Hcd. congruence.
    + rewrite get_set_ne by assumption. exists d. repeat split; auto.
Qed.

Lemma grows_handle json_loads sid r w :
  same_calls w -> grows sid w (handle json_loads w r).
Proof.
  intros Hinv. destruct (decide (rq_endpoint r = EVoice)) as [Hep|Hep].
  - rewrite (handle_voice _ _ _ Hep). now apply grows_voice.
  - exact (grows_dispatch json_loads sid r Hep w).
Qed.

Lemma sessions_append_only_aux json_loads sid rs w :
  same_calls w -> grows sid w (run json_loads rs w).
Proof.
  revert w. induction rs as [|r rs IH]; intros w Hinv; simpl.
  - apply grows_refl.
  - eapply grows_trans; [now apply grows_handle|].
    apply IH. now apply same_calls_handle.
Qed.

(** X5.  Sessions are append-only.  From a world where the two stores know
    the same calls, after any sequence of requests a stored call still has
    its message history and its transcript with, at most, more at the end;
    its caller number and its start time are the ones it was created with,
    and a set emergency flag is still set.  No request shortens, rewrites
    or removes what a session holds of the dialogue. *)
Theorem sessions_append_only (json_loads : string -> option json)
    (call_sid : call_id) (rs : list request) (w : world) :
  same_calls w -> grows call_sid w (run json_loads rs w).
Proof.
  revert w. induction rs as [|r rs IH]; intros w Hinv; simpl.
  - apply grows_refl.
  - apply grows_trans with (b := handle json_loads w r).
    + now apply grows_handle.
    + apply IH. now apply same_calls_handle.
Qed.

(** The history of CA123 after the first exchange is a prefix of its
    history after the rest of the call and a status update. *)
Lemma sessions_append_only_witness :
  grows (Some "CA123") one_exchange
    (run loads_empty_object
       [sample_request EProcessSpeech "Bob Smith" "{}";
        sample_request EVoice "" "";
        sample_request ECallStatus "" "";
        sample_request EProcessSpeech "12 High Street" "{}"] one_exchange).
Proof.
  apply (sessions_append_only loads_empty_object (Some "CA123") _ one_exchange).
  vm_compute. reflexivity.
Defined.

(** X13.  The threshold is final.  Once a stored call has four messages or
    more, so that the next system turn is the sixth at least, no later
    [process_speech] for it returns a gather response, whatever requests
    came in between: every further utterance runs into the termination
    branch again (or into an oracle failure). *)
Theorem no_gather_after_threshold (json_loads : string -> option json)
    (rs : list request) (w : world) (h : list message) (f : form) (e : env) :
  same_calls w ->
  Dict.get (f_CallSid f) (conversations w) = Some h ->
  4 <= length h ->
  forall r,
    snd (process_speech json_loads f e (run json_loads rs w)) <> inr [Gather r].
Proof.
  intros Hinv Hc Hlen r.
  destruct (sessions_append_only_aux json_loads (f_CallSid f) rs w Hinv) as [Hg _].
  destruct (Hg h Hc) as (h' & Hc' & [more ->]).
  destruct (same_calls_known _ _ _ (same_calls_run json_loads rs w Hinv) Hc')
    as [d' Hd'].
  destruct (chat_reply e) as [r0|] eqn:Hr.
  - pose proof (process_speech_turn json_loads f e _ _ d' r0 Hc' Hd' Hr) as Hturn.
    cbv zeta in Hturn.
    assert (Hsix : (6 <=? length (h ++ more) + 2)%nat = true)
      by (apply Nat.leb_le; rewrite length_app; lia).
    rewrite Hsix in Hturn.
    match type of Hturn with
    | _ = wrap_up _ _ ?S ?W =>
        destruct (wrap_up_call_data json_loads e S W _ (get_set_eq _ _ _))
          as (w2 & res & rest & Hw & _ & _ & Hres & _)
    end.
    rewrite Hturn, Hw. simpl snd.
    destruct Hres as [->|[->| ->]]; discriminate.
  - rewrite (process_speech_asking json_loads f e _ _ d' Hc' Hd' Hr). discriminate.
Qed.

(** After two exchanges CA123 has four messages; a status update later,
    the next utterance is not answered with a gather of the oracle's reply. *)
Lemma no_gather_after_threshold_witness :
  snd (process_speech loads_empty_object (sample_form "12 High Street")
         (sample_env "{}")
         (run loads_empty_object [sample_request ECallStatus "" ""] two_exchanges))
    <> inr [Gather "Could I take your name, please?"].
Proof.
  eapply (no_gather_after_threshold loads_empty_object
            [sample_request ECallStatus "" ""] two_exchanges _
            (sample_form "12 High Street") (sample_env "{}")).
  - vm_compute. reflexivity.
  - vm_compute. reflexivity.
  - simpl. lia.
Defined.

(** ** The transcript follows the history *)

Lemma fst_bind_ret {A B} (m : M A) (g : A -> B) w :
  fst (bind m (fun a => ret (g a)) w) = fst (m w).
Proof. unfold bind. destruct (m w) as [w' [x|a]]; reflexivity. Qed.

Lemma handle_endpoint json_loads r w :
  handle json_loads w r =
    match rq_endpoint r with
    | EVoice => fst (voice (rq_form r) (rq_env r) w)
    | EProcessSpeech => fst (process_speech json_loads (rq_form r) (rq_env r) w)
    | ECallStatus => fst (call_status (rq_form r) (rq_env r) w)
    | EGetCalls => w
    | EHealth => w
    end.
Proof.
  unfold handle, dispatch.
  destruct (rq_endpoint r); rewrite fst_bind_ret; reflexivity.
Qed.

(** What a status update does to the world. *)
Lemma call_status_world f e w :
  call_status f e w =
    (match Dict.get (f_CallSid f) (call_data w) with
     | Some d =>
         {| conversations := conversations w;
            call_data := Dict.set (f_CallSid f)
                           (set_status (f_CallStatus f) (clock e 0) d) (call_data w);
            effects := effects w |}
     | None => w
     end, inr tt).
Proof.
  unfold call_status, bind, get_world, Dict.mem, call_update.
  destruct (Dict.get (f_CallSid f) (call_data w)) eqn:Hd; [|reflexivity].
  now rewrite Hd.
Qed.

Lemma renders_replies rs :
  Forall2 renders (map (Message RAssistant) rs) (map (fun r => "Bot: " +:+ r) rs).
Proof.
  induction rs as [|x xs IH]; simpl.
  - apply List.Forall2_nil.
  - apply List.Forall2_cons; [apply renders_assistant | exact IH].
Qed.

Lemma in_step_handle json_loads r w :
  same_calls w -> in_step w -> in_step (handle json_loads w r).
Proof.
  intros Hinv Hstep sid h' d' Hh' Hd'.
  destruct (decide (f_CallSid (rq_form r) = sid)) as [Heq|Hne].
  2: { pose proof (session_kept_dispatch json_loads sid r Hne w) as Hk.
       unfold session_kept, session_of in Hk. fold (handle json_loads w r) in Hk.
       injection Hk as Hk1 Hk2. rewrite Hk1 in Hh'. rewrite Hk2 in Hd'.
       exact (Hstep sid h' d' Hh' Hd'). }
  rewrite handle_endpoint in Hh', Hd'.
  destruct (rq_endpoint r).
  - rewrite voice_world in Hh', Hd'. simpl in Hh', Hd'.
    destruct (Dict.mem (f_CallSid (rq_form r)) (conversations w)).
    + exact (Hstep sid h' d' Hh' Hd').
    + simpl in Hh', Hd'. rewrite Heq in Hh', Hd'.
      rewrite get_set_eq in Hh'. rewrite get_set_eq in Hd'.
      injection Hh' as <-. injection Hd' as <-. constructor.
  - destruct (Dict.get (f_CallSid (rq_form r)) (conversations w)) as [h|] eqn:Hc.
    + destruct (same_calls_known w _ h Hinv Hc) as [d Hd].
      destruct (process_speech_outcome json_loads (rq_form r) (rq_env r) w h d Hc Hd)
        as (w' & res & d1 & rest & Hps & _ & Hh1 & Hd1 & Hconv & _).
      rewrite Hps in Hh', Hd'. simpl fst in Hh', Hd'.
      rewrite Heq in Hh1, Hd1. rewrite Hh1 in Hh'. rewrite Hd1 in Hd'.
      injection Hh' as <-. injection Hd' as <-. rewrite Hconv.
      apply Forall2_app; [exact (Hstep _ h d Hc Hd)|].
      apply List.Forall2_cons; [apply renders_user | apply renders_replies].
    + unfold process_speech, bind in Hh', Hd'.
      rewrite (conversation_append_unknown _ _ _ Hc) in Hh', Hd'.
      exact (Hstep sid h' d' Hh' Hd').
  - rewrite call_status_world in Hh', Hd'. simpl in Hh', Hd'.
    destruct (Dict.get (f_CallSid (rq_form r)) (call_data w)) as [d|] eqn:Hd.
    + simpl in Hh', Hd'. rewrite Heq in Hd', Hd. rewrite get_set_eq in Hd'.
      injection Hd' as <-. exact (Hstep sid h' d Hh' Hd).
    + exact (Hstep sid h' d' Hh' Hd').
  - exact (Hstep sid h' d' Hh' Hd').
  - exact (Hstep sid h' d' Hh' Hd').
Qed.

(** X6.  The transcript follows the history.  From a world where the two
    stores know the same calls and every transcript matches its history,
    after any sequence of requests every stored call has one transcript
    line per stored message, in the same order: "Customer: " and the text
    for a caller's turn, "Bot: " and the text for a system turn.  So the
    stored history holds caller and system turns only (the system prompt is
    never stored), and this also holds after requests that raised. *)
Theorem transcript_follows_history (json_loads : string -> option json)
    (rs : list request) (w : world) :
  same_calls w -> in_step w -> in_step (run json_loads rs w).
Proof.
  revert w. induction rs as [|r rs IH]; intros w Hinv Hstep; simpl; [exact Hstep|].
  apply IH; [now apply same_calls_handle | now apply in_step_handle].
Qed.

(** The sample call from the start of the process. *)
Lemma transcript_follows_history_witness :
  in_step (run loads_empty_object sample_call initial_world).
Proof.
  apply (transcript_follows_history loads_empty_object sample_call initial_world).
  - reflexivity.
  - intros sid h d Hh. discriminate Hh.
Defined.

(** ** Status updates *)

(** X7.  A status update for a stored call writes the status it brings
    (whatever it is, also none) and the time of the request as end time,
    and nothing else: history, transcript, flag, booking record, caller and
    start time stay, and no collaborator is called.  Of two updates for the
    same call the later wins: the world after both is the world after the
    second alone. *)
Theorem status_update_last_wins (f1 f2 : form) (e1 e2 : env) (w : world) :
  f_CallSid f1 = f_CallSid f2 ->
  fst (call_status f2 e2 (fst (call_status f1 e1 w))) = fst (call_status f2 e2 w) /\
  conversations (fst (call_status f2 e2 w)) = conversations w /\
  effects (fst (call_status f2 e2 w)) = effects w /\
  (forall d,
     Dict.get (f_CallSid f2) (call_data w) = Some d ->
     exists d',
       Dict.get (f_CallSid f2) (call_data (fst (call_status f2 e2 w))) = Some d' /\
       cd_status d' = Some (f_CallStatus f2) /\
       cd_ended_at d' = Some (clock e2 0) /\
       cd_conversation d' = cd_conversation d /\
       cd_is_emergency d' = cd_is_emergency d /\
       cd_booking_info d' = cd_booking_info d /\
       cd_from d' = cd_from d /\
       cd_started_at d' = cd_started_at d).
Proof.
  intros Heq. rewrite !call_status_world. simpl fst. rewrite Heq.
  destruct (Dict.get (f_CallSid f2) (call_data w)) as [d|] eqn:Hd.
  - cbn [call_data conversations effects]. rewrite get_set_eq, set_set.
    split; [reflexivity|]. split; [reflexivity|]. split; [reflexivity|].
    intros d0 [= <-]. exists (set_status (f_CallStatus f2) (clock e2 0) d).
    rewrite get_set_eq. repeat split.
  - rewrite Hd. split; [reflexivity|]. split; [reflexivity|].
    split; [reflexivity|]. intros d0 Hd0. discriminate.
Qed.

(** CA123 is reported ringing, then completed. *)
Lemma status_update_last_wins_witness :
  fst (call_status completed_form (sample_env "")
         (fst (call_status ringing_form (sample_env "") one_exchange)))
    = fst (call_status completed_form (sample_env "") one_exchange).
Proof.
  apply (proj1 (status_update_last_wins ringing_form completed_form
                  (sample_env "") (sample_env "") one_exchange eq_refl)).
Defined.

(** ** The listing *)

Lemma call_entry_of_lists item c : call_entry_of item = inr c -> lists item c.
Proof.
  destruct item as [sid d]. unfold call_entry_of.
  destruct (booking_info_of (Some d)); simpl; try discriminate.
  intros [= <-]. unfold lists. simpl.
  destruct (flagged d); repeat split; auto; discriminate.
Qed.

Lemma call_entry_of_dict item c :
  call_entry_of item = inr c ->
  exists fields, booking_info_of (Some (snd item)) = JObj fields.
Proof.
  destruct item as [sid d]. unfold call_entry_of. simpl snd.
  destruct (booking_info_of (Some d)); simpl; try discriminate. eauto.
Qed.

Lemma call_entries_lists items cs :
  call_entries items = inr cs -> Forall2 lists items cs.
Proof.
  revert cs. induction items as [|item items IH]; intros cs; simpl.
  - intros [= <-]. apply List.Forall2_nil.
  - destruct (call_entry_of item) eqn:Hi; [discriminate|].
    destruct (call_entries items); [discriminate|].
    intros [= <-]. apply List.Forall2_cons; [now apply call_entry_of_lists | now apply IH].
Qed.

Lemma call_entries_dicts items cs :
  call_entries items = inr cs ->
  Forall (fun item => exists fields, booking_info_of (Some (snd item)) = JObj fields)
    items.
Proof.
  revert cs. induction items as [|item items IH]; intros cs; simpl.
  - intros _. apply List.Forall_nil.
  - destruct (call_entry_of item) eqn:Hi; [discriminate|].
    destruct (call_entries items) eqn:Hr; [discriminate|].
    intros _. apply List.Forall_cons; [now apply call_entry_of_dict in Hi | eauto].
Qed.

(** X8.  When the read endpoint returns its list, it changed nothing and
    the list has one entry per stored call, in the order the calls were
    created.  An entry carries the call identifier, the start time and the
    transcript of its call; its urgency is 'emergency' exactly when the
    session's flag is set, whatever the booking record says, and 'normal'
    otherwise; its status is the last status update, or 'in-progress' when
    there was none. *)
Theorem listing_shows_every_call (w : world) (cs : list call_entry) :
  snd (get_calls w) = inr cs ->
  fst (get_calls w) = w /\
  Forall2 lists (call_data w) cs /\
  map ce_id cs = Dict.keys (call_data w).
Proof.
  unfold get_calls, bind, get_world, lift. simpl.
  intros Hcs. split; [reflexivity|].
  split; [now apply call_entries_lists | now apply call_entries_ids].
Qed.

(** The listing after the sample call: one entry, for CA123. *)
Lemma listing_shows_every_call_witness :
  exists cs,
    snd (get_calls completed_call) = inr cs /\
    map ce_id cs = [Some "CA123"].
Proof.
  assert (H : exists cs, snd (get_calls completed_call) = inr cs)
    by (eexists; vm_compute; reflexivity).
  destruct H as [cs H]. exists cs. split; [exact H|].
  destruct (listing_shows_every_call completed_call cs H) as (_ & _ & Hids).
  rewrite Hids. vm_compute. reflexivity.
Defined.

(** ** A booking record that is not a dict *)

Lemma get_In {V} (k : call_id) (v : V) (d : list (call_id * V)) :
  Dict.get k d = Some v -> In (k, v) d.
Proof.
  induction d as [|[k' v'] d IH]; simpl; [discriminate|].
  destruct (decide (k = k')) as [->|Hne].
  - intros [= ->]. now left.
  - intros Hg. right. now apply IH.
Qed.

Lemma call_entries_not_dict items sid d :
  In (sid, d) items ->
  (forall fields, booking_info_of (Some d) <> JObj fields) ->
  call_entries items = inl AttributeError.
Proof.
  intros Hin Hnd. destruct (call_entries items) as [x|cs] eqn:Hcs.
  - now rewrite (call_entries_error _ _ Hcs).
  - apply call_entries_dicts in Hcs.
    rewrite List.Forall_forall in Hcs. destruct (Hcs _ Hin) as [fields Hf].
    now contradiction (Hnd fields).
Qed.

(** X9.  [extract_booking_info] returns whatever [json.loads] accepts.
    When the reply is JSON but not an object, the termination branch stores
    it as the booking record and then raises [AttributeError] at the first
    [booking_info.get]: the caller gets no closing response, no SMS is sent
    and no dashboard record is published.  In the world this leaves, the
    read endpoint raises [AttributeError] instead of listing the calls. *)
Theorem non_dict_booking_breaks_listing (json_loads : string -> option json)
    (f : form) (e : env) (w : world) (h : list message) (d : call_record)
    (r text : string) :
  Dict.get (f_CallSid f) (conversations w) = Some h ->
  Dict.get (f_CallSid f) (call_data w) = Some d ->
  chat_reply e = Some r ->
  6 <= length h + 2 ->
  extract_reply e = Some text ->
  (forall fields, booking_of json_loads text <> JObj fields) ->
  let sid := f_CallSid f in
  let s := match f_SpeechResult f with Some s => s | None => "" end in
  let w' := fst (process_speech json_loads f e w) in
  snd (process_speech json_loads f e w) = inl AttributeError /\
  (exists d',
     Dict.get sid (call_data w') = Some d' /\
     cd_booking_info d' = Some (booking_of json_loads text)) /\
  new_effects w w' =
    [ChatCompletion (chat_messages h s);
     ExtractCompletion (transcript_of (after_turn s r d))] /\
  get_calls w' = (w', inl AttributeError).
Proof.
  intros Hc Hd Hr Hsix He Hnd sid s w'.
  pose proof (process_speech_turn json_loads f e w h d r Hc Hd Hr) as Hturn.
  cbv zeta in Hturn. fold sid in Hturn. fold s in Hturn.
  apply Nat.leb_le in Hsix. rewrite Hsix in Hturn.
  match type of Hturn with
  | _ = wrap_up _ _ _ ?W =>
      pose proof (wrap_up_not_dict json_loads e sid W (after_turn s r d)
                    (get_set_eq _ _ _) text He Hnd) as Hw
  end.
  rewrite Hw in Hturn. unfold w'. rewrite Hturn. simpl fst. simpl snd.
  cbn [conversations call_data effects].
  split; [reflexivity|]. split.
  { eexists. split; [apply get_set_eq | reflexivity]. }
  split.
  { apply new_effects_app. cbn [effects]. now rewrite <- app_assoc. }
  unfold get_calls, bind, get_world, lift. cbn [call_data].
  erewrite call_entries_not_dict; [reflexivity | | ].
  - apply get_In. apply get_set_eq.
  - exact Hnd.
Qed.

(** The third utterance of the sample call, when the extraction oracle
    answers null. *)
Lemma non_dict_booking_breaks_listing_witness :
  snd (process_speech loads_null (sample_form "12 High Street")
         (sample_env "null") two_exchanges) = inl AttributeError.
Proof.
  edestruct (non_dict_booking_breaks_listing loads_null
               (sample_form "12 High Street") (sample_env "null") two_exchanges)
    as [Hres _];
    [ vm_compute; reflexivity | vm_compute; reflexivity | reflexivity
    | simpl; lia | reflexivity | discriminate | exact Hres ].
Defined.

(** ** A new call in the listing *)

Lemma set_absent {V} (k : call_id) (v : V) (d : list (call_id * V)) :
  Dict.get k d = None -> Dict.set k v d = d ++ [(k, v)].
Proof.
  induction d as [|[k' v'] d IH]; simpl; [reflexivity|].
  destruct (decide (k = k')); [discriminate|].
  intros Hg. now rewrite IH.
Qed.

Lemma call_entries_app items cs item c :
  call_entries items = inr cs -> call_entry_of item = inr c ->
  call_entries (items ++ [item]) = inr (cs ++ [c]).
Proof.
  revert cs. induction items as [|i items IH]; intros cs; simpl.
  - intros [= <-] ->. reflexivity.
  - destruct (call_entry_of i); [discriminate|].
    destruct (call_entries items) as [x|cs0]; [discriminate|].
    intros [= <-] Hc. now rewrite (IH cs0 eq_refl Hc).
Qed.

(** X10.  A call start for a call that is not stored yet adds one entry at
    the end of the listing and leaves the other entries as they were: the
    new entry has the call identifier, the caller's number as phone, the
    time of the request, status 'in-progress', urgency 'normal', an empty
    transcript and the placeholders 'Unknown', 'Not specified' and
    'Not scheduled'. *)
Theorem new_call_is_listed_last (f : form) (e : env) (w : world)
    (cs : list call_entry) :
  same_calls w ->
  Dict.get (f_CallSid f) (conversations w) = None ->
  snd (get_calls w) = inr cs ->
  snd (get_calls (fst (voice f e w)))
    = inr (cs ++ [new_call_entry (f_CallSid f) (f_From f) (clock e 0)]).
Proof.
  intros Hinv Hc Hcs.
  assert (Hd : Dict.get (f_CallSid f) (call_data w) = None).
  { destruct (Dict.get (f_CallSid f) (call_data w)) eqn:Hg; [|reflexivity].
    assert (Hin : f_CallSid f ∈ dict_dom (call_data w))
      by (apply elem_of_dict_dom; rewrite Hg; eauto).
    rewrite <- Hinv in Hin. apply elem_of_dict_dom in Hin as [x Hx]. congruence. }
  rewrite voice_world. unfold Dict.mem. rewrite Hc. simpl fst.
  unfold get_calls, bind, get_world, lift in *. simpl in *.
  rewrite (set_absent _ _ _ Hd).
  now apply call_entries_app.
Qed.

(** A call start for CA456 after the sample call. *)
Lemma new_call_is_listed_last_witness :
  exists cs,
    snd (get_calls (fst (voice other_start (sample_env "") completed_call)))
      = inr (cs ++ [new_call_entry (Some "CA456") (Some "+445555555555") 0]).
Proof.
  eexists.
  apply (new_call_is_listed_last other_start (sample_env "") completed_call).
  - vm_compute. reflexivity.
  - vm_compute. reflexivity.
  - vm_compute. reflexivity.
Defined.

(** ** The classifier and the text around a trigger phrase *)

Local Open Scope N_scope.

(** A code point is its own lower case or one of the mapped ones. *)
Lemma to_lower_in_cases (ranges : list (N * N * N * N)) (c : N) :
  Text.to_lower_in ranges c = c \/ In c (flat_map mapped_by ranges).
Proof.
  induction ranges as [|[[[lo hi] step] target] ranges IH]; [now left|].
  cbn [Text.to_lower_in flat_map].
  destruct ((lo <=? c) && (c <=? hi)) eqn:Hin.
  - destruct ((c - lo) mod step =? 0) eqn:Hmod; [|now left].
    right. apply in_or_app. left.
    apply andb_true_iff in Hin as [Hlo Hhi].
    apply N.leb_le in Hlo, Hhi. apply N.eqb_eq in Hmod.
    pose proof (N.div_mod' (c - lo) step) as Hdm. rewrite Hmod in Hdm.
    assert (Hle : (c - lo) / step <= (hi - lo) / step)
      by (apply N.Div0.div_le_mono; lia).
    unfold mapped_by. revert Hdm Hle.
    generalize ((c - lo) / step). generalize ((hi - lo) / step).
    intros n q Hdm Hle.
    apply in_map_iff. exists (N.to_nat q). split.
    + rewrite N2Nat.id. nia.
    + apply in_seq. clear Hdm. lia.
  - destruct IH as [IH|IH]; [now left|]. right. apply in_or_app. now right.
Qed.

Lemma to_lower_settled (c : N) :
  (c =? 0x130) = false -> settled (Text.to_lower c) = true.
Proof.
  intros H2.
  assert (Hall : forallb (fun c => settled (Text.to_lower c)) mapped_points = true)
    by (vm_compute; reflexivity).
  destruct (to_lower_in_cases Text.lower_ranges c) as [Hc|Hc].
  - fold (Text.to_lower c) in Hc. rewrite Hc. unfold settled.
    rewrite Hc, H2, N.eqb_refl.
    destruct (c =? 0x3A3) eqn:H1; [|reflexivity].
    apply N.eqb_eq in H1. subst c. vm_compute in Hc. discriminate.
  - rewrite forallb_forall in Hall. exact (Hall c Hc).
Qed.

Lemma lowered_settled (x : N) : settled x = true -> lowered x = fold_sigma [x].
Proof.
  unfold settled, lowered, Text.to_lower_full.
  rewrite !andb_true_iff, !negb_true_iff, N.eqb_eq.
  intros [[-> ->] ->]. reflexivity.
Qed.

(** Lowering what was lowered changes nothing, up to the two sigmas. *)
Lemma lowered_twice (before : list N) (c : N) (final : bool) :
  flat_map lowered
    (if c =? 0x3A3 then [if final then 0x3C2 else 0x3C3] else Text.to_lower_full c)
  = lowered c.
Proof.
  destruct (c =? 0x3A3) eqn:H1.
  - unfold lowered at 2. rewrite H1. now destruct final.
  - unfold Text.to_lower_full. destruct (c =? 0x130) eqn:H2.
    + apply N.eqb_eq in H2. subst c. reflexivity.
    + pose proof (to_lower_settled c H2) as Hs.
      simpl. rewrite app_nil_r, (lowered_settled _ Hs).
      unfold lowered, Text.to_lower_full. now rewrite H1, H2.
Qed.

Lemma lowered_lower_from (before s : list N) :
  flat_map lowered (Text.lower_from before s) = flat_map lowered s.
Proof.
  revert before. induction s as [|c s IH]; intros before; simpl; [reflexivity|].
  now rewrite flat_map_app, IH, (lowered_twice before).
Qed.

(** X11.  The classifier looks at the text only through its lower case: a
    text and its lower case, as [str.lower()] gives it, get the same
    answer.  And it is monotone in the text: an utterance that contains a
    flagged utterance, with anything before and after it, is flagged too,
    so saying more never withdraws an emergency.  Both hold for every
    sequence of code points. *)
Theorem detect_emergency_context :
  (forall text : list N,
     detect_emergency_points (Text.lower text) = detect_emergency_points text) /\
  (forall pre text post : list N,
     detect_emergency_points text = true ->
     detect_emergency_points (pre ++ text ++ post) = true).
Proof.
  split.
  - intros text. rewrite !detect_emergency_lowered. unfold Text.lower.
    now rewrite lowered_lower_from.
  - intros pre text post H. rewrite detect_emergency_lowered in *.
    apply existsb_exists in H as (k & Hk & H). apply existsb_exists.
    exists k. split; [exact Hk|].
    rewrite !flat_map_app. now apply contains_app.
Qed.

(** A flagged sentence inside a longer one. *)
Lemma detect_emergency_context_witness :
  detect_emergency_points
    (Text.code_points "Hello, " ++ Text.code_points "there is a LEAK"
       ++ Text.code_points " under the sink") = true.
Proof.
  apply (proj2 detect_emergency_context). vm_compute. reflexivity.
Defined.

Local Close Scope N_scope.

(** ** The two side effects for a call that is not stored *)

(** X12.  [send_confirmation_sms] and [save_to_dashboard] read the call
    with [call_data.get(call_sid, {})], so neither raises for a call that
    is not stored: no SMS is sent, as there is no number to send it to, and
    the dashboard record published holds the defaults: 'Unknown' as name
    and phone, 'Not specified', 'Not scheduled', urgency 'normal', status
    'booked', an empty transcript, and as duration the time between the two
    readings of the clock. *)
Theorem side_effects_for_unknown_call (e : env) (call_sid : call_id) (w : world) :
  Dict.get call_sid (call_data w) = None ->
  send_confirmation_sms e call_sid w = (w, inr tt) /\
  save_to_dashboard e call_sid w
    = (with_effects w
         [DashboardPrint call_sid
            {| db_clientName := JStr "Unknown";
               db_phone := JStr "Unknown";
               db_issue := JStr "Not specified";
               db_urgency := "normal";
               db_appointmentTime := JStr "Not scheduled";
               db_status := "booked";
               db_duration := ((clock e 1 - clock e 0) / 1000000)%Z;
               db_transcript := "" |}],
       inr tt).
Proof.
  intros Hd. split.
  - unfold send_confirmation_sms, bind, get_world, lift. cbv zeta.
    rewrite Hd. reflexivity.
  - unfold save_to_dashboard, bind, get_world, lift, emit. cbv zeta.
    rewrite Hd. reflexivity.
Qed.

(** CA999 never started. *)
Lemma side_effects_for_unknown_call_witness :
  send_confirmation_sms (sample_env "") (Some "CA999") completed_call
    = (completed_call, inr tt).
Proof.
  apply (proj1 (side_effects_for_unknown_call (sample_env "") (Some "CA999")
                  completed_call eq_refl)).
Defined.

(** ** The dashboard record of a stored call *)

Lemma eq_str_true v s : Py.eq_str v s = true <-> v = JStr s.
Proof.
  destruct v; simpl; try (split; [discriminate | intros [=]]).
  rewrite String.eqb_eq. split; [now intros -> | now intros [= ->]].
Qed.

(** X14.  For a stored call whose booking record is a dict (or is not
    there yet), [save_to_dashboard] raises nothing and publishes one
    record.  Its urgency is 'emergency' exactly when the session's flag is
    set or the record's 'is_emergency' is the text "yes"; its status is
    'urgent' exactly when the flag is set, and 'booked' otherwise; its
    phone is the record's 'phone' entry when there is one, else the
    caller's number; its transcript is the call's; its duration runs from
    the start of the call to the last status update, or to the time of
    the request when there was none. *)
Theorem dashboard_record_of_call (e : env) (call_sid : call_id) (w : world)
    (d : call_record) (fields : list (string * json)) :
  Dict.get call_sid (call_data w) = Some d ->
  booking_info_of (Some d) = JObj fields ->
  exists data,
    save_to_dashboard e call_sid w
      = (with_effects w [DashboardPrint call_sid data], inr tt) /\
    (db_urgency data = "emergency" <->
       flagged d = true \/ Py.assoc "is_emergency" fields = Some (JStr "yes")) /\
    (db_urgency data = "emergency" \/ db_urgency data = "normal") /\
    (db_status data = "urgent" <-> flagged d = true) /\
    (db_status data = "urgent" \/ db_status data = "booked") /\
    db_phone data = destination fields (Py.of_opt (cd_from d)) /\
    db_transcript data = transcript_of d /\
    db_duration data =
      ((match cd_ended_at d with Some t => t | None => clock e 1 end
        - cd_started_at d) / 1000000)%Z.
Proof.
  intros Hd Hb. eexists. split.
  - unfold save_to_dashboard, bind, get_world, lift, emit. cbv zeta.
    rewrite Hd, Hb. unfold Py.get. reflexivity.
  - cbn [db_urgency db_status db_phone db_transcript db_duration].
    split; [|split; [|split; [|split]]].
    + destruct (flagged d); simpl.
      * split; [now left | reflexivity].
      * destruct (Py.assoc "is_emergency" fields) as [v|] eqn:Hv.
        -- destruct (Py.eq_str v "yes") eqn:Hy.
           ++ apply eq_str_true in Hy. subst. split; [now right | reflexivity].
           ++ split; [discriminate|]. intros [?|[= ->]]; [discriminate|].
              simpl in Hy. discriminate.
        -- simpl. split; [discriminate|]. intros [?|?]; discriminate.
    + destruct (flagged d || _); [now left | now right].
    + destruct (flagged d); split; try reflexivity; discriminate.
    + destruct (flagged d); [now left | now right].
    + repeat split.
Qed.

(** The session of [booked_world]: flagged, with a phone in the record. *)
Lemma dashboard_record_of_call_witness :
  exists data,
    save_to_dashboard (sample_env "") (Some "CA123") booked_world
      = (with_effects booked_world [DashboardPrint (Some "CA123") data], inr tt) /\
    db_phone data = JStr "+447700900123".
Proof.
  edestruct (dashboard_record_of_call (sample_env "") (Some "CA123") booked_world)
    as (data & Hs & _ & _ & _ & _ & Hp & _);
    [ reflexivity | reflexivity | ].
  exists data. split; [exact Hs|]. rewrite Hp. reflexivity.
Defined.

(** ** A call from its start *)

(** X15.  A call that starts fresh gathers twice and wraps up on the third
    utterance.  After the call start of a call that was not stored, with a
    chat oracle that replies each time, the first and the second utterance
    get the gather response with the oracle's reply, and the third, which
    brings the history to six turns, runs the termination branch: it ends
    with the closing response and hangup when the extraction gives a dict,
    and with an exception otherwise. *)
Theorem third_utterance_wraps_up (json_loads : string -> option json)
    (f0 f1 f2 f3 : form) (e0 e1 e2 e3 : env) (r1 r2 r3 : string) (w : world) :
  Dict.get (f_CallSid f0) (conversations w) = None ->
  f_CallSid f1 = f_CallSid f0 ->
  f_CallSid f2 = f_CallSid f0 ->
  f_CallSid f3 = f_CallSid f0 ->
  chat_reply e1 = Some r1 ->
  chat_reply e2 = Some r2 ->
  chat_reply e3 = Some r3 ->
  let w0 := fst (voice f0 e0 w) in
  let w1 := fst (process_speech json_loads f1 e1 w0) in
  let w2 := fst (process_speech json_loads f2 e2 w1) in
  snd (process_speech json_loads f1 e1 w0) = inr [Gather r1] /\
  snd (process_speech json_loads f2 e2 w1) = inr [Gather r2] /\
  (snd (process_speech json_loads f3 e3 w2) = inr [Say closing; Hangup] \/
   snd (process_speech json_loads f3 e3 w2) = inl OracleError \/
   snd (process_speech json_loads f3 e3 w2) = inl AttributeError) /\
  (forall text fields,
     extract_reply e3 = Some text ->
     booking_of json_loads text = JObj fields ->
     snd (process_speech json_loads f3 e3 w2) = inr [Say closing; Hangup]).
Proof.
  intros Hnew H1 H2 H3 Hr1 Hr2 Hr3 w0 w1 w2.
  assert (Hc0 : Dict.get (f_CallSid f1) (conversations w0) = Some []).
  { unfold w0. rewrite voice_world. unfold Dict.mem. rewrite Hnew. simpl.
    rewrite H1. apply get_set_eq. }
  assert (Hd0 : exists d0, Dict.get (f_CallSid f1) (call_data w0) = Some d0).
  { unfold w0. rewrite voice_world. unfold Dict.mem. rewrite Hnew. simpl.
    rewrite H1. eexists. apply get_set_eq. }
  destruct Hd0 as [d0 Hd0].
  pose proof (process_speech_turn json_loads f1 e1 w0 [] d0 r1 Hc0 Hd0 Hr1) as T1.
  cbv zeta in T1. simpl length in T1. simpl Nat.leb in T1.
  assert (Hc1 : exists h1, Dict.get (f_CallSid f2) (conversations w1) = Some h1 /\
                           length h1 = 2).
  { unfold w1. rewrite T1. simpl. rewrite H2, <- H1. eexists.
    split; [apply get_set_eq | reflexivity]. }
  assert (Hd1 : exists d1, Dict.get (f_CallSid f2) (call_data w1) = Some d1).
  { unfold w1. rewrite T1. simpl. rewrite H2, <- H1. eexists. apply get_set_eq. }
  destruct Hc1 as (h1 & Hc1 & Hl1). destruct Hd1 as [d1 Hd1].
  pose proof (process_speech_turn json_loads f2 e2 w1 h1 d1 r2 Hc1 Hd1 Hr2) as T2.
  cbv zeta in T2. rewrite Hl1 in T2. simpl Nat.leb in T2.
  assert (Hc2 : exists h2, Dict.get (f_CallSid f3) (conversations w2) = Some h2 /\
                           length h2 = 4).
  { unfold w2. rewrite T2. simpl. rewrite H3, <- H2. eexists.
    split; [apply get_set_eq | rewrite length_app, Hl1; reflexivity]. }
  assert (Hd2 : exists d2, Dict.get (f_CallSid f3) (call_data w2) = Some d2).
  { unfold w2. rewrite T2. simpl. rewrite H3, <- H2. eexists. apply get_set_eq. }
  destruct Hc2 as (h2 & Hc2 & Hl2). destruct Hd2 as [d2 Hd2].
  pose proof (process_speech_turn json_loads f3 e3 w2 h2 d2 r3 Hc2 Hd2 Hr3) as T3.
  cbv zeta in T3. rewrite Hl2 in T3.
  change (6 <=? 4 + 2)%nat with true in T3. cbv iota in T3.
  split; [now rewrite T1|]. split; [now rewrite T2|].
  match type of T3 with
  | _ = wrap_up _ _ ?S ?W =>
      destruct (wrap_up_call_data json_loads e3 S W _ (get_set_eq _ _ _))
        as (w3 & res & rest & Hw & _ & _ & Hres & _);
      pose proof (wrap_up_dict json_loads e3 S W _ (get_set_eq _ _ _)) as Hdict
  end.
  rewrite T3. split.
  - rewrite Hw. simpl snd. destruct Hres as [->|[->| ->]]; auto.
  - intros text fields He Hb.
    destruct (Hdict text fields He Hb) as (w4 & ? & ? & Hw4 & _).
    now rewrite Hw4.
Qed.

(** The sample call from the start of the process. *)
Lemma third_utterance_wraps_up_witness :
  snd (process_speech loads_empty_object (sample_form "I have a burst pipe!")
         (sample_env "{}") started_call)
    = inr [Gather "Could I take your name, please?"].
Proof.
  apply (proj1 (third_utterance_wraps_up loads_empty_object
                  (sample_form "") (sample_form "I have a burst pipe!")
                  (sample_form "Bob Smith") (sample_form "12 High Street")
                  (sample_env "") (sample_env "{}") (sample_env "{}")
                  (sample_env "{}") _ _ _ initial_world
                  eq_refl eq_refl eq_refl eq_refl eq_refl eq_refl eq_refl)).
Defined.

(** ** No SMS to a missing number *)

Lemma wrap_up_guarded json_loads e sid w d :
  Dict.get sid (call_data w) = Some d ->
  exists more,
    effects (fst (wrap_up json_loads e sid w)) = effects w ++ more /\
    Forall sms_guarded more.
Proof.
  intros Hd.
  destruct (extract_reply e) as [text|] eqn:He.
  - destruct (booking_of json_loads text) as [ | | | | | |fields] eqn:Hb.
    7: { destruct (wrap_up_dict json_loads e sid w d Hd text fields He Hb)
           as (w' & data & sms & Hw & _ & _ & Hf & Hsms & _).
         rewrite Hw. simpl fst. eexists. split; [exact Hf|].
         apply List.Forall_cons; [exact I|]. apply Forall_app. split.
         - subst sms. cbv zeta.
           destruct (usable (destination fields (Py.of_opt (cd_from d)))) eqn:Hu.
           + apply List.Forall_cons; [exact Hu | apply List.Forall_nil].
           + apply List.Forall_nil.
         - apply List.Forall_cons; [exact I | apply List.Forall_nil]. }
    all: rewrite (wrap_up_not_dict json_loads e sid w d Hd text He)
           by (rewrite Hb; discriminate);
         simpl fst; cbn [effects]; eexists; split; [reflexivity|];
         apply List.Forall_cons; [exact I | apply List.Forall_nil].
  - rewrite (wrap_up_oracle_error json_loads e sid w d Hd He).
    simpl fst. cbn [effects with_effects]. eexists. split; [reflexivity|].
    apply List.Forall_cons; [exact I | apply List.Forall_nil].
Qed.

Lemma handle_guarded json_loads r w :
  same_calls w ->
  exists more,
    effects (handle json_loads w r) = effects w ++ more /\
    Forall sms_guarded more.
Proof.
  intros Hinv.
  assert (Hnil : forall w', effects w' = effects w ->
            exists more, effects w' = effects w ++ more /\ Forall sms_guarded more).
  { intros w' Hw'. exists []. rewrite app_nil_r. split; [exact Hw' | apply List.Forall_nil]. }
  rewrite handle_endpoint. destruct (rq_endpoint r).
  - apply Hnil. rewrite voice_world. simpl.
    now destruct (Dict.mem _ _).
  - set (f := rq_form r). set (e := rq_env r).
    destruct (Dict.get (f_CallSid f) (conversations w)) as [h|] eqn:Hc.
    + destruct (same_calls_known w _ h Hinv Hc) as [d Hd].
      destruct (chat_reply e) as [r0|] eqn:Hr.
      * pose proof (process_speech_turn json_loads f e w h d r0 Hc Hd Hr) as Hturn.
        cbv zeta in Hturn. rewrite Hturn.
        destruct (6 <=? length h + 2)%nat.
        -- match goal with
           | |- context [wrap_up _ _ ?S ?W] =>
               destruct (wrap_up_guarded json_loads e S W _ (get_set_eq _ _ _))
                 as (more & Hm & Hg)
           end.
           rewrite Hm. cbn [effects]. rewrite <- app_assoc. eexists.
           split; [reflexivity|].
           apply List.Forall_cons; [exact I | exact Hg].
        -- simpl fst. cbn [effects]. eexists. split; [reflexivity|].
           apply List.Forall_cons; [exact I | apply List.Forall_nil].
      * rewrite (process_speech_asking json_loads f e w h d Hc Hd Hr).
        simpl fst. unfold asking. cbn [effects]. eexists. split; [reflexivity|].
        apply List.Forall_cons; [exact I | apply List.Forall_nil].
    + apply Hnil. unfold process_speech, bind.
      now rewrite (conversation_append_unknown _ _ _ Hc).
  - apply Hnil. rewrite call_status_world. simpl.
    now destruct (Dict.get _ _).
  - now apply Hnil.
  - now apply Hnil.
Qed.

(** X16.  No SMS goes to a missing number.  From a world where the two
    stores know the same calls, whatever requests arrive and whatever the
    oracles answer, every SMS handed to the SMS client since then has a
    destination that passes the guard of [send_confirmation_sms]: it is
    truthy (not None, not the empty text) and it is not the placeholder
    "Not provided". *)
Theorem sms_only_to_usable_numbers (json_loads : string -> option json)
    (rs : list request) (w : world) :
  same_calls w ->
  exists more,
    effects (run json_loads rs w) = effects w ++ more /\
    Forall sms_guarded more.
Proof.
  revert w. induction rs as [|r rs IH]; intros w Hinv; simpl.
  - exists []. rewrite app_nil_r. split; [reflexivity | apply List.Forall_nil].
  - destruct (handle_guarded json_loads r w Hinv) as (m1 & H1 & G1).
    destruct (IH _ (same_calls_handle json_loads r w Hinv)) as (m2 & H2 & G2).
    exists (m1 ++ m2). rewrite H2, H1, <- app_assoc.
    split; [reflexivity | apply Forall_app; now split].
Qed.

(** The sample call with its last event delivered twice: two SMS, both to
    the caller's number. *)
Lemma sms_only_to_usable_numbers_witness :
  Forall sms_guarded (effects duplicated_call).
Proof.
  destruct (sms_only_to_usable_numbers loads_empty_object
              (sample_call ++ [duplicate_trigger]) initial_world eq_refl)
    as (more & Hm & Hg).
  unfold duplicated_call. rewrite Hm. exact Hg.
Defined.
